(** * GreenCare plant-health client (src/index.tsx): intake, image
      normalisation, error categorisation and the item store.

    The React component [App] keeps two pieces of state, [items] and
    [selectedId], and drives one asynchronous pipeline per accepted file
    (compressImage, then analyzeItem).  The embedding below keeps the
    source's names.  JavaScript numbers are IEEE-754 binary64 values and are
    modelled with the Standard Library's [spec_float] operations at
    precision 53; strings are [string]s whose characters stand for code
    units; browser services (FileReader, Image decoding, canvas encoding,
    Math.random, URL.createObjectURL, JSON.parse, the remote model) are
    parameters of the sections that use them.  Two values come from
    outside and are taken as the code takes them, unchecked: what
    JSON.parse returns is a JSON value of any shape, and what reaches the
    [catch] block of analyzeItem is any value at all. *)

From Stdlib Require Import ZArith List String Ascii Bool Lia Arith.
From Stdlib Require Import SpecFloat.
From Stdlib.Strings Require Import Byte.
Import ListNotations.
Local Open Scope Z_scope.
Local Open Scope string_scope.

(** ** JavaScript strings *)

Module JsString.

(** [s.startsWith(p)] *)
Definition startsWith (p s : string) : bool := String.prefix p s.

(** [s.includes(needle)] *)
Fixpoint includes (needle s : string) : bool :=
  if String.prefix needle s then true
  else match s with
       | EmptyString => false
       | String _ rest => includes needle rest
       end.

(** [s.slice(0, n)] *)
Definition slice0 (n : nat) (s : string) : string := String.substring 0 n s.

(** [s.split(sep)] for a one-character separator. *)
Fixpoint split (sep : ascii) (s : string) : list string :=
  match s with
  | EmptyString => [EmptyString]
  | String c rest =>
      if Ascii.eqb c sep then EmptyString :: split sep rest
      else match split sep rest with
           | [] => [String c EmptyString]
           | w :: ws => String c w :: ws
           end
  end.

(** Truthiness of a string value: only the empty string is falsy. *)
Definition truthy (s : string) : bool :=
  match s with EmptyString => false | _ => true end.

Fixpoint mentions (c : ascii) (s : string) : bool :=
  match s with
  | EmptyString => false
  | String d rest => Ascii.eqb d c || mentions c rest
  end.

End JsString.
Import JsString.

(** ** Base64 (RFC 4648), as produced by [FileReader.readAsDataURL] *)

Module Base64.

Definition alphabet : string :=
  "ABCDEFGHIJKLMNOPQRSTUVWXYZabcdefghijklmnopqrstuvwxyz0123456789+/".

Definition digit (n : N) : ascii :=
  match String.get (N.to_nat n) alphabet with
  | Some c => c
  | None => "="%char
  end.

Fixpoint encode (bs : list byte) : string :=
  match bs with
  | [] => ""
  | [a] =>
      let x := Byte.to_N a in
      String (digit (x / 4))
        (String (digit ((x mod 4) * 16)) "==")
  | [a; b] =>
      let x := Byte.to_N a in
      let y := Byte.to_N b in
      String (digit (x / 4))
        (String (digit ((x mod 4) * 16 + y / 16))
           (String (digit ((y mod 16) * 4)) "="))
  | a :: b :: c :: rest =>
      let x := Byte.to_N a in
      let y := Byte.to_N b in
      let z := Byte.to_N c in
      String (digit (x / 4))
        (String (digit ((x mod 4) * 16 + y / 16))
           (String (digit ((y mod 16) * 4 + z / 64))
              (String (digit (z mod 64)) (encode rest))))
  end.

End Base64.

(** ** JavaScript numbers: IEEE-754 binary64 *)

Module Number.

Definition prec : Z := 53.
Definition emax : Z := 1024.

Definition mul : spec_float -> spec_float -> spec_float := SFmul prec emax.
Definition div : spec_float -> spec_float -> spec_float := SFdiv prec emax.

(** [x > y] *)
Definition gt (x y : spec_float) : bool := SFltb y x.

(** The number denoted by an integer literal or integer-valued attribute. *)
Definition of_Z (z : Z) : spec_float := binary_normalize prec emax z 0 false.

(** WebIDL conversion of a number to [unsigned long]: NaN and the
    infinities give 0, finite values are truncated toward zero and
    reduced modulo 2^32. *)
Definition to_unsigned_long (x : spec_float) : Z :=
  match x with
  | S754_finite s m e =>
      let a := Z.shiftl (Zpos m) e in
      (if s then - a else a) mod 2 ^ 32
  | _ => 0
  end.

End Number.

(** ** Types of the source *)

Record TreatmentStep := {
  step : Z;
  action : string;
  timing : string;
  details : string
}.

Inductive Severity := Low | Medium | High | SeverityNone.

Record Issue := {
  name : string;
  severity : Severity;
  confidence : string;
  explanation : string;
  treatmentPlan : list TreatmentStep
}.

Record AnalysisResult := {
  overallStatus : string;
  issues : list Issue;
  safetyTips : list string;
  followUp : string
}.

(** ** Values of [JSON.parse]

    [result] is declared [AnalysisResult | null], but what analyzeItem
    stores there is the value of [JSON.parse], unchecked: any JSON value. *)

Module Json.

(** The members of an object are in the order of the text; as in
    [JSON.parse], a later member overrides an earlier one of the same
    name. *)
#[warnings="-register-all"]
Inductive t :=
| Null
| Boolean (b : bool)
| Num (x : spec_float)
| Str (s : string)
| Arr (elements : list t)
| Obj (members : list (string * t)).

(** [ToBoolean], which [v ? a : b] applies to [v]. *)
Definition truthy (v : t) : bool :=
  match v with
  | Null => false
  | Boolean b => b
  | Num (S754_zero _) => false
  | Num S754_nan => false
  | Num _ => true
  | Str s => JsString.truthy s
  | Arr _ => true
  | Obj _ => true
  end.

Fixpoint member (key : string) (members : list (string * t)) : option t :=
  match members with
  | [] => None
  | (k, v) :: rest =>
      match member key rest with
      | Some w => Some w
      | None => if String.eqb k key then Some v else None
      end
  end.

(** [v?.key] for a [key] that no prototype defines; [None] stands for
    [undefined], which is what a primitive, an array and [null] give. *)
Definition get (key : string) (v : t) : option t :=
  match v with
  | Obj members => member key members
  | _ => None
  end.

(** [x === s] for a string literal [s]. *)
Definition is_string (s : string) (x : option t) : bool :=
  match x with
  | Some (Str s') => String.eqb s' s
  | _ => false
  end.

(** The objects of the declared types. *)
Definition of_TreatmentStep (s : TreatmentStep) : t :=
  Obj [("step", Num (Number.of_Z (step s)));
       ("action", Str (action s));
       ("timing", Str (timing s));
       ("details", Str (details s))].

Definition of_Severity (s : Severity) : t :=
  Str match s with
      | Low => "Low"
      | Medium => "Medium"
      | High => "High"
      | SeverityNone => "None"
      end.

Definition of_Issue (i : Issue) : t :=
  Obj [("name", Str (name i));
       ("severity", of_Severity (severity i));
       ("confidence", Str (confidence i));
       ("explanation", Str (explanation i));
       ("treatmentPlan", Arr (map of_TreatmentStep (treatmentPlan i)))].

Definition of_AnalysisResult (r : AnalysisResult) : t :=
  Obj [("overallStatus", Str (overallStatus r));
       ("issues", Arr (map of_Issue (issues r)));
       ("safetyTips", Arr (map Str (safetyTips r)));
       ("followUp", Str (followUp r))].

End Json.

(** A browser [File]: its name, declared media type and content. *)
Record File := {
  file_name : string;
  type : string;
  bytes : list byte
}.

Record FileItem := {
  id : string;
  file : File;
  previewUrl : string;
  mimeType : string;
  loading : bool;
  result : Json.t;
  error : option string
}.

(** ** compressImage (index.tsx, lines 62-120) *)

(** A decoded image: [img.width] and [img.height], of WebIDL type
    [unsigned long]. *)
Record Image := {
  img_width : Z;
  img_height : Z
}.

Record Canvas := {
  canvas_width : Z;
  canvas_height : Z;
  (** what [ctx.drawImage(img, 0, 0, width, height)] painted *)
  drawn : Image * spec_float * spec_float
}.

Record Payload := {
  data : option string;
  payload_mimeType : string
}.

Inductive Settled (A : Type) :=
| Resolved (a : A)
| Rejected.
Arguments Resolved {A} a.
Arguments Rejected {A}.

(** The literal [0.7]. *)
Definition JPEG_QUALITY : spec_float := Number.div (Number.of_Z 7) (Number.of_Z 10).

Definition MAX_WIDTH : spec_float := Number.of_Z 1024.
Definition MAX_HEIGHT : spec_float := Number.of_Z 1024.

(** The "Resize logic" block: the values of [width] and [height] after it,
    starting from [img.width] and [img.height].  All of it is arithmetic on
    numbers; [height *= MAX_WIDTH / width] is
    [height = height * (MAX_WIDTH / width)]. *)
Definition resize (img : Image) : spec_float * spec_float :=
  let width := Number.of_Z (img_width img) in
  let height := Number.of_Z (img_height img) in
  if Number.gt width height then
    if Number.gt width MAX_WIDTH then
      let height := Number.mul height (Number.div MAX_WIDTH width) in
      let width := MAX_WIDTH in
      (width, height)
    else (width, height)
  else
    if Number.gt height MAX_HEIGHT then
      let width := Number.mul width (Number.div MAX_HEIGHT height) in
      let height := MAX_HEIGHT in
      (width, height)
    else (width, height).

(** The canvas after [canvas.width = width; canvas.height = height] and
    the [drawImage] call.  The two attributes are [unsigned long]s, so the
    assignments convert the numbers. *)
Definition paint (img : Image) : Canvas :=
  let '(width, height) := resize img in
  {| canvas_width := Number.to_unsigned_long width;
     canvas_height := Number.to_unsigned_long height;
     drawn := (img, width, height) |}.

(** [FileReader.readAsDataURL] result for a file that can be read. *)
Definition dataURL (f : File) : string :=
  "data:" ++ type f ++ ";base64," ++ Base64.encode (bytes f).

Section Browser.

(** [true] when the FileReader fires [onload], [false] for [onerror]. *)
Variable readable : File -> bool.
(** Decoding of [img.src]: [Some] for [img.onload], [None] for [img.onerror]. *)
Variable decode : string -> option Image.
(** Whether [canvas.getContext('2d')] returns a context. *)
Variable getContext2d : Z -> Z -> bool.
(** The user agent's serialisation of the canvas bitmap as a file of the
    requested type at the requested quality; [None] when it cannot
    produce one. *)
Variable serialize : Canvas -> string -> spec_float -> option (list byte).

Definition readAsDataURL (f : File) : option string :=
  if readable f then Some (dataURL f) else None.

(** [canvas.toDataURL(type, quality)], as HTML defines it for a canvas
    that is origin-clean: a bitmap with no pixels, that is with a
    dimension equal to zero, gives "data:,", and so does one that cannot be
    serialised. *)
Definition toDataURL (canvas : Canvas) (kind : string) (quality : spec_float)
    : string :=
  if (canvas_width canvas =? 0)%Z || (canvas_height canvas =? 0)%Z then "data:,"
  else
    match serialize canvas kind quality with
    | Some bitmap => "data:" ++ kind ++ ";base64," ++ Base64.encode bitmap
    | None => "data:,"
    end.

Definition compressImage (f : File) : Settled Payload :=
  if negb (startsWith "image/" (type f)) then
    match readAsDataURL f with
    | Some result =>
        let base64 := nth_error (split "," result) 1 in
        Resolved {| data := base64; payload_mimeType := type f |}
    | None => Rejected
    end
  else
    match readAsDataURL f with
    | None => Rejected
    | Some src =>
        match decode src with
        | None => Rejected
        | Some img =>
            let canvas := paint img in
            if getContext2d (canvas_width canvas) (canvas_height canvas) then
              let dataUrl := toDataURL canvas "image/jpeg" JPEG_QUALITY in
              let base64 := nth_error (split "," dataUrl) 1 in
              Resolved {| data := base64; payload_mimeType := "image/jpeg" |}
            else Rejected
        end
    end.

End Browser.


(** ** processFiles, analyzeItem and removeItem (index.tsx, lines 122-300) *)

(** An asynchronous pipeline that has been started and has not settled:
    the [await compressImage(item.file)] of processFiles, or the
    [await ai.models.generateContent(...)] of analyzeItem. *)
Inductive Task :=
| Compressing (item : FileItem)
| Analyzing (task_id : string) (base64Data : option string) (task_mimeType : string).

Record State := {
  items : list FileItem;
  selectedId : option string;
  (** texts shown by [alert], oldest first *)
  alerts : list string;
  (** pipelines in flight *)
  tasks : list Task;
  (** number of identifiers drawn from [Math.random] so far *)
  draws : nat
}.

Definition initial : State :=
  {| items := []; selectedId := None; alerts := []; tasks := []; draws := 0 |}.

(** The "Basic validation" test of processFiles, negated: the file is kept. *)
Definition accepted (f : File) : bool :=
  negb (negb (startsWith "image/" (type f))
        && negb (String.eqb (type f) "application/pdf")).

Definition notice (f : File) : string :=
  "File " ++ file_name f ++ " is not supported. Please use JPG, PNG, or PDF.".

(** How the evaluation of an expression completes: with a value, or by
    throwing. *)
Inductive Completion (A : Type) :=
| Normal (a : A)
| Throws.
Arguments Normal {A} a.
Arguments Throws {A}.

(** What the [catch (err: any)] block of analyzeItem reads as
    [err.message], as far as the block looks at it; the property is taken
    to read the same each time.  For a truthy value [m] that is not a
    string, [includes needle] is the completion of [m.includes(needle)],
    by its truth value, and [excerpt] that of the text of
    [m.slice(0, 50)] in the template literal; both throw when [m] has no
    such method, as for a number, [true] or a plain object. *)
Inductive Message :=
| Falsy
    (** [undefined] (no such property), [null], [false], [0] or [NaN] *)
| Text (s : string)
    (** a string *)
| Other (includes : string -> Completion bool) (excerpt : Completion string).

(** The value that reaches the [catch] block. *)
Inductive Thrown :=
| Nullish
    (** [null] or [undefined]: reading [err.message] throws a TypeError *)
| Caught (message : Message).

(** Lines 261-266: the value of [errorMessage] when line 268 is reached,
    or the throw that leaves the block before it. *)
Definition errorMessage (err : Thrown) : Completion string :=
  match err with
  | Nullish => Throws
  | Caught Falsy => Normal "Failed to analyze. Please try again."
  | Caught (Text message) =>
      if truthy message then
        if includes "403" message then
          Normal "Permission Denied: Please check API Key or Network."
        else if includes "503" message then
          Normal "Service temporarily unavailable. Retrying might help."
        else Normal ("Error: " ++ slice0 50 message ++ "...")
      else Normal "Failed to analyze. Please try again."
  | Caught (Other has excerpt) =>
      match has "403" with
      | Throws => Throws
      | Normal true =>
          Normal "Permission Denied: Please check API Key or Network."
      | Normal false =>
          match has "503" with
          | Throws => Throws
          | Normal true =>
              Normal "Service temporarily unavailable. Retrying might help."
          | Normal false =>
              match excerpt with
              | Throws => Throws
              | Normal text => Normal ("Error: " ++ text ++ "...")
              end
          end
      end
  end.

(** Result of [JSON.parse]: a thrown SyntaxError with its message, or the
    parsed value. *)
Inductive Parse :=
| ParseThrows (message : string)
| Parsed (resultData : Json.t).

(** How the call to the remote model settles: the awaited promise rejects
    with some value (or reading [response.text] throws one), or it returns
    a response whose [text] may be undefined. *)
Inductive Response :=
| CallThrows (err : Thrown)
| CallReturns (text : option string).

(** The three [setItems] updaters that merge by identity. *)
Definition mergeResult (i : string) (resultData : Json.t)
    (prev : list FileItem) : list FileItem :=
  map (fun item =>
         if String.eqb (id item) i then
           {| id := id item; file := file item; previewUrl := previewUrl item;
              mimeType := mimeType item; loading := false;
              result := resultData; error := error item |}
         else item) prev.

Definition mergeError (i : string) (message : string)
    (prev : list FileItem) : list FileItem :=
  map (fun item =>
         if String.eqb (id item) i then
           {| id := id item; file := file item; previewUrl := previewUrl item;
              mimeType := mimeType item; loading := false;
              result := result item; error := Some message |}
         else item) prev.

Section App.

(** The identifier [Math.random().toString(36).substring(7)] computed at
    the n-th draw, and the n-th [URL.createObjectURL] result. *)
Variable random_id : nat -> string.
Variable createObjectURL : nat -> File -> string.
Variable JSON_parse : string -> Parse.
Variable readable : File -> bool.
Variable decode : string -> option Image.
Variable getContext2d : Z -> Z -> bool.
Variable serialize : Canvas -> string -> spec_float -> option (list byte).

(** The [files.forEach] loop of processFiles: the new items, the alerts
    raised and the number of draws made, in order. *)
Fixpoint forEach_file (files : list File) (n : nat)
    (newItems : list FileItem) (raised : list string)
    : list FileItem * list string * nat :=
  match files with
  | [] => (newItems, raised, n)
  | f :: rest =>
      if negb (startsWith "image/" (type f))
         && negb (String.eqb (type f) "application/pdf")
      then forEach_file rest n newItems (raised ++ [notice f])%list
      else
        let newItem :=
          {| id := random_id n; file := f;
             previewUrl := createObjectURL n f;
             mimeType := type f; loading := true;
             result := Json.Null; error := None |} in
        forEach_file rest (S n) (newItems ++ [newItem])%list raised
  end.

Definition processFiles (files : list File) (st : State) : State :=
  let '(newItems, raised, n) := forEach_file files (draws st) [] [] in
  {| items := (items st ++ newItems)%list;
     selectedId := match newItems with
                   | first :: _ => Some (id first)
                   | [] => selectedId st
                   end;
     alerts := (alerts st ++ raised)%list;
     tasks := (tasks st ++ map Compressing newItems)%list;
     draws := n |}.

(** What analyzeItem throws or obtains once the call has settled: the
    left summand is the value handed to the result merge, the right one
    the exception that reaches the [catch]. *)
Definition attempt (r : Response) : Json.t + Thrown :=
  match r with
  | CallThrows err => inr err
  | CallReturns (Some text) =>
      if truthy text then
        match JSON_parse text with
        | Parsed resultData => inl resultData
        | ParseThrows message => inr (Caught (Text message))
        end
      else inr (Caught (Text "No response from AI"))
  | CallReturns None => inr (Caught (Text "No response from AI"))
  end.

(** The continuation of analyzeItem after its [await].  When the [catch]
    block throws, the second [setItems] is never called: the promise of
    analyzeItem rejects, nobody awaits it, and the collection stays as it
    was. *)
Definition analyzeItem (i : string) (r : Response)
    (prev : list FileItem) : list FileItem :=
  match attempt r with
  | inl resultData => mergeResult i resultData prev
  | inr err =>
      match errorMessage err with
      | Normal message => mergeError i message prev
      | Throws => prev
      end
  end.

(** Whether analyzeItem reaches one of its two [setItems] calls. *)
Definition merges (r : Response) : bool :=
  match attempt r with
  | inl _ => true
  | inr err =>
      match errorMessage err with
      | Normal _ => true
      | Throws => false
      end
  end.

Definition removeItem (i : string) (st : State) : State :=
  let newItems :=
    filter (fun item => negb (String.eqb (id item) i)) (items st) in
  {| items := newItems;
     selectedId :=
       match selectedId st with
       | Some s =>
           if String.eqb s i then
             match newItems with
             | first :: _ => Some (id first)
             | [] => None
             end
           else Some s
       | None => None
       end;
     alerts := alerts st;
     tasks := tasks st;
     draws := draws st |}.

(** Removal of the k-th element of a list. *)
Fixpoint drop_nth {A : Type} (k : nat) (l : list A) : list A :=
  match k, l with
  | _, [] => []
  | O, _ :: rest => rest
  | S k', x :: rest => x :: drop_nth k' rest
  end.

Fixpoint set_nth {A : Type} (k : nat) (y : A) (l : list A) : list A :=
  match k, l with
  | _, [] => []
  | O, _ :: rest => y :: rest
  | S k', x :: rest => x :: set_nth k' y rest
  end.

(** What can happen next: a user action (files chosen or dropped, the
    remove button of an entry, a click on an entry or on the back button),
    or the settling of a pipeline that is in flight (the k-th of [tasks]). *)
Inductive Event :=
| AddFiles (files : list File)
| Remove (i : string)
| Select (s : option string)
| CompressionSettles (k : nat)
| AnalysisSettles (k : nat) (r : Response).

Definition with_items (st : State) (l : list FileItem) (ts : list Task) : State :=
  {| items := l; selectedId := selectedId st; alerts := alerts st;
     tasks := ts; draws := draws st |}.

(** One turn of the event loop; [None] when the event cannot happen in
    this state. *)
Definition next (st : State) (e : Event) : option State :=
  match e with
  | AddFiles files => Some (processFiles files st)
  | Remove i => Some (removeItem i st)
  | Select s =>
      let st' := {| items := items st; selectedId := s; alerts := alerts st;
                    tasks := tasks st; draws := draws st |} in
      match s with
      | None => Some st'
      | Some i =>
          if existsb (fun item => String.eqb (id item) i) (items st)
          then Some st' else None
      end
  | CompressionSettles k =>
      match nth_error (tasks st) k with
      | Some (Compressing item) =>
          match compressImage readable decode getContext2d serialize (file item) with
          | Resolved p =>
              Some (with_items st (items st)
                      (set_nth k (Analyzing (id item) (data p) (payload_mimeType p))
                         (tasks st)))
          | Rejected =>
              Some (with_items st
                      (mergeError (id item) "Failed to process image." (items st))
                      (drop_nth k (tasks st)))
          end
      | _ => None
      end
  | AnalysisSettles k r =>
      match nth_error (tasks st) k with
      | Some (Analyzing i _ _) =>
          Some (with_items st (analyzeItem i r (items st)) (drop_nth k (tasks st)))
      | _ => None
      end
  end.

Fixpoint run (st : State) (es : list Event) : option State :=
  match es with
  | [] => Some st
  | e :: rest =>
      match next st e with
      | Some st' => run st' rest
      | None => None
      end
  end.

Definition reachable (st : State) : Prop :=
  exists es, run initial es = Some st.

(** Runs in which every analysis reached one of its [setItems] calls,
    and runs in which every failure carried a string as its message, or
    none. *)
Definition handled (e : Event) : Prop :=
  match e with
  | AnalysisSettles _ r => merges r = true
  | _ => True
  end.

Definition carries_text (r : Response) : Prop :=
  match r with
  | CallThrows (Caught (Other _ _)) => False
  | _ => True
  end.

Definition textual (e : Event) : Prop :=
  match e with
  | AnalysisSettles _ r => carries_text r
  | _ => True
  end.

(** The three readings of an item named by the data model. *)
Definition isLoading (item : FileItem) : Prop := loading item = true.
Definition hasError (item : FileItem) : Prop := error item <> None.
Definition hasResult (item : FileItem) : Prop := result item <> Json.Null.

(** An item as processFiles creates it. *)
Definition pristine (item : FileItem) : Prop :=
  loading item = true /\ result item = Json.Null /\ error item = None.

Definition exactly_one (item : FileItem) : Prop :=
  (isLoading item /\ ~ hasError item /\ ~ hasResult item)
  \/ (~ isLoading item /\ hasError item /\ ~ hasResult item)
  \/ (~ isLoading item /\ ~ hasError item /\ hasResult item).

Definition terminal (item : FileItem) : Prop :=
  hasResult item \/ hasError item.

(** The identity a pipeline will merge under. *)
Definition task_ident (t : Task) : string :=
  match t with
  | Compressing item => id item
  | Analyzing i _ _ => i
  end.

(** An identifier that some draw made so far has produced. *)
Definition issued (st : State) (i : string) : Prop :=
  exists n, (n < draws st)%nat /\ i = random_id n.

(** What holds of every state the application reaches when no two draws
    give the same identifier: identities in the collection and in the
    pipelines in flight were issued, no two entries and no two
    pipelines share one, and an entry whose pipeline is in flight is
    still as created. *)
Record consistent (st : State) : Prop := {
  items_issued : forall i, In i (map id (items st)) -> issued st i;
  tasks_issued : forall i, In i (map task_ident (tasks st)) -> issued st i;
  items_distinct : NoDup (map id (items st));
  tasks_distinct : NoDup (map task_ident (tasks st));
  in_flight_pristine :
    forall item, In item (items st) ->
                 In (id item) (map task_ident (tasks st)) -> pristine item
}.

(** Every entry with the identity of [item] is [item] itself. *)
Definition kept (st : State) (item : FileItem) : Prop :=
  forall item', In item' (items st) -> id item' = id item -> item' = item.

(** The entry [item] has settled and, wherever its identity still occurs
    in the collection, it occurs as [item]. *)
Definition settled_for_good (item : FileItem) (st : State) : Prop :=
  issued st (id item) /\ terminal item /\ kept st item.

Definition all_exactly_one (st : State) : Prop :=
  forall item, In item (items st) -> exactly_one item.

End App.

(** ** The rest of the component (index.tsx, lines 54-60, 278-289, 302-640) *)

(** [items.find(item => item.id === selectedId)]; no identity equals
    [null]. *)
Definition selectedItem (st : State) : option FileItem :=
  match selectedId st with
  | Some s => find (fun item => String.eqb (id item) s) (items st)
  | None => None
  end.

Section Handlers.

Variable random_id : nat -> string.
Variable createObjectURL : nat -> File -> string.

(** handleFileChange, on the store: [event.target.files] may be null. *)
Definition handleFileChange (files : option (list File)) (st : State) : State :=
  match files with
  | Some (f :: rest) => processFiles random_id createObjectURL (f :: rest) st
  | _ => st
  end.

(** handleDrop, on the store: [e.dataTransfer.files]. *)
Definition handleDrop (files : option (list File)) (st : State) : State :=
  match files with
  | Some (f :: rest) => processFiles random_id createObjectURL (f :: rest) st
  | _ => st
  end.

End Handlers.

(** [c.toLowerCase()] on one code unit below 256: the letters A-Z and the
    Latin-1 capitals U+00C0-U+00DE, the multiplication sign U+00D7 apart,
    move up by 32. *)
Definition lower (c : ascii) : ascii :=
  let n := nat_of_ascii c in
  if ((65 <=? n) && (n <=? 90))%nat
     || ((192 <=? n) && (n <=? 214))%nat
     || ((216 <=? n) && (n <=? 222))%nat
  then ascii_of_nat (n + 32)
  else c.

Fixpoint toLowerCase (s : string) : string :=
  match s with
  | EmptyString => EmptyString
  | String c rest => String (lower c) (toLowerCase rest)
  end.

Definition getSeverityColor (severity : string) : string :=
  let s := toLowerCase severity in
  if String.eqb s "high" then "bg-red-100 text-red-800 border-red-200"
  else if String.eqb s "medium" then "bg-orange-100 text-orange-800 border-orange-200"
  else if String.eqb s "low" then "bg-yellow-100 text-yellow-800 border-yellow-200"
  else "bg-green-100 text-green-800 border-green-200".

(** Which branch of the conditional under an entry's file name is taken
    (lines 371-383).  For the badge, [text] is the value of
    [item.result?.overallStatus] handed to the span, [None] for
    [undefined], and [healthy] tells whether the green class is chosen. *)
Inductive SidebarStatus :=
| ShowsAnalyzing
| ShowsError
| ShowsStatus (text : option Json.t) (healthy : bool).

Definition sidebarStatus (item : FileItem) : SidebarStatus :=
  if loading item then ShowsAnalyzing
  else
    if match error item with Some e => truthy e | None => false end
    then ShowsError
    else ShowsStatus (Json.get "overallStatus" (result item))
           (Json.is_string "Healthy" (Json.get "overallStatus" (result item))).

(** Which branch of the conditional in the body of the main card is taken
    for the selected entry (lines 496-632).  [Report v] is the block of
    lines 513-631 evaluated on the stored value [v]; it reads
    [v.overallStatus], [v.issues], [v.safetyTips] and [v.followUp], and
    nothing here says that it renders.  [Blank] is the final [null]. *)
Inductive Body :=
| Spinner
| AnalysisFailed (message : string)
| Report (resultData : Json.t)
| Blank.

Definition body (item : FileItem) : Body :=
  if loading item then Spinner
  else
    match error item with
    | Some e =>
        if truthy e then AnalysisFailed e
        else if Json.truthy (result item) then Report (result item) else Blank
    | None =>
        if Json.truthy (result item) then Report (result item) else Blank
    end.

(** The main panel (lines 459-636): the placeholder, or the card of the
    selected entry. *)
Inductive MainPanel :=
| ReadyToAnalyze
| Card (item : FileItem) (content : Body).

Definition mainPanel (st : State) : MainPanel :=
  match selectedItem st with
  | None => ReadyToAnalyze
  | Some item => Card item (body item)
  end.

(** What a pipeline in flight carries: a file that passed the validation,
    or a payload whose media type is one of the two the pipeline
    produces. *)
Definition task_ok (t : Task) : Prop :=
  match t with
  | Compressing item => accepted (file item) = true
  | Analyzing _ _ m => m = "image/jpeg" \/ m = "application/pdf"
  end.

(** What holds of every state the application reaches, whatever the
    identifiers drawn, whatever the parser returns and whatever is
    thrown. *)
Record wellformed (st : State) : Prop := {
  selection_present :
    forall s, selectedId st = Some s ->
              exists item, In item (items st) /\ id item = s;
  loading_pristine :
    forall item, In item (items st) -> loading item = true -> pristine item;
  entries_accepted :
    forall item, In item (items st) ->
                 accepted (file item) = true /\ mimeType item = type (file item);
  tasks_ok : forall t, In t (tasks st) -> task_ok t;
  alerts_are_notices :
    forall a, In a (alerts st) -> exists f, accepted f = false /\ a = notice f;
  errors_settled :
    forall item e, In item (items st) -> error item = Some e ->
                   loading item = false /\ truthy e = true
}.

(** Every entry that is loading has a pipeline in flight. *)
Definition attended (st : State) : Prop :=
  forall item, In item (items st) -> loading item = true ->
               In (id item) (map task_ident (tasks st)).

(** No stored message is longer than 60 characters. *)
Definition concise (st : State) : Prop :=
  forall item e, In item (items st) -> error item = Some e ->
                 (String.length e <= 60)%nat.

(** Every stored result is [null] or a value that the parser returned. *)
Definition results_parsed (JSON_parse : string -> Parse) (st : State) : Prop :=
  forall item, In item (items st) ->
               result item = Json.Null
               \/ exists text, JSON_parse text = Parsed (result item).

(** Decoding of Base64 text (RFC 4648, with padding), the inverse the
    receiver of a payload applies. *)
Module Base64Decode.

Fixpoint index_of (c : ascii) (s : string) (n : N) : option N :=
  match s with
  | EmptyString => None
  | String d rest => if Ascii.eqb d c then Some n else index_of c rest (n + 1)%N
  end.

Definition value (c : ascii) : option N := index_of c Base64.alphabet 0%N.

Definition octet (n : N) : byte :=
  match Byte.of_N n with Some b => b | None => x00%byte end.

Fixpoint decode (s : string) : option (list byte) :=
  match s with
  | EmptyString => Some []
  | String a (String b (String c (String d rest))) =>
      match value a, value b with
      | Some x, Some y =>
          if Ascii.eqb c "=" then
            if Ascii.eqb d "=" && negb (truthy rest)
            then Some [octet (x * 4 + y / 16)%N]
            else None
          else
            match value c with
            | Some z =>
                if Ascii.eqb d "=" then
                  if negb (truthy rest)
                  then Some [octet (x * 4 + y / 16)%N;
                             octet ((y mod 16) * 16 + z / 4)%N]
                  else None
                else
                  match value d, decode rest with
                  | Some w, Some tail =>
                      Some (octet (x * 4 + y / 16)%N
                            :: octet ((y mod 16) * 16 + z / 4)%N
                            :: octet ((z mod 4) * 64 + w)%N :: tail)
                  | _, _ => None
                  end
            | None => None
            end
      | _, _ => None
      end
  | _ => None
  end.

End Base64Decode.

(** Counting the pipelines of each stage and the settling events of a
    run. *)
Definition isCompressing (t : Task) : bool :=
  match t with Compressing _ => true | Analyzing _ _ _ => false end.

Definition isAnalyzing (t : Task) : bool :=
  match t with Compressing _ => false | Analyzing _ _ _ => true end.

Definition compressing (st : State) : nat :=
  List.length (filter isCompressing (tasks st)).

Definition analyzing (st : State) : nat :=
  List.length (filter isAnalyzing (tasks st)).

Fixpoint compressions (es : list Event) : nat :=
  match es with
  | [] => 0
  | CompressionSettles _ :: rest => S (compressions rest)
  | _ :: rest => compressions rest
  end.

Fixpoint analyses (es : list Event) : nat :=
  match es with
  | [] => 0
  | AnalysisSettles _ _ :: rest => S (analyses rest)
  | _ :: rest => analyses rest
  end.

(** ** Sample inputs, used to run the definitions *)

Module Samples.

Definition report_pdf : File :=
  {| file_name := "report.pdf"; type := "application/pdf";
     bytes := [x25; x50; x44; x46]%byte |}.

Definition leaf_png : File :=
  {| file_name := "leaf.png"; type := "image/png";
     bytes := [x89; x50; x4e; x47]%byte |}.

Definition notes_txt : File :=
  {| file_name := "notes.txt"; type := "text/plain";
     bytes := [x68; x69]%byte |}.

Definition photo : Image := {| img_width := 4000; img_height := 3000 |}.

(** A scanned ribbon, 3000 times as wide as it is high. *)
Definition ribbon : Image := {| img_width := 6000; img_height := 2 |}.

Definition always_readable : File -> bool := fun _ => true.
Definition decode_photo : string -> option Image := fun _ => Some photo.
Definition context_available : Z -> Z -> bool := fun _ _ => true.

(** An encoder that writes the first six bytes of a JFIF file. *)
Definition encode_stub : Canvas -> string -> spec_float -> option (list byte) :=
  fun _ _ _ => Some [xff; xd8; xff; xe0; x00; x10]%byte.

(** Identifiers that never repeat: the n-th one is n letters long. *)
Fixpoint tally (n : nat) : string :=
  match n with
  | O => ""
  | S k => String "k" (tally k)
  end.

(** A generator that returns the same identifier at every draw. *)
Definition stuck : nat -> string := fun _ => "k3x9".

Definition blob_url : nat -> File -> string :=
  fun n _ => "blob:" ++ tally n.

Definition healthy_report : AnalysisResult :=
  {| overallStatus := "Healthy";
     issues := [ {| name := "Healthy Plant"; severity := SeverityNone;
                    confidence := "98%"; explanation := "No issue found";
                    treatmentPlan := [] |} ];
     safetyTips := ["Wash hands"];
     followUp := "Check weekly" |}.

Definition healthy : Json.t := Json.of_AnalysisResult healthy_report.

(** The text of [healthy], as the model sends it. *)
Definition quoted (s : string) : string :=
  String (ascii_of_nat 34) (s ++ String (ascii_of_nat 34) "").

Definition healthy_reply : string :=
  "{" ++ quoted "overallStatus" ++ ":" ++ quoted "Healthy" ++ ","
  ++ quoted "issues" ++ ":[{"
  ++ quoted "name" ++ ":" ++ quoted "Healthy Plant" ++ ","
  ++ quoted "severity" ++ ":" ++ quoted "None" ++ ","
  ++ quoted "confidence" ++ ":" ++ quoted "98%" ++ ","
  ++ quoted "explanation" ++ ":" ++ quoted "No issue found" ++ ","
  ++ quoted "treatmentPlan" ++ ":[]}],"
  ++ quoted "safetyTips" ++ ":[" ++ quoted "Wash hands" ++ "],"
  ++ quoted "followUp" ++ ":" ++ quoted "Check weekly" ++ "}".

(** [JSON.parse] on the replies of a service that only sends the report
    above: every other text is malformed. *)
Definition parse_healthy : string -> Parse :=
  fun t => if String.eqb t healthy_reply then Parsed healthy
           else ParseThrows "Unexpected end of JSON input".

(** [JSON.parse] on the report above and on four short texts. *)
Definition parse_null : string -> Parse :=
  fun t => if String.eqb t "null" then Parsed Json.Null
           else if String.eqb t "false" then Parsed (Json.Boolean false)
           else if String.eqb t "0" then Parsed (Json.Num (Number.of_Z 0))
           else if String.eqb t "{}" then Parsed (Json.Obj [])
           else parse_healthy t.

(** A message of 72 characters, and an array holding it as its only
    element: [includes] compares whole elements, [slice(0, 50)] keeps the
    element, and the template literal joins the elements. *)
Definition long_text : string :=
  "The request was rejected because the quota of this project is exhausted.".

Definition array_message : Message :=
  Other (fun needle => Normal (String.eqb needle long_text)) (Normal long_text).

(** A number as message: it has neither [includes] nor [slice]. *)
Definition number_message : Message :=
  Other (fun _ => Throws) Throws.

Definition loading_item (i : string) (f : File) : FileItem :=
  {| id := i; file := f; previewUrl := "blob:0"; mimeType := type f;
     loading := true; result := Json.Null; error := None |}.

Definition two_items : State :=
  {| items := [loading_item "a" report_pdf; loading_item "b" leaf_png];
     selectedId := Some "a"; alerts := []; tasks := []; draws := 2 |}.

(** One document is added, compressed and analysed; the model answers
    with the text [reply]. *)
Definition one_document (reply : string) : list Event :=
  [AddFiles [report_pdf]; CompressionSettles 0;
   AnalysisSettles 0 (CallReturns (Some reply))].

(** Two files are added and compressed; the analysis of the first
    succeeds. *)
Definition two_files_first_succeeds : list Event :=
  [AddFiles [report_pdf; leaf_png]; CompressionSettles 0; CompressionSettles 1;
   AnalysisSettles 0 (CallReturns (Some healthy_reply))].

(** Then the analysis of the second fails. *)
Definition second_fails : list Event :=
  [AnalysisSettles 0 (CallThrows (Caught (Text "503 Service Unavailable")))].

(** One document is added and compressed; the call to the model rejects
    with [err]. *)
Definition one_failure (err : Thrown) : list Event :=
  [AddFiles [report_pdf]; CompressionSettles 0;
   AnalysisSettles 0 (CallThrows err)].

(** The entry of [report_pdf] once its analysis has succeeded, the state
    around it, and the state after [leaf_png] is added next. *)
Definition done_item : FileItem :=
  {| id := ""; file := report_pdf; previewUrl := "blob:";
     mimeType := "application/pdf"; loading := false;
     result := healthy; error := None |}.

Definition after_document : State :=
  {| items := [done_item]; selectedId := Some ""; alerts := [];
     tasks := []; draws := 1 |}.

Definition second_item : FileItem :=
  {| id := "k"; file := leaf_png; previewUrl := "blob:k";
     mimeType := "image/png"; loading := true;
     result := Json.Null; error := None |}.

Definition after_second_file : State :=
  {| items := [done_item; second_item]; selectedId := Some "k"; alerts := [];
     tasks := [Compressing second_item]; draws := 2 |}.

(** The state once [leaf_png] has been added to the empty store and
    compressed. *)
Definition png_awaiting_model : State :=
  {| items := [ {| id := ""; file := leaf_png; previewUrl := "blob:";
                   mimeType := "image/png"; loading := true;
                   result := Json.Null; error := None |} ];
     selectedId := Some ""; alerts := [];
     tasks := [Analyzing "" (Some "/9j/4AAQ") "image/jpeg"]; draws := 1 |}.

(** With the generator [stuck]: both entries carry the identity "k3x9",
    and both outcomes were merged into both. *)
Definition twice_merged_item : FileItem :=
  {| id := "k3x9"; file := report_pdf; previewUrl := "blob:";
     mimeType := "application/pdf"; loading := false;
     result := healthy;
     error := Some "Service temporarily unavailable. Retrying might help." |}.

Definition both_merged : State :=
  {| items := [ twice_merged_item;
                {| id := "k3x9"; file := leaf_png; previewUrl := "blob:k";
                   mimeType := "image/png"; loading := false;
                   result := healthy;
                   error := Some "Service temporarily unavailable. Retrying might help." |} ];
     selectedId := Some "k3x9"; alerts := []; tasks := []; draws := 2 |}.

(** The entry of [report_pdf] while it is loading, and the state in which
    it is left when its analysis ends without a merge. *)
Definition stranded_item : FileItem :=
  {| id := ""; file := report_pdf; previewUrl := "blob:";
     mimeType := "application/pdf"; loading := true;
     result := Json.Null; error := None |}.

Definition stranded : State :=
  {| items := [stranded_item]; selectedId := Some ""; alerts := [];
     tasks := []; draws := 1 |}.

Definition app (ids : nat -> string) (parse : string -> Parse) :=
  run ids blob_url parse always_readable decode_photo context_available
    encode_stub.

End Samples.

(** * Properties *)

(** ** Strings *)

Lemma prefix_refl_app (p q : string) : String.prefix p (p ++ q) = true.
Proof.
  induction p as [|c p IH]; simpl.
  - destruct q; reflexivity.
  - destruct (Ascii.ascii_dec c c) as [_|ne]; [exact IH | contradiction].
Qed.

Lemma includes_here (n s : string) :
  String.prefix n s = true -> includes n s = true.
Proof. intros H. destruct s; simpl in *; rewrite H; reflexivity. Qed.

Lemma includes_later (n : string) (c : ascii) (s : string) :
  includes n s = true -> includes n (String c s) = true.
Proof.
  intros H. cbn [includes]. destruct (String.prefix n (String c s)); auto.
Qed.

Lemma includes_infix (p n q : string) : includes n (p ++ n ++ q) = true.
Proof.
  induction p as [|c p IH]; simpl append.
  - apply includes_here, prefix_refl_app.
  - apply includes_later, IH.
Qed.

Lemma includes_nonempty (n s : string) :
  truthy n = true -> includes n s = true -> truthy s = true.
Proof. destruct s; [destruct n; simpl; congruence | reflexivity]. Qed.

Lemma split_no_sep (sep : ascii) (s : string) :
  mentions sep s = false -> split sep s = [s].
Proof.
  induction s as [|c s IH]; simpl; [reflexivity|].
  intros H. apply orb_false_iff in H as [Hc Hs].
  rewrite Hc, (IH Hs). reflexivity.
Qed.

Lemma split_once (sep : ascii) (p q : string) :
  mentions sep p = false -> mentions sep q = false ->
  split sep (p ++ String sep q) = [p; q].
Proof.
  intros Hp Hq. induction p as [|c p IH]; simpl.
  - rewrite Ascii.eqb_refl, (split_no_sep _ _ Hq). reflexivity.
  - simpl in Hp. apply orb_false_iff in Hp as [Hc Hp].
    rewrite Hc, (IH Hp). reflexivity.
Qed.

Lemma mentions_app (c : ascii) (p q : string) :
  mentions c (p ++ q) = mentions c p || mentions c q.
Proof.
  induction p as [|d p IH]; simpl; [reflexivity|].
  rewrite IH, orb_assoc. reflexivity.
Qed.

(** ** JSON values *)

Example truthy_values :
  map Json.truthy
    [Json.Null; Json.Boolean false; Json.Num (Number.of_Z 0); Json.Str "";
     Json.Boolean true; Json.Num (Number.of_Z 1); Json.Str "0";
     Json.Arr []; Json.Obj []]
  = [false; false; false; false; true; true; true; true; true].
Proof. reflexivity. Qed.

Example get_overallStatus :
  Json.get "overallStatus" Samples.healthy = Some (Json.Str "Healthy")
  /\ Json.get "overallStatus"
       (Json.Obj [("overallStatus", Json.Str "Diseased");
                  ("overallStatus", Json.Str "Healthy")])
     = Some (Json.Str "Healthy")
  /\ Json.get "overallStatus" (Json.Str "Healthy") = None
  /\ Json.get "overallStatus" (Json.Arr [Samples.healthy]) = None
  /\ Json.get "overallStatus" Json.Null = None.
Proof. repeat split. Qed.

(** ** Base64 never emits a comma *)

Lemma digit_not_comma (n : N) : Ascii.eqb (Base64.digit n) ","%char = false.
Proof.
  unfold Base64.digit. generalize (N.to_nat n). intros k.
  do 64 (destruct k as [|k]; [reflexivity|]).
  reflexivity.
Qed.

Lemma encode_no_comma_upto (n : nat) :
  forall bs, (List.length bs <= n)%nat -> mentions ","%char (Base64.encode bs) = false.
Proof.
  induction n as [n IH] using lt_wf_ind. intros bs Hlen.
  destruct bs as [|a [|b [|c rest]]]; cbn [Base64.encode mentions];
    rewrite ?digit_not_comma; try reflexivity.
  cbn [orb]. apply (IH (List.length rest)); simpl in *; lia.
Qed.

(** The test vectors of RFC 4648, section 10. *)
Example encode_rfc4648 :
  Base64.encode [] = ""
  /\ Base64.encode [x66]%byte = "Zg=="
  /\ Base64.encode [x66; x6f]%byte = "Zm8="
  /\ Base64.encode [x66; x6f; x6f]%byte = "Zm9v"
  /\ Base64.encode [x66; x6f; x6f; x62]%byte = "Zm9vYg=="
  /\ Base64.encode [x66; x6f; x6f; x62; x61]%byte = "Zm9vYmE="
  /\ Base64.encode [x66; x6f; x6f; x62; x61; x72]%byte = "Zm9vYmFy".
Proof. repeat split. Qed.

Lemma encode_no_comma (bs : list byte) :
  mentions ","%char (Base64.encode bs) = false.
Proof. exact (encode_no_comma_upto (List.length bs) bs (le_n _)). Qed.

(** ** JavaScript numbers: what binary64 rounding does to the resize

    The lemmas below read the rounding of [binary_round_aux] at precision
    53 off its definition: the mantissa is shifted down to 53 digits, moved
    up by at most one unit, and renormalised.  This bounds the error of one
    division and one multiplication, which is all the resize computes. *)

Section Binary64.

Local Open Scope Z_scope.

Lemma digits2_pos_bounds (p : positive) :
  2 ^ (Zpos (digits2_pos p) - 1) <= Zpos p < 2 ^ Zpos (digits2_pos p).
Proof.
  induction p as [p IH|p IH|]; cbn [digits2_pos].
  - rewrite Pos2Z.inj_succ. replace (Z.succ (Zpos (digits2_pos p)) - 1) with (Z.succ (Zpos (digits2_pos p) - 1)) by lia.
    rewrite !Z.pow_succ_r by lia. lia.
  - rewrite Pos2Z.inj_succ. replace (Z.succ (Zpos (digits2_pos p)) - 1) with (Z.succ (Zpos (digits2_pos p) - 1)) by lia.
    rewrite !Z.pow_succ_r by lia. lia.
  - cbn. lia.
Qed.

Lemma shr_m_shr_1 (r : shr_record) :
  0 <= shr_m r -> shr_m (shr_1 r) = shr_m r / 2.
Proof.
  destruct r as [m b c]. cbn [shr_m]. intros H.
  destruct m as [|[p|p|]|p]; cbn [shr_1 shr_m]; try lia.
  - reflexivity.
  - apply Z.div_unique with 1; lia.
  - apply Z.div_unique with 0; lia.
  - reflexivity.
Qed.

Lemma shr_m_iter (p : positive) :
  forall r, 0 <= shr_m r ->
            shr_m (iter_pos shr_1 p r) = shr_m r / 2 ^ Zpos p
            /\ 0 <= shr_m (iter_pos shr_1 p r).
Proof.
  assert (Hpow : forall q, 0 < 2 ^ Zpos q) by (intros; apply Z.pow_pos_nonneg; lia).
  induction p as [p IH|p IH|]; intros r Hr; cbn [iter_pos].
  - assert (H1 : 0 <= shr_m (shr_1 r))
      by (rewrite shr_m_shr_1 by exact Hr; apply Z.div_pos; lia).
    destruct (IH _ H1) as [E2 H2]. destruct (IH _ H2) as [E3 H3].
    split; [|exact H3].
    rewrite E3, E2, shr_m_shr_1 by exact Hr.
    pose proof (Hpow p).
    rewrite !Z.div_div by lia.
    f_equal. replace (Z.pos p~1) with (1 + Z.pos p + Z.pos p) by lia.
    rewrite !Z.pow_add_r by lia. change (2 ^ 1) with 2. lia.
  - destruct (IH _ Hr) as [E2 H2]. destruct (IH _ H2) as [E3 H3].
    split; [|exact H3].
    rewrite E3, E2. pose proof (Hpow p).
    rewrite !Z.div_div by lia.
    f_equal. replace (Z.pos p~0) with (Z.pos p + Z.pos p) by lia.
    rewrite !Z.pow_add_r by lia. reflexivity.
  - rewrite shr_m_shr_1 by exact Hr. split; [reflexivity|].
    apply Z.div_pos; lia.
Qed.


Lemma digits2_pos_unique (p : positive) (k : Z) :
  2 ^ (k - 1) <= Zpos p < 2 ^ k -> Zpos (digits2_pos p) = k.
Proof.
  intros [Hlo Hhi]. pose proof (digits2_pos_bounds p) as [Dlo Dhi].
  set (d := Zpos (digits2_pos p)) in *.
  assert (0 < d) by (unfold d; lia).
  destruct (Z.lt_trichotomy d k) as [Hlt|[->|Hgt]]; [| reflexivity |].
  - exfalso. assert (2 ^ d <= 2 ^ (k - 1)) by (apply Z.pow_le_mono_r; lia). lia.
  - exfalso. assert (0 < k).
    { destruct (Z_lt_le_dec 0 k); [assumption|].
      rewrite (Z.pow_neg_r 2 (k - 1)) in Hlo by lia.
      destruct (Z.eq_dec k 0) as [->|]; [cbn in Hhi; lia|].
      rewrite (Z.pow_neg_r 2 k) in Hhi by lia. lia. }
    assert (2 ^ k <= 2 ^ (d - 1)) by (apply Z.pow_le_mono_r; lia). lia.
Qed.

Lemma round_nearest_even_cases (m : Z) (l : location) :
  (round_nearest_even m l = m \/ round_nearest_even m l = m + 1)
  /\ (l = loc_Exact -> round_nearest_even m l = m).
Proof.
  split; [|intros ->; reflexivity].
  destruct l as [|[| |]]; cbn; auto. destruct (Z.even m); auto.
Qed.

Lemma shr_spec (m : Z) (l : location) (e n : Z) :
  0 <= m -> 0 <= n ->
  exists r, shr (shr_record_of_loc m l) e n = (r, e + n)
            /\ shr_m r = m / 2 ^ n
            /\ (n = 0 -> loc_of_shr_record r = l).
Proof.
  intros Hm Hn.
  assert (Hrec : shr_m (shr_record_of_loc m l) = m)
    by (destruct l as [|[| |]]; reflexivity).
  destruct n as [|p|p]; [| |lia].
  - eexists. cbn [shr]. rewrite Z.add_0_r. split; [reflexivity|].
    rewrite Hrec, Z.div_1_r. split; [reflexivity|].
    intros _. destruct l as [|[| |]]; reflexivity.
  - eexists. cbn [shr]. split; [reflexivity|].
    destruct (shr_m_iter p (shr_record_of_loc m l)) as [E _]; [lia|].
    rewrite E, Hrec. split; [reflexivity | discriminate].
Qed.

Lemma fexp_normal (e : Z) : -1021 <= e -> fexp 53 1024 e = e - 53.
Proof. intros. unfold fexp, emin. lia. Qed.

Lemma binary_round_aux_spec (s : bool) (p : positive) (ex : Z) (lx : location) :
  let d := Zpos (digits2_pos p) in
  53 <= d -> -1021 <= d + ex -> d + ex <= 1023 ->
  exists m N,
    binary_round_aux 53 1024 s (Zpos p) ex lx = S754_finite s m (ex + N)
    /\ Zpos (digits2_pos m) = 53
    /\ d - 53 <= N <= d - 52
    /\ (Zpos m * 2 ^ N = Zpos p / 2 ^ (d - 53) * 2 ^ (d - 53)
        \/ Zpos m * 2 ^ N = (Zpos p / 2 ^ (d - 53) + 1) * 2 ^ (d - 53))
    /\ (d = 53 -> lx = loc_Exact -> N = 0 /\ m = p).
Proof.
  intros d Hd Hlo Hhi.
  pose proof (digits2_pos_bounds p) as [Plo Phi]. fold d in Plo, Phi.
  set (n1 := d - 53) in *.
  assert (Hpow : 0 < 2 ^ n1) by (apply Z.pow_pos_nonneg; lia).
  unfold binary_round_aux, shr_fexp. cbn [Zdigits2]. fold d.
  rewrite (fexp_normal (d + ex)) by lia.
  replace (d + ex - 53 - ex) with n1 by (unfold n1; lia).
  destruct (shr_spec (Zpos p) lx ex n1) as (r1 & -> & Hm1 & Hl1); [lia | lia |].
  set (m1 := Zpos p / 2 ^ n1) in *.
  assert (Hm1lo : 2 ^ 52 <= m1).
  { apply Z.div_le_lower_bound; [lia|].
    replace (d - 1) with (n1 + 52) in Plo by (unfold n1; lia).
    rewrite Z.pow_add_r in Plo by lia. lia. }
  assert (Hm1hi : m1 < 2 ^ 53).
  { apply Z.div_lt_upper_bound; [lia|].
    replace d with (n1 + 53) in Phi by (unfold n1; lia).
    rewrite Z.pow_add_r in Phi by lia. lia. }
  destruct (round_nearest_even_cases (shr_m r1) (loc_of_shr_record r1)) as [Hr Hex].
  set (m2 := round_nearest_even (shr_m r1) (loc_of_shr_record r1)) in *.
  rewrite Hm1 in Hr, Hex.
  assert (Hm2 : 2 ^ 52 <= m2 <= 2 ^ 53) by lia.
  destruct (Z_lt_le_dec m2 (2 ^ 53)) as [Hlt|Hge].
  - (* the rounded mantissa still has 53 digits *)
    destruct m2 as [|q|q] eqn:Eq; [lia | | lia].
    assert (Hq : Zpos (digits2_pos q) = 53) by (apply digits2_pos_unique; lia).
    cbn [Zdigits2]. rewrite Hq.
    rewrite (fexp_normal (53 + (ex + n1))) by (unfold n1; lia).
    replace (53 + (ex + n1) - 53 - (ex + n1)) with 0 by lia.
    cbn [shr shr_record_of_loc shr_m].
    replace (ex + n1 <=? 1024 - 53) with true
      by (symmetry; apply Z.leb_le; unfold n1; lia).
    exists q, n1. split; [reflexivity|]. split; [exact Hq|].
    split; [unfold n1; lia|]. split.
    + destruct Hr as [Hr|Hr]; [left | right]; rewrite <- Hr; reflexivity.
    + intros Hd53 Hlx. split; [unfold n1; lia|].
      assert (Hn0 : n1 = 0) by (unfold n1; lia).
      specialize (Hl1 Hn0). rewrite Hl1 in Hex. specialize (Hex Hlx).
      unfold m1 in Hex. rewrite Hn0, Z.div_1_r in Hex. congruence.
  - (* the rounding carried into a 54th digit *)
    assert (E2 : m2 = 2 ^ 53) by lia.
    destruct Hr as [Hr|Hr]; [lia|].
    rewrite E2. change (2 ^ 53) with (Zpos (9007199254740992)).
    cbn [Zdigits2]. change (Zpos (digits2_pos 9007199254740992)) with 54.
    rewrite (fexp_normal (54 + (ex + n1))) by (unfold n1; lia).
    replace (54 + (ex + n1) - 53 - (ex + n1)) with 1 by lia.
    cbn [shr shr_record_of_loc iter_pos shr_1 shr_m].
    replace (ex + n1 + 1 <=? 1024 - 53) with true
      by (symmetry; apply Z.leb_le; unfold n1; lia).
    exists 4503599627370496%positive, (n1 + 1).
    split; [f_equal; lia|]. split; [reflexivity|].
    split; [unfold n1; lia|]. split.
    + right. rewrite <- Hr, E2, Z.pow_add_r by lia.
      change (2 ^ 1) with 2. change (2 ^ 53) with (4503599627370496 * 2). lia.
    + intros Hd53 Hlx. exfalso.
      assert (Hn0 : n1 = 0) by (unfold n1; lia).
      specialize (Hl1 Hn0). rewrite Hl1 in Hex. specialize (Hex Hlx). lia.
Qed.



Lemma iter_xO_spec (p k : positive) :
  Zpos (Pos.iter xO p k) = Zpos p * 2 ^ Zpos k.
Proof.
  induction k as [|k IH] using Pos.peano_ind.
  - cbn. lia.
  - rewrite Pos.iter_succ, Pos2Z.inj_xO, IH, Pos2Z.inj_succ, Z.pow_succ_r by lia. lia.
Qed.

Lemma of_Z_pos (z : Z) :
  0 < z < 2 ^ 53 ->
  exists m k,
    Number.of_Z z = S754_finite false m (- k)
    /\ 0 <= k <= 52
    /\ Zpos m = z * 2 ^ k
    /\ Zpos (digits2_pos m) = 53.
Proof.
  intros [Hpos Hlt]. destruct z as [|p|p]; try lia.
  pose proof (digits2_pos_bounds p) as [Plo Phi].
  set (d := Zpos (digits2_pos p)) in *.
  assert (Hd1 : 1 <= d) by (unfold d; lia).
  assert (Hd : d <= 53).
  { destruct (Z_le_gt_dec d 53); [assumption|].
    assert (2 ^ 53 <= 2 ^ (d - 1)) by (apply Z.pow_le_mono_r; lia). lia. }
  unfold Number.of_Z, binary_normalize, binary_round, Number.prec, Number.emax.
  fold d. rewrite (fexp_normal (d + 0)) by lia.
  assert (Hal : exists mz, shl_align p 0 (d + 0 - 53) = (mz, d - 53)
                           /\ Zpos mz = Zpos p * 2 ^ (53 - d)).
  { unfold shl_align. replace (d + 0 - 53 - 0) with (d - 53) by lia.
    destruct (d - 53) as [|q|q] eqn:E; try lia.
    - exists p. replace (53 - d) with 0 by lia. split; [f_equal; lia | lia].
    - exists (Pos.iter xO p q). split; [f_equal; lia|].
      rewrite iter_xO_spec. f_equal. f_equal. lia. }
  destruct Hal as (mz & -> & Hmz).
  assert (Hdz : Zpos (digits2_pos mz) = 53).
  { apply digits2_pos_unique. rewrite Hmz.
    assert (0 < 2 ^ (53 - d)) by (apply Z.pow_pos_nonneg; lia).
    split.
    - replace (53 - 1) with ((d - 1) + (53 - d)) by lia.
      rewrite Z.pow_add_r by lia. apply Z.mul_le_mono_nonneg_r; lia.
    - replace 53 with (d + (53 - d)) at 2 by lia.
      rewrite Z.pow_add_r by lia. apply Z.mul_lt_mono_pos_r; lia. }
  destruct (binary_round_aux_spec false mz (d - 53) loc_Exact)
    as (m & N & E & Hm & _ & _ & Hexact); cbv zeta; rewrite ?Hdz; try lia.
  destruct (Hexact Hdz eq_refl) as [-> ->].
  exists mz, (53 - d). rewrite E. split; [f_equal; lia|].
  split; [lia|]. split; [exact Hmz | exact Hdz].
Qed.

Lemma mul_spec (ma mq : positive) (ea eq : Z) :
  Zpos (digits2_pos ma) = 53 -> Zpos (digits2_pos mq) = 53 ->
  -1126 <= ea + eq <= 900 ->
  exists m N,
    Number.mul (S754_finite false ma ea) (S754_finite false mq eq)
      = S754_finite false m (ea + eq + N)
    /\ 52 <= N <= 54
    /\ Z.abs (Zpos m * 2 ^ N - Zpos ma * Zpos mq) <= 2 ^ 53.
Proof.
  intros Ha Hq He.
  pose proof (digits2_pos_bounds ma) as [Alo Ahi]. rewrite Ha in Alo, Ahi.
  pose proof (digits2_pos_bounds mq) as [Qlo Qhi]. rewrite Hq in Qlo, Qhi.
  pose proof (digits2_pos_bounds (ma * mq)) as [Plo Phi].
  set (d := Zpos (digits2_pos (ma * mq))) in *.
  rewrite Pos2Z.inj_mul in Plo, Phi.
  assert (Hprod : 2 ^ 104 <= Zpos ma * Zpos mq < 2 ^ 106).
  { change (2 ^ 104) with (2 ^ (53 - 1) * 2 ^ (53 - 1)).
    change (2 ^ 106) with (2 ^ 53 * 2 ^ 53). split.
    - apply Z.mul_le_mono_nonneg; lia.
    - apply Z.mul_lt_mono_nonneg; lia. }
  assert (Hd : 105 <= d <= 106).
  { split.
    - destruct (Z_lt_le_dec d 105); [|assumption].
      assert (2 ^ d <= 2 ^ 104) by (apply Z.pow_le_mono_r; lia). lia.
    - destruct (Z_le_gt_dec d 106); [assumption|].
      assert (2 ^ 106 <= 2 ^ (d - 1)) by (apply Z.pow_le_mono_r; lia). lia. }
  unfold Number.mul, SFmul, Number.prec, Number.emax. cbn [xorb].
  destruct (binary_round_aux_spec false (ma * mq) (ea + eq) loc_Exact)
    as (m & N & E & _ & HN & HV & _); cbv zeta; fold d; try lia.
  fold d in HN, HV. rewrite Pos2Z.inj_mul in HV.
  exists m, N. split; [exact E|]. split; [lia|].
  set (n1 := d - 53) in *.
  assert (Hpow : 0 < 2 ^ n1) by (apply Z.pow_pos_nonneg; unfold n1; lia).
  assert (Hn1 : 2 ^ n1 <= 2 ^ 53) by (apply Z.pow_le_mono_r; unfold n1; lia).
  pose proof (Z.div_mod (Zpos ma * Zpos mq) (2 ^ n1) ltac:(lia)) as Hdm.
  pose proof (Z.mod_pos_bound (Zpos ma * Zpos mq) (2 ^ n1) Hpow) as Hmod.
  destruct HV as [-> | ->]; lia.
Qed.

Lemma div_1024_spec (mb : positive) (kb : Z) :
  Zpos (digits2_pos mb) = 53 -> 0 <= kb <= 52 ->
  exists mq N,
    Number.div (Number.of_Z 1024) (S754_finite false mb (- kb))
      = S754_finite false mq (kb - 95 + N)
    /\ Zpos (digits2_pos mq) = 53
    /\ 0 <= N <= 2
    /\ Z.abs (Zpos mq * 2 ^ N * Zpos mb - 2 ^ 105) <= 2 * Zpos mb.
Proof.
  intros Hb Hk.
  pose proof (digits2_pos_bounds mb) as [Blo Bhi]. rewrite Hb in Blo, Bhi.
  change (Number.of_Z 1024) with (S754_finite false 4503599627370496 (-42)).
  unfold Number.div, SFdiv, SFdiv_core_binary, Number.prec, Number.emax.
  cbn [Zdigits2 xorb]. rewrite Hb.
  change (Zpos (digits2_pos 4503599627370496)) with 53.
  replace (53 + -42 - (53 + - kb)) with (kb - 42) by lia.
  rewrite (fexp_normal (kb - 42)) by lia.
  replace (Z.min (kb - 42 - 53) (-42 - - kb)) with (kb - 95) by lia.
  replace (-42 - - kb - (kb - 95)) with 53 by lia.
  change (Z.shiftl (Zpos 4503599627370496) 53) with (2 ^ 105).
  pose proof (Z.div_eucl_eq (2 ^ 105) (Zpos mb) ltac:(lia)) as Hqr.
  pose proof (Z.mod_pos_bound (2 ^ 105) (Zpos mb) ltac:(lia)) as Hr.
  unfold Z.modulo in Hr.
  destruct (Z.div_eucl (2 ^ 105) (Zpos mb)) as [q r].
  assert (Hq : 2 ^ 52 <= q <= 2 ^ 53).
  { change (2 ^ 105) with (2 ^ 52 * 2 ^ 53) in Hqr. split; nia. }
  destruct q as [|qp|qp]; try lia.
  pose proof (digits2_pos_bounds qp) as [Qlo Qhi].
  set (d := Zpos (digits2_pos qp)) in *.
  assert (Hd : 53 <= d <= 54).
  { split.
    - destruct (Z_lt_le_dec d 53); [|assumption].
      assert (2 ^ d <= 2 ^ 52) by (apply Z.pow_le_mono_r; lia). lia.
    - destruct (Z_le_gt_dec d 54); [assumption|].
      assert (2 ^ 54 <= 2 ^ (d - 1)) by (apply Z.pow_le_mono_r; lia). lia. }
  destruct (binary_round_aux_spec false qp (kb - 95) (new_location (Zpos mb) r))
    as (m & N & E & Hm & HN & HV & _); cbv zeta; fold d; try lia.
  fold d in HN, HV.
  exists m, N. split; [exact E|]. split; [exact Hm|]. split; [lia|].
  set (n1 := d - 53) in *.
  assert (Hpow : 0 < 2 ^ n1) by (apply Z.pow_pos_nonneg; unfold n1; lia).
  assert (Hn1 : 2 ^ n1 <= 2).
  { change 2 with (2 ^ 1) at 2. apply Z.pow_le_mono_r; unfold n1; lia. }
  pose proof (Z.div_mod (Zpos qp) (2 ^ n1) ltac:(lia)) as Hdm.
  pose proof (Z.mod_pos_bound (Zpos qp) (2 ^ n1) Hpow) as Hmod.
  destruct HV as [-> | ->]; nia.
Qed.

Lemma error_budget (V ma mb mq Pq : Z) :
  Z.abs (V - ma * mq) <= 2 ^ 53 ->
  Z.abs (mq * Pq * mb - 2 ^ 105) <= 2 * mb ->
  0 < ma < 2 ^ 53 -> 0 < mb < 2 ^ 53 -> 1 <= Pq <= 4 ->
  Z.abs (V * mb * Pq - ma * 2 ^ 105) < 2 ^ 109.
Proof.
  intros Hu Ht Ha Hb Hp.
  set (u := V - ma * mq) in *. set (t := mq * Pq * mb - 2 ^ 105) in *.
  replace (V * mb * Pq - ma * 2 ^ 105) with (u * (mb * Pq) + ma * t)
    by (unfold u, t; ring).
  assert (H1 : Z.abs (u * (mb * Pq)) <= 2 ^ 53 * (2 ^ 53 * 4)).
  { rewrite Z.abs_mul. apply Z.mul_le_mono_nonneg; try lia.
    rewrite Z.abs_mul. rewrite (Z.abs_eq mb), (Z.abs_eq Pq) by lia.
    apply Z.mul_le_mono_nonneg; lia. }
  assert (H2 : Z.abs (ma * t) <= 2 ^ 53 * (2 * 2 ^ 53)).
  { rewrite Z.abs_mul, (Z.abs_eq ma) by lia.
    apply Z.mul_le_mono_nonneg; lia. }
  change (2 ^ 53 * (2 ^ 53 * 4)) with (2 ^ 108) in H1.
  change (2 ^ 53 * (2 * 2 ^ 53)) with (2 ^ 107) in H2.
  change (2 ^ 109) with (2 ^ 108 + 2 ^ 107 + 2 ^ 107).
  pose proof (Z.abs_triangle (u * (mb * Pq)) (ma * t)). lia.
Qed.

Lemma floor_within_one (V W b c : Z) :
  0 < W -> 0 < b ->
  Z.abs (V * b - c * W) < W ->
  (V / W) * b <= c <= (V / W + 1) * b.
Proof.
  intros HW Hb Habs.
  pose proof (Z.div_mod V W ltac:(lia)) as Hdm.
  pose proof (Z.mod_pos_bound V W HW) as Hmod.
  set (o := V / W) in *. set (r := V mod W) in *.
  assert (H1 : (o * b - c) * W < W * 1).
  { assert (o * b * W <= V * b) by nia. lia. }
  assert (H2 : (c - (o + 1) * b) * W < W * 1).
  { assert (V * b <= (o + 1) * b * W - b) by nia. lia. }
  split.
  - assert (o * b - c < 1); [|lia].
    apply (Z.mul_lt_mono_pos_r W); [exact HW | lia].
  - assert (c - (o + 1) * b < 1); [|lia].
    apply (Z.mul_lt_mono_pos_r W); [exact HW | lia].
Qed.

Lemma of_Z_image_dimension (z : Z) :
  0 < z < 2 ^ 32 ->
  exists m k,
    Number.of_Z z = S754_finite false m (- k)
    /\ 21 <= k <= 52
    /\ Zpos m = z * 2 ^ k
    /\ Zpos (digits2_pos m) = 53
    /\ 2 ^ 52 <= Zpos m < 2 ^ 53.
Proof.
  intros Hz.
  destruct (of_Z_pos z) as (m & k & E & Hk & Hm & Hd);
    [change (2 ^ 32) with 4294967296 in Hz; change (2 ^ 53) with 9007199254740992; lia|].
  pose proof (digits2_pos_bounds m) as Hb. rewrite Hd in Hb.
  change (2 ^ (53 - 1)) with (2 ^ 52) in Hb.
  exists m, k. repeat split; try tauto; try lia.
  destruct (Z_le_gt_dec 21 k); [assumption|exfalso].
  assert (2 ^ k <= 2 ^ 20) by (apply Z.pow_le_mono_r; lia).
  assert (0 < 2 ^ k) by (apply Z.pow_pos_nonneg; lia).
  assert (z * 2 ^ k <= z * 2 ^ 20) by (apply Z.mul_le_mono_nonneg_l; lia).
  change (2 ^ 20) with 1048576 in *. change (2 ^ 32) with 4294967296 in *.
  change (2 ^ 52) with 4503599627370496 in *. lia.
Qed.

Lemma scale_spec (a b : Z) :
  0 <= a <= b -> 1024 < b < 2 ^ 32 ->
  let out := Number.to_unsigned_long
               (Number.mul (Number.of_Z a)
                  (Number.div (Number.of_Z 1024) (Number.of_Z b))) in
  out * b <= 1024 * a <= (out + 1) * b /\ 0 <= out <= 1024.
Proof.
  intros Ha Hb out.
  destruct (of_Z_image_dimension b) as (mb & kb & Eb & Hkb & Hmb & Hdb & Hbb); [lia|].
  assert (Hkb42 : kb <= 42).
  { destruct (Z_le_gt_dec kb 42); [assumption|exfalso].
    assert (2 ^ 43 <= 2 ^ kb) by (apply Z.pow_le_mono_r; lia).
    assert (1024 * 2 ^ 43 <= b * 2 ^ kb) by (apply Z.mul_le_mono_nonneg; lia).
    change (1024 * 2 ^ 43) with (2 ^ 53) in *. lia. }
  destruct (div_1024_spec mb kb Hdb ltac:(lia)) as (mq & Nq & Eq & Hdq & HNq & Hq).
  destruct (Z.eq_dec a 0) as [->|Hne].
  - subst out. rewrite Eb, Eq.
    change (Number.to_unsigned_long _) with 0. lia.
  - destruct (of_Z_image_dimension a) as (ma & ka & Ea & Hka & Hma & Hda & Hab); [lia|].
    destruct (mul_spec ma mq (- ka) (kb - 95 + Nq) Hda Hdq ltac:(lia))
      as (m & N & Em & HN & Hm).
    subst out. rewrite Ea, Eb, Eq, Em. cbn [Number.to_unsigned_long].
    set (T := ka + 95 - kb - Nq).
    replace (- ka + (kb - 95 + Nq) + N) with (- (T - N)) by (unfold T; lia).
    rewrite Z.shiftl_opp_r, Z.shiftr_div_pow2 by (unfold T; lia).
    assert (HpN : 0 < 2 ^ N) by (apply Z.pow_pos_nonneg; lia).
    assert (HpTN : 0 < 2 ^ (T - N)) by (apply Z.pow_pos_nonneg; unfold T; lia).
    assert (HW : 2 ^ T = 2 ^ (T - N) * 2 ^ N).
    { rewrite <- Z.pow_add_r by (unfold T; lia). f_equal. lia. }
    rewrite <- (Z.div_mul_cancel_r (Zpos m) (2 ^ (T - N)) (2 ^ N)) by lia.
    rewrite <- HW.
    set (V := Zpos m * 2 ^ N) in *. set (W := 2 ^ T) in *.
    assert (HWpos : 0 < W) by (unfold W; apply Z.pow_pos_nonneg; unfold T; lia).
    assert (HPq : 1 <= 2 ^ Nq <= 4).
    { split.
      - change 1 with (2 ^ 0). apply Z.pow_le_mono_r; lia.
      - change 4 with (2 ^ 2). apply Z.pow_le_mono_r; lia. }
    pose proof (error_budget V (Zpos ma) (Zpos mb) (Zpos mq) (2 ^ Nq)
                  Hm Hq ltac:(lia) ltac:(lia) HPq) as Herr.
    set (S := 2 ^ kb * 2 ^ Nq).
    assert (HS : 0 < S) by (unfold S; apply Z.mul_pos_pos; apply Z.pow_pos_nonneg; lia).
    assert (HWS : W * S = 2 ^ (ka + 95)).
    { unfold W, S. rewrite <- !Z.pow_add_r by (unfold T; lia).
      f_equal. unfold T. lia. }
    assert (Hbig : 2 ^ 109 <= W * S).
    { rewrite HWS. apply Z.pow_le_mono_r; lia. }
    assert (Hfac : V * Zpos mb * 2 ^ Nq - Zpos ma * 2 ^ 105
                   = (V * b - 1024 * a * W) * S).
    { rewrite Hmb, Hma.
      replace ((V * b - 1024 * a * W) * S) with (V * b * S - 1024 * a * (W * S)) by ring.
      rewrite HWS. rewrite (Z.pow_add_r 2 ka 95) by lia.
      unfold S.
      assert (E105 : 2 ^ 105 = 1024 * 2 ^ 95) by reflexivity.
      rewrite E105.
      generalize (2 ^ 95) (2 ^ ka) (2 ^ kb) (2 ^ Nq). intros. ring. }
    rewrite Hfac, Z.abs_mul, (Z.abs_eq S) in Herr by (clear - HS; lia).
    assert (Hclose : Z.abs (V * b - 1024 * a * W) < W).
    { apply (Z.mul_lt_mono_pos_r S); [exact HS|]. clear - Herr Hbig. lia. }
    pose proof (floor_within_one V W b (1024 * a) HWpos ltac:(clear - Hb; lia) Hclose) as Hfl.
    assert (Ho0 : 0 <= V / W) by (apply Z.div_pos; [unfold V; clear; lia | exact HWpos]).
    assert (Ho : V / W <= 1024).
    { destruct (Z_le_gt_dec (V / W) 1024) as [Hle|Hgt]; [exact Hle|exfalso].
      assert (1025 * b <= V / W * b)
        by (apply Z.mul_le_mono_nonneg_r; clear - Hgt Hb; lia).
      clear - H Hfl Ha Hb. lia. }
    rewrite Z.mod_small by (change (2 ^ 32) with 4294967296; clear - Ho Ho0; lia).
    split; [exact Hfl | clear - Ho Ho0; lia].
Qed.

Lemma to_unsigned_long_of_Z (z : Z) :
  0 <= z < 2 ^ 32 -> Number.to_unsigned_long (Number.of_Z z) = z.
Proof.
  intros Hz. destruct (Z.eq_dec z 0) as [->|Hne]; [reflexivity|].
  destruct (of_Z_image_dimension z) as (m & k & E & Hk & Hm & _); [lia|].
  rewrite E. cbn [Number.to_unsigned_long].
  rewrite Z.shiftl_opp_r, Z.shiftr_div_pow2, Hm by lia.
  rewrite Z.div_mul by (apply Z.pow_nonzero; lia).
  apply Z.mod_small. exact Hz.
Qed.

Lemma gt_of_Z (a b : Z) :
  0 <= a < 2 ^ 32 -> 0 <= b < 2 ^ 32 ->
  Number.gt (Number.of_Z a) (Number.of_Z b) = (a >? b).
Proof.
  intros Ha Hb. unfold Number.gt, SFltb.
  destruct (Z.eq_dec a 0) as [->|Ha0]; destruct (Z.eq_dec b 0) as [->|Hb0].
  - reflexivity.
  - destruct (of_Z_image_dimension b) as (mb & kb & -> & _); [lia|].
    cbn. symmetry. rewrite Z.gtb_ltb. apply Z.ltb_ge. lia.
  - destruct (of_Z_image_dimension a) as (ma & ka & -> & _); [lia|].
    cbn. symmetry. rewrite Z.gtb_ltb. apply Z.ltb_lt. lia.
  - destruct (of_Z_image_dimension a) as (ma & ka & -> & Hka & Hma & _ & Hab); [lia|].
    destruct (of_Z_image_dimension b) as (mb & kb & -> & Hkb & Hmb & _ & Hbb); [lia|].
    cbn [SFcompare].
    assert (Hpa : 0 < 2 ^ ka) by (apply Z.pow_pos_nonneg; lia).
    assert (Hpb : 0 < 2 ^ kb) by (apply Z.pow_pos_nonneg; lia).
    destruct (Z.compare_spec (- kb) (- ka)) as [E|L|G].
    + assert (kb = ka) by lia. subst kb.
      change (Pos.compare_cont Eq mb ma) with (Zpos mb ?= Zpos ma).
      rewrite Hma, Hmb.
      destruct (Z.compare_spec (b * 2 ^ ka) (a * 2 ^ ka)) as [E'|L'|G'];
        symmetry; rewrite Z.gtb_ltb.
      * apply Z.ltb_ge. apply Z.mul_cancel_r in E'; lia.
      * apply Z.ltb_lt. apply Z.mul_lt_mono_pos_r in L'; lia.
      * apply Z.ltb_ge. apply Z.mul_lt_mono_pos_r in G'; lia.
    + (* b carries more leading zeros than a *)
      symmetry. rewrite Z.gtb_ltb. apply Z.ltb_lt.
      assert (2 * 2 ^ ka <= 2 ^ kb).
      { rewrite <- Z.pow_succ_r by lia. apply Z.pow_le_mono_r; lia. }
      apply (Z.mul_lt_mono_pos_r (2 * 2 ^ ka)); [lia|].
      assert (b * (2 * 2 ^ ka) <= b * 2 ^ kb)
        by (apply Z.mul_le_mono_nonneg_l; lia).
      change (2 ^ 52) with 4503599627370496 in *.
      change (2 ^ 53) with 9007199254740992 in *. lia.
    + symmetry. rewrite Z.gtb_ltb. apply Z.ltb_ge.
      assert (2 * 2 ^ kb <= 2 ^ ka).
      { rewrite <- Z.pow_succ_r by lia. apply Z.pow_le_mono_r; lia. }
      assert (a * (2 * 2 ^ kb) <= a * 2 ^ ka)
        by (apply Z.mul_le_mono_nonneg_l; lia).
      apply (Z.mul_le_mono_pos_r _ _ (2 * 2 ^ kb)); [lia|].
      change (2 ^ 52) with 4503599627370496 in *.
      change (2 ^ 53) with 9007199254740992 in *. lia.
Qed.

End Binary64.

(** ** Intake: processFiles *)

Section Intake.

Variable random_id : nat -> string.
Variable createObjectURL : nat -> File -> string.

Lemma forEach_file_spec (files : list File) :
  forall n acc raised,
  exists fresh,
    forEach_file random_id createObjectURL files n acc raised =
      ((acc ++ fresh)%list,
       (raised ++ map notice (filter (fun f => negb (accepted f)) files))%list,
       (n + List.length fresh)%nat)
    /\ map file fresh = filter accepted files
    /\ Forall pristine fresh
    /\ map id fresh = map random_id (seq n (List.length fresh)).
Proof.
  induction files as [|f files IH]; intros n acc raised.
  - exists []. cbn. rewrite !app_nil_r, Nat.add_0_r.
    repeat split; constructor.
  - cbn [forEach_file filter].
    assert (Ha : accepted f =
                 negb (negb (startsWith "image/" (type f))
                       && negb (String.eqb (type f) "application/pdf")))
      by reflexivity.
    destruct (negb (startsWith "image/" (type f))
              && negb (String.eqb (type f) "application/pdf"));
      cbn [negb] in Ha; rewrite Ha; cbn [negb].
    + destruct (IH n acc (raised ++ [notice f])%list) as (fresh & E & Hf & Hp & Hid).
      exists fresh. rewrite E. cbn [map]. rewrite <- app_assoc. cbn [app].
      repeat split; assumption.
    + match goal with
      | |- context [forEach_file _ _ files (S n) (acc ++ [?it])%list raised] =>
          destruct (IH (S n) (acc ++ [it])%list raised) as (fresh & E & Hf & Hp & Hid);
          exists (it :: fresh)
      end.
      rewrite E. rewrite <- app_assoc. cbn [app List.length map file].
      rewrite Nat.add_succ_r. repeat split.
      * f_equal. exact Hf.
      * constructor; [repeat split | exact Hp].
      * cbn [map seq id]. f_equal. exact Hid.
Qed.

End Intake.

Lemma processFiles_unfold random_id createObjectURL (files : list File) (st : State) :
  exists fresh,
    processFiles random_id createObjectURL files st =
      {| items := (items st ++ fresh)%list;
         selectedId := match fresh with
                       | first :: _ => Some (id first)
                       | [] => selectedId st
                       end;
         alerts := (alerts st
                    ++ map notice (filter (fun f => negb (accepted f)) files))%list;
         tasks := (tasks st ++ map Compressing fresh)%list;
         draws := (draws st + List.length fresh)%nat |}
    /\ map file fresh = filter accepted files
    /\ Forall pristine fresh
    /\ map id fresh = map random_id (seq (draws st) (List.length fresh)).
Proof.
  destruct (forEach_file_spec random_id createObjectURL files (draws st) [] [])
    as (fresh & E & Hf & Hp & Hid).
  exists fresh. unfold processFiles. rewrite E. cbn [app].
  repeat split; assumption.
Qed.

(** C5: a batch with N files of an accepted type and M other files appends
    exactly N entries, one per accepted file and in order, each in the
    Loading state, and raises exactly M notices, one per rejected file,
    each containing that file's name. *)
Theorem processFiles_intake random_id createObjectURL (files : list File) (st : State) :
  let st' := processFiles random_id createObjectURL files st in
  let valid := filter accepted files in
  let invalid := filter (fun f => negb (accepted f)) files in
  exists newItems raised,
    items st' = (items st ++ newItems)%list
    /\ List.length newItems = List.length valid
    /\ map file newItems = valid
    /\ Forall pristine newItems
    /\ alerts st' = (alerts st ++ raised)%list
    /\ List.length raised = List.length invalid
    /\ raised = map notice invalid
    /\ Forall (fun f => includes (file_name f) (notice f) = true) invalid.
Proof.
  cbv zeta.
  destruct (processFiles_unfold random_id createObjectURL files st)
    as (fresh & E & Hf & Hp & _).
  exists fresh, (map notice (filter (fun f => negb (accepted f)) files)).
  rewrite E. cbn [items alerts].
  repeat split; try assumption.
  - rewrite <- Hf. symmetry. apply length_map.
  - apply length_map.
  - apply Forall_forall. intros f _. unfold notice. apply includes_infix.
Qed.

(** A text file between a document and an image: two entries, one alert. *)
Example processFiles_mixed_batch :
  let st := processFiles Samples.tally Samples.blob_url
              [Samples.report_pdf; Samples.notes_txt; Samples.leaf_png] initial in
  map id (items st) = [""; "k"]
  /\ map loading (items st) = [true; true]
  /\ alerts st = ["File notes.txt is not supported. Please use JPG, PNG, or PDF."]
  /\ selectedId st = Some "".
Proof. repeat split. Qed.



(** ** The store: removeItem and the merges *)

(** C4: removeItem deletes the entries carrying the identifier and keeps
    the others in order; when the identifier was the selected one the
    selection becomes the first remaining entry, or nothing when none
    remains; otherwise the selection is unchanged. *)
Theorem removeItem_spec (i : string) (st : State) :
  (forall item, In item (items (removeItem i st))
                <-> In item (items st) /\ id item <> i)
  /\ items (removeItem i st)
       = filter (fun item => negb (String.eqb (id item) i)) (items st)
  /\ (selectedId st = Some i ->
      selectedId (removeItem i st)
        = match items (removeItem i st) with
          | first :: _ => Some (id first)
          | [] => None
          end)
  /\ (selectedId st <> Some i ->
      selectedId (removeItem i st) = selectedId st).
Proof.
  repeat split.
  - cbn in H. apply filter_In in H. tauto.
  - cbn in H. apply filter_In in H as [_ H].
    apply negb_true_iff, String.eqb_neq in H. exact H.
  - intros [Hin Hne]. cbn. apply filter_In. split; [exact Hin|].
    apply negb_true_iff, String.eqb_neq. exact Hne.
  - intros Hsel. cbn. rewrite Hsel, String.eqb_refl. reflexivity.
  - intros Hsel. cbn. destruct (selectedId st) as [s|]; [|reflexivity].
    destruct (String.eqb_spec s i) as [->|_]; [congruence | reflexivity].
Qed.

Lemma removeItem_spec_witness :
  selectedId (removeItem "a" Samples.two_items) = Some "b"
  /\ selectedId (removeItem "b" Samples.two_items) = Some "a"
  /\ selectedId (removeItem "b" (removeItem "a" Samples.two_items)) = None.
Proof.
  split; [|split].
  - destruct (removeItem_spec "a" Samples.two_items) as (_ & _ & H & _).
    rewrite H; reflexivity.
  - destruct (removeItem_spec "b" Samples.two_items) as (_ & _ & _ & H).
    rewrite H; [reflexivity | discriminate].
  - destruct (removeItem_spec "b" (removeItem "a" Samples.two_items))
      as (_ & _ & H & _).
    rewrite H; reflexivity.
Defined.

Lemma merge_absent (g : FileItem -> FileItem) (i : string) (prev : list FileItem) :
  (forall item, In item prev -> id item <> i) ->
  map (fun item => if String.eqb (id item) i then g item else item) prev = prev.
Proof.
  induction prev as [|x prev IH]; intros H; cbn; [reflexivity|].
  destruct (String.eqb_spec (id x) i) as [E|_].
  - exfalso. exact (H x (or_introl eq_refl) E).
  - f_equal. apply IH. intros item Hin. apply H. right. exact Hin.
Qed.

(** C6: merging a result or an error under an identifier that no entry
    carries returns the collection as it was. *)
Theorem merge_of_absent_id_is_noop JSON_parse (i : string) (prev : list FileItem) :
  (forall item, In item prev -> id item <> i) ->
  (forall r, analyzeItem JSON_parse i r prev = prev)
  /\ (forall resultData, mergeResult i resultData prev = prev)
  /\ (forall message, mergeError i message prev = prev).
Proof.
  intros H.
  assert (Hr : forall resultData, mergeResult i resultData prev = prev)
    by (intros; apply merge_absent; exact H).
  assert (He : forall message, mergeError i message prev = prev)
    by (intros; apply merge_absent; exact H).
  repeat split; auto.
  intros r. unfold analyzeItem.
  destruct (attempt JSON_parse r) as [v|err]; [auto|].
  destruct (errorMessage err); auto.
Qed.

Lemma merge_of_absent_id_is_noop_witness :
  analyzeItem Samples.parse_healthy "zz" (CallReturns (Some Samples.healthy_reply))
    (items Samples.two_items) = items Samples.two_items
  /\ mergeError "zz" "Failed to process image." (items Samples.two_items)
     = items Samples.two_items.
Proof.
  assert (H : forall item, In item (items Samples.two_items) -> id item <> "zz").
  { intros item [<-|[<-|[]]]; discriminate. }
  destruct (merge_of_absent_id_is_noop Samples.parse_healthy "zz" _ H)
    as (Ha & _ & He).
  split; [apply Ha | apply He].
Defined.

(** ** Error categories of analyzeItem *)

Lemma slice0_length (n : nat) (s : string) :
  (String.length (slice0 n s) <= n)%nat.
Proof.
  unfold slice0. revert s. induction n as [|n IH]; intros [|c s]; cbn; try lia.
  specialize (IH s). lia.
Qed.


Lemma mergeError_stores (i message : string) (prev : list FileItem) (item : FileItem) :
  In item prev -> id item = i ->
  exists item', In item' (mergeError i message prev)
    /\ id item' = i /\ loading item' = false /\ error item' = Some message
    /\ result item' = result item.
Proof.
  intros Hin Hid.
  eexists. split.
  - unfold mergeError. apply in_map_iff. exists item. split; [|exact Hin].
    rewrite Hid, String.eqb_refl. reflexivity.
  - cbn. auto.
Qed.




(** C10: a message containing both "403" and "503" is stored as the
    permission-denied text. *)
Theorem errorMessage_403_before_503 JSON_parse
    (i message : string) (prev : list FileItem) :
  includes "403" message = true ->
  includes "503" message = true ->
  errorMessage (Caught (Text message))
    = Normal "Permission Denied: Please check API Key or Network."
  /\ analyzeItem JSON_parse i (CallThrows (Caught (Text message))) prev
     = mergeError i "Permission Denied: Please check API Key or Network." prev
  /\ (forall has excerpt,
        has "403" = Normal true -> has "503" = Normal true ->
        errorMessage (Caught (Other has excerpt))
        = Normal "Permission Denied: Please check API Key or Network.").
Proof.
  intros H403 _.
  assert (E : errorMessage (Caught (Text message))
              = Normal "Permission Denied: Please check API Key or Network.").
  { cbn [errorMessage].
    rewrite (includes_nonempty "403" message eq_refl H403), H403. reflexivity. }
  split; [exact E|]. split.
  - unfold analyzeItem. cbn [attempt]. rewrite E. reflexivity.
  - intros has excerpt H4 _. cbn [errorMessage]. rewrite H4. reflexivity.
Qed.

Lemma errorMessage_403_before_503_witness :
  errorMessage (Caught (Text "got 503 after 403 from upstream"))
    = Normal "Permission Denied: Please check API Key or Network.".
Proof.
  apply (errorMessage_403_before_503 Samples.parse_healthy "a"
           "got 503 after 403 from upstream" []); reflexivity.
Defined.

(** ** compressImage on images *)

Section Resize.

Local Open Scope Z_scope.

Lemma paint_dimensions (img : Image) :
  0 <= img_width img < 2 ^ 32 -> 0 <= img_height img < 2 ^ 32 ->
  (1024 < img_width img \/ 1024 < img_height img ->
     Z.max (canvas_width (paint img)) (canvas_height (paint img)) = 1024
     /\ (img_height img < img_width img ->
         canvas_width (paint img) = 1024
         /\ canvas_height (paint img) * img_width img
            <= 1024 * img_height img
            <= (canvas_height (paint img) + 1) * img_width img)
     /\ (img_width img <= img_height img ->
         canvas_height (paint img) = 1024
         /\ canvas_width (paint img) * img_height img
            <= 1024 * img_width img
            <= (canvas_width (paint img) + 1) * img_height img))
  /\ (img_width img <= 1024 -> img_height img <= 1024 ->
      canvas_width (paint img) = img_width img
      /\ canvas_height (paint img) = img_height img).
Proof.
  destruct img as [w h]. cbn [img_width img_height]. intros Hw Hh.
  assert (H1024 : 0 <= 1024 < 2 ^ 32) by (split; [discriminate | reflexivity]).
  unfold paint, resize, MAX_WIDTH, MAX_HEIGHT. cbn [img_width img_height].
  rewrite !gt_of_Z by assumption.
  destruct (Z.gtb_spec w h) as [Hwh|Hwh].
  - destruct (Z.gtb_spec w 1024) as [Hbig|Hsmall]; cbn [canvas_width canvas_height].
    + destruct (scale_spec h w ltac:(lia) ltac:(lia)) as [Hs Ho].
      change (Number.to_unsigned_long (Number.of_Z 1024)) with 1024.
      split; [|lia]. intros _. split; [lia|]. split; [|lia].
      intros _. split; [reflexivity | exact Hs].
    + rewrite !to_unsigned_long_of_Z by lia. split; [lia | auto].
  - destruct (Z.gtb_spec h 1024) as [Hbig|Hsmall]; cbn [canvas_width canvas_height].
    + destruct (scale_spec w h ltac:(lia) ltac:(lia)) as [Hs Ho].
      change (Number.to_unsigned_long (Number.of_Z 1024)) with 1024.
      split; [|lia]. intros _. split; [lia|]. split; [lia|].
      intros _. split; [reflexivity | exact Hs].
    + rewrite !to_unsigned_long_of_Z by lia. split; [lia | auto].
Qed.



End Resize.





(** The literal [0.7] is the binary64 number 6305039478318694 * 2^-53,
    the one nearest to 7/10. *)
Example JPEG_QUALITY_value :
  JPEG_QUALITY = S754_finite false 6305039478318694 (-53)
  /\ (Z.abs (10 * 6305039478318694 - 7 * 2 ^ 53) <= 5)%Z.
Proof. split; [reflexivity | discriminate]. Qed.

(** A strip 50176 wide and 49 high: the exact proportional height is 1,
    the product computed in binary64 is just below 1 and the canvas gets
    height 0. *)
Example paint_wide_strip :
  resize {| img_width := 50176; img_height := 49 |}
  = (S754_finite false 4503599627370496 (-42),
     S754_finite false 9007199254740991 (-53))
  /\ canvas_height (paint {| img_width := 50176; img_height := 49 |}) = 0%Z.
Proof. split; reflexivity. Qed.

(** ** compressImage on documents *)

(** C2: an accepted file that is not an image (so its type is
    application/pdf) and that the reader can read resolves to the Base64
    encoding of its bytes, with the file's own media type. *)
Theorem compressImage_passthrough readable decode getContext2d serialize (f : File) :
  accepted f = true ->
  startsWith "image/" (type f) = false ->
  readable f = true ->
  compressImage readable decode getContext2d serialize f
    = Resolved {| data := Some (Base64.encode (bytes f));
                  payload_mimeType := type f |}
  /\ type f = "application/pdf".
Proof.
  intros Hacc Himg Hread.
  assert (Hpdf : type f = "application/pdf").
  { unfold accepted in Hacc. rewrite Himg in Hacc. cbn in Hacc.
    apply negb_true_iff, negb_false_iff in Hacc.
    apply String.eqb_eq. exact Hacc. }
  split; [|exact Hpdf].
  unfold compressImage, readAsDataURL. rewrite Himg, Hread. cbn [negb].
  unfold dataURL. rewrite Hpdf.
  change ("data:" ++ "application/pdf" ++ ";base64," ++ Base64.encode (bytes f))
    with ("data:application/pdf;base64" ++ String "," (Base64.encode (bytes f))).
  rewrite split_once; [reflexivity | reflexivity | apply encode_no_comma].
Qed.

Lemma compressImage_passthrough_witness :
  compressImage Samples.always_readable Samples.decode_photo
    Samples.context_available Samples.encode_stub Samples.report_pdf
  = Resolved {| data := Some "JVBERg=="; payload_mimeType := "application/pdf" |}.
Proof.
  destruct (compressImage_passthrough Samples.always_readable Samples.decode_photo
              Samples.context_available Samples.encode_stub Samples.report_pdf
              eq_refl eq_refl eq_refl) as [H _].
  rewrite H. reflexivity.
Defined.

(** ** Reachable states of the store *)

Section ListFacts.

Context {A B : Type}.
Variable f : A -> B.

Lemma in_drop_nth (k : nat) (l : list A) (x : A) :
  In x (drop_nth k l) -> In x l.
Proof.
  revert k. induction l as [|a l IH]; intros [|k]; cbn; auto.
  intros [->|H]; eauto.
Qed.

Lemma map_drop_nth (k : nat) (l : list A) :
  map f (drop_nth k l) = drop_nth k (map f l).
Proof.
  revert k. induction l as [|a l IH]; intros [|k]; cbn; auto.
  f_equal. apply IH.
Qed.

Lemma NoDup_drop_nth (k : nat) (l : list A) :
  NoDup l -> NoDup (drop_nth k l).
Proof.
  revert k. induction l as [|a l IH]; intros [|k] H; cbn; auto;
    inversion H; subst; auto.
  constructor; auto. intros Hin. apply in_drop_nth in Hin. contradiction.
Qed.

Lemma drop_nth_excludes (k : nat) (l : list A) (x : A) :
  NoDup l -> nth_error l k = Some x -> ~ In x (drop_nth k l).
Proof.
  revert k. induction l as [|a l IH]; intros [|k] H E; cbn in *; try discriminate;
    inversion H; subst.
  - injection E as ->. assumption.
  - intros [->|Hin].
    + apply nth_error_In in E. contradiction.
    + exact (IH k H3 E Hin).
Qed.

Lemma map_set_nth (k : nat) (y x : A) (l : list A) :
  nth_error l k = Some x -> f y = f x -> map f (set_nth k y l) = map f l.
Proof.
  revert k. induction l as [|a l IH]; intros [|k] E Hf; cbn in *; try discriminate.
  - injection E as ->. rewrite Hf. reflexivity.
  - f_equal. apply IH; assumption.
Qed.

Lemma NoDup_map_same (l : list A) (a b : A) :
  NoDup (map f l) -> In a l -> In b l -> f a = f b -> a = b.
Proof.
  induction l as [|x l IH]; cbn; [tauto|].
  intros H Ha Hb E. inversion H as [|? ? Hx Hl]; subst.
  destruct Ha as [->|Ha], Hb as [->|Hb]; auto.
  - exfalso. apply Hx. rewrite E. apply in_map, Hb.
  - exfalso. apply Hx. rewrite <- E. apply in_map, Ha.
Qed.

Lemma NoDup_map_filter (p : A -> bool) (l : list A) :
  NoDup (map f l) -> NoDup (map f (filter p l)).
Proof.
  induction l as [|x l IH]; cbn; auto.
  intros H. inversion H as [|? ? Hx Hl]; subst.
  destruct (p x); cbn; auto. constructor; auto.
  intros Hin. apply Hx. apply in_map_iff in Hin as (y & <- & Hy).
  apply in_map. apply filter_In in Hy. tauto.
Qed.

Lemma NoDup_map_injective (l : list A) :
  (forall a b, f a = f b -> a = b) -> NoDup l -> NoDup (map f l).
Proof.
  intros Hinj. induction 1 as [|x l Hx Hl IH]; cbn; constructor; auto.
  intros Hin. apply in_map_iff in Hin as (y & E & Hy).
  apply Hinj in E. subst. contradiction.
Qed.

End ListFacts.

Section Merges.

Variable g : FileItem -> FileItem.
Variable i : string.
Hypothesis g_id : forall item, id (g item) = id item.

Local Abbreviation merged prev :=
  (map (fun item => if String.eqb (id item) i then g item else item) prev).

Lemma merged_ids (prev : list FileItem) : map id (merged prev) = map id prev.
Proof.
  rewrite map_map. apply map_ext. intros item.
  destruct (String.eqb (id item) i); [apply g_id | reflexivity].
Qed.

Lemma merged_In (prev : list FileItem) (x : FileItem) :
  In x (merged prev) ->
  (In x prev /\ id x <> i)
  \/ (exists item, In item prev /\ id item = i /\ x = g item).
Proof.
  intros H. apply in_map_iff in H as (item & E & Hin).
  destruct (String.eqb_spec (id item) i) as [Hi|Hi]; subst x.
  - right. exists item. auto.
  - left. auto.
Qed.

End Merges.

Section Invariants.

Variable random_id : nat -> string.
Variable createObjectURL : nat -> File -> string.
Variable JSON_parse : string -> Parse.
Variable readable : File -> bool.
Variable decode : string -> option Image.
Variable getContext2d : Z -> Z -> bool.
Variable serialize : Canvas -> string -> spec_float -> option (list byte).

(** No two draws produce the same identifier. *)
Hypothesis random_id_injective : forall m n, random_id m = random_id n -> m = n.

Local Abbreviation step :=
  (next random_id createObjectURL JSON_parse readable decode
     getContext2d serialize).
Local Abbreviation steps :=
  (run random_id createObjectURL JSON_parse readable decode
     getContext2d serialize).
Local Abbreviation ok := (consistent random_id).
Local Abbreviation known := (issued random_id).
Local Abbreviation settled := (settled_for_good random_id).

Lemma fresh_not_issued (st : State) (len : nat) (i : string) :
  In i (map random_id (seq (draws st) len)) -> known st i -> False.
Proof.
  intros Hin (n & Hn & ->). apply in_map_iff in Hin as (m & E & Hm).
  apply in_seq in Hm. apply random_id_injective in E. lia.
Qed.

Lemma fresh_issued (st : State) (len : nat) (i : string) :
  In i (map random_id (seq (draws st) len)) ->
  exists n, (n < draws st + len)%nat /\ i = random_id n.
Proof.
  intros Hin. apply in_map_iff in Hin as (m & E & Hm). apply in_seq in Hm.
  exists m. split; [lia | auto].
Qed.

Lemma fresh_distinct (d len : nat) : NoDup (map random_id (seq d len)).
Proof.
  apply NoDup_map_injective; [exact random_id_injective | apply seq_NoDup].
Qed.

Lemma consistent_initial : ok initial.
Proof.
  split; cbn; try tauto; constructor.
Qed.

Lemma consistent_processFiles (files : list File) (st : State) :
  ok st -> ok (processFiles random_id createObjectURL files st).
Proof.
  intros [Hi Ht Hdi Hdt Hp].
  destruct (processFiles_unfold random_id createObjectURL files st)
    as (fresh & -> & _ & Hpr & Hids).
  assert (Hmono : forall i, known st i ->
            exists n, (n < draws st + List.length fresh)%nat /\ i = random_id n).
  { intros i (n & Hn & ->). exists n. split; [lia | reflexivity]. }
  split; cbn [items tasks draws]; unfold issued; cbn [draws];
    rewrite ?map_app, ?map_map; cbn [task_ident];
    change (map (fun x : FileItem => id x) fresh) with (map id fresh);
    rewrite ?Hids.
  - intros i [H|H]%in_app_or; [apply Hmono, Hi, H | eapply fresh_issued, H].
  - intros i [H|H]%in_app_or; [apply Hmono, Ht, H | eapply fresh_issued, H].
  - apply NoDup_app; [exact Hdi | apply fresh_distinct |].
    intros i H1 H2. exact (fresh_not_issued st _ i H2 (Hi i H1)).
  - apply NoDup_app; [exact Hdt | apply fresh_distinct |].
    intros i H1 H2. exact (fresh_not_issued st _ i H2 (Ht i H1)).
  - intros item [Hin|Hin]%in_app_or Hfl.
    + apply in_app_or in Hfl as [Hfl|Hfl]; [exact (Hp item Hin Hfl)|].
      exfalso. apply (fresh_not_issued st _ _ Hfl). apply Hi, in_map, Hin.
    + eapply Forall_forall in Hpr; eauto.
Qed.

Lemma consistent_removeItem (i : string) (st : State) :
  ok st -> ok (removeItem i st).
Proof.
  intros [Hi Ht Hdi Hdt Hp].
  split; cbn [items tasks draws removeItem]; unfold issued; cbn [draws]; auto.
  - intros j Hj. apply Hi. apply in_map_iff in Hj as (x & <- & Hx).
    apply in_map. apply filter_In in Hx. tauto.
  - apply NoDup_map_filter, Hdi.
  - intros item Hin. apply Hp. apply filter_In in Hin. tauto.
Qed.

Lemma consistent_settle (g : FileItem -> FileItem) (i : string) (k : nat)
    (t : Task) (st : State) :
  (forall item, id (g item) = id item) ->
  nth_error (tasks st) k = Some t -> task_ident t = i ->
  ok st ->
  ok (with_items st
        (map (fun item => if String.eqb (id item) i then g item else item)
           (items st))
        (drop_nth k (tasks st))).
Proof.
  intros Hg Hk Hti [Hi Ht Hdi Hdt Hp].
  assert (Hgone : ~ In i (map task_ident (drop_nth k (tasks st)))).
  { rewrite map_drop_nth. apply drop_nth_excludes; [exact Hdt|].
    rewrite nth_error_map, Hk. cbn. rewrite Hti. reflexivity. }
  split; cbn [items tasks draws with_items]; unfold issued; cbn [draws];
    rewrite ?(merged_ids g i Hg); auto.
  - intros j Hj. apply Ht. rewrite map_drop_nth in Hj.
    eapply in_drop_nth, Hj.
  - rewrite map_drop_nth. apply NoDup_drop_nth, Hdt.
  - intros x Hx Hfl.
    apply (merged_In g i) in Hx as [[Hx Hne]|(item & Hin & Hid & ->)].
    + apply Hp; [exact Hx|]. rewrite map_drop_nth in Hfl.
      eapply in_drop_nth, Hfl.
    + exfalso. apply Hgone. rewrite (Hg item), Hid in Hfl. exact Hfl.
Qed.

Lemma analyzeItem_merge (i : string) (r : Response) :
  exists g,
    (forall item, id (g item) = id item)
    /\ (merges JSON_parse r = true -> forall item, loading (g item) = false)
    /\ (forall prev,
          analyzeItem JSON_parse i r prev
          = map (fun item => if String.eqb (id item) i then g item else item) prev)
    /\ (forall item, pristine item ->
          (forall text, JSON_parse text <> Parsed Json.Null) ->
          exactly_one (g item)).
Proof.
  unfold analyzeItem, merges.
  destruct (attempt JSON_parse r) as [resultData|err] eqn:E.
  - eexists (fun item => {| id := id item; result := resultData |}).
    repeat split; try reflexivity.
    intros item (Hl & Hr & He) Hnn. right. right.
    unfold isLoading, hasError, hasResult. cbn. rewrite He.
    repeat split; try congruence.
    intros ->. destruct r as [err|[text|]]; cbn in E; try discriminate.
    destruct (truthy text); [|discriminate].
    destruct (JSON_parse text) eqn:P; [discriminate|].
    injection E as ->. exact (Hnn text P).
  - destruct (errorMessage err) as [message|].
    + eexists (fun item => {| id := id item; error := Some message |}).
      repeat split; try reflexivity.
      intros item (Hl & Hr & He) _. right. left.
      unfold isLoading, hasError, hasResult. cbn. rewrite Hr.
      repeat split; congruence.
    + exists (fun item => item).
      split; [reflexivity|]. split; [discriminate|]. split.
      * intros prev. rewrite <- (map_id prev) at 1. apply map_ext.
        intros item. destruct (String.eqb (id item) i); reflexivity.
      * intros item Hp _. left. destruct Hp as (Hl & Hr & He).
        unfold isLoading, hasError, hasResult. rewrite Hr, He. auto.
Qed.

Lemma consistent_step (st st' : State) (e : Event) :
  ok st -> step st e = Some st' -> ok st'.
Proof.
  intros Hok. destruct e as [files|i|s|k|k r]; cbn [next].
  - cbn. intros [= <-]. apply consistent_processFiles, Hok.
  - cbn. intros [= <-]. apply consistent_removeItem, Hok.
  - cbn. destruct Hok. destruct s as [i|];
      [destruct (existsb _ _); [|discriminate]|];
      intros [= <-]; split; assumption.
  - cbn. destruct (nth_error (tasks st) k) as [[item|]|] eqn:Hk; try discriminate.
    destruct (compressImage _ _ _ _ _) as [p|]; intros [= <-].
    + destruct Hok as [Hi Ht Hdi Hdt Hp].
      assert (E : map task_ident
                    (set_nth k (Analyzing (id item) (data p) (payload_mimeType p))
                       (tasks st))
                  = map task_ident (tasks st))
        by (eapply map_set_nth; [exact Hk | reflexivity]).
      split; cbn [items tasks draws with_items]; unfold issued; cbn [draws];
        rewrite ?E; auto.
    + eapply (consistent_settle
                (fun x => {| id := id x;
                             error := Some "Failed to process image." |}));
        [reflexivity | exact Hk | reflexivity | exact Hok].
  - cbn. destruct (nth_error (tasks st) k) as [[|i b m]|] eqn:Hk; try discriminate.
    intros [= <-].
    destruct (analyzeItem_merge i r) as (g & Hg & _ & -> & _).
    eapply consistent_settle; [exact Hg | exact Hk | reflexivity | exact Hok].
Qed.

Lemma consistent_run (es : list Event) :
  forall st st', ok st -> steps st es = Some st' -> ok st'.
Proof.
  induction es as [|e es IH]; intros st st' Hok; cbn [run].
  - intros [= <-]. exact Hok.
  - cbn [run].
    destruct (next _ _ _ _ _ _ _ st e) as [st1|] eqn:E; [|discriminate].
    apply IH. eapply consistent_step; eauto.
Qed.

Lemma pristine_exactly_one (item : FileItem) : pristine item -> exactly_one item.
Proof.
  intros (Hl & Hr & He). left. unfold isLoading, hasError, hasResult.
  rewrite Hr, He. auto.
Qed.

Lemma exactly_one_settle (g : FileItem -> FileItem) (i : string) (k : nat)
    (t : Task) (st : State) :
  (forall item, pristine item -> exactly_one (g item)) ->
  nth_error (tasks st) k = Some t -> task_ident t = i ->
  ok st -> all_exactly_one st ->
  forall x,
    In x (map (fun item => if String.eqb (id item) i then g item else item)
            (items st)) ->
    exactly_one x.
Proof.
  intros Hg Hk Hti Hok Hall x Hx. apply in_map_iff in Hx as (item & <- & Hin).
  destruct (String.eqb_spec (id item) i) as [Hi|_]; [|exact (Hall item Hin)].
  apply Hg. apply (in_flight_pristine _ _ Hok item Hin).
  rewrite Hi, <- Hti. apply in_map. eapply nth_error_In, Hk.
Qed.

Hypothesis parse_not_null : forall text, JSON_parse text <> Parsed Json.Null.

Lemma exactly_one_step (st st' : State) (e : Event) :
  ok st -> all_exactly_one st -> step st e = Some st' -> all_exactly_one st'.
Proof.
  intros Hok Hall. destruct e as [files|i|s|k|k r]; cbn [next].
  - intros [= <-].
    destruct (processFiles_unfold random_id createObjectURL files st)
      as (fresh & -> & _ & Hpr & _).
    intros item [H|H]%in_app_or; [exact (Hall item H)|].
    apply pristine_exactly_one. eapply Forall_forall in Hpr; eauto.
  - intros [= <-] item Hin. apply Hall. cbn in Hin.
    apply filter_In in Hin. tauto.
  - destruct s as [i|]; [destruct (existsb _ _); [|discriminate]|];
      intros [= <-]; exact Hall.
  - destruct (nth_error (tasks st) k) as [[item|]|] eqn:Hk; try discriminate.
    destruct (compressImage _ _ _ _ _) as [p|]; intros [= <-]; [exact Hall|].
    intros x Hx.
    refine (exactly_one_settle
              (fun x => {| id := id x; mimeType := mimeType x;
                           error := Some "Failed to process image." |})
              (id item) k _ st _ Hk eq_refl Hok Hall x Hx).
    intros y (Hl & Hr & He). right. left.
    unfold isLoading, hasError, hasResult. cbn. rewrite Hr.
    repeat split; congruence.
  - destruct (nth_error (tasks st) k) as [[|i b m]|] eqn:Hk; try discriminate.
    intros [= <-] x Hx. cbn [items with_items] in Hx.
    destruct (analyzeItem_merge i r) as (g & _ & _ & E & Hg). rewrite E in Hx.
    refine (exactly_one_settle g i k _ st _ Hk eq_refl Hok Hall x Hx).
    intros y Hy. exact (Hg y Hy parse_not_null).
Qed.

Lemma exactly_one_run (es : list Event) :
  forall st st', ok st -> all_exactly_one st -> steps st es = Some st' ->
                 all_exactly_one st'.
Proof.
  induction es as [|e es IH]; intros st st' Hok Hall; cbn [run].
  - intros [= <-]. exact Hall.
  - destruct (next _ _ _ _ _ _ _ st e) as [st1|] eqn:E; [|discriminate].
    apply IH; [eapply consistent_step | eapply exactly_one_step]; eauto.
Qed.

(** C7, as the code has it: when no two draws give the same identifier
    and no response text parses to [null], every entry of every reachable
    state has exactly one of: loading, an error, a result. *)
Theorem reachable_items_exactly_one (st : State) (item : FileItem) :
  reachable random_id createObjectURL JSON_parse readable decode
    getContext2d serialize st ->
  In item (items st) ->
  exactly_one item.
Proof.
  intros (es & Hrun) Hin.
  refine (exactly_one_run es initial st consistent_initial _ Hrun item Hin).
  intros x [].
Qed.

Lemma terminal_not_pristine (item : FileItem) :
  terminal item -> pristine item -> False.
Proof.
  intros [H|H] (_ & Hr & He); [exact (H Hr) | exact (H He)].
Qed.

Lemma kept_settle (g : FileItem -> FileItem) (i : string) (k : nat)
    (t : Task) (st : State) (item : FileItem) :
  (forall x, id (g x) = id x) ->
  nth_error (tasks st) k = Some t -> task_ident t = i ->
  ok st -> settled item st ->
  settled item
    (with_items st
       (map (fun x => if String.eqb (id x) i then g x else x) (items st))
       (drop_nth k (tasks st))).
Proof.
  intros Hg Hk Hti Hok (Hkn & Hterm & Hkept).
  split; [exact Hkn|]. split; [exact Hterm|].
  intros x Hx Hid. cbn [items with_items] in Hx.
  apply (merged_In g i) in Hx as [[Hx _]|(y & Hy & Hyi & ->)].
  - exact (Hkept x Hx Hid).
  - exfalso. rewrite Hg in Hid. pose proof (Hkept y Hy Hid) as ->.
    apply (terminal_not_pristine item Hterm).
    apply (in_flight_pristine _ _ Hok item Hy).
    rewrite Hyi, <- Hti. apply in_map. eapply nth_error_In, Hk.
Qed.

Lemma settled_step (item : FileItem) (st st' : State) (e : Event) :
  ok st -> settled item st -> step st e = Some st' ->
  settled item st'.
Proof.
  intros Hok Hs. pose proof Hs as (Hkn & Hterm & Hkept).
  destruct e as [files|i|s|k|k r]; cbn [next].
  - intros [= <-].
    destruct (processFiles_unfold random_id createObjectURL files st)
      as (fresh & -> & _ & _ & Hids).
    split; [|split; [exact Hterm|]].
    + destruct Hkn as (n & Hn & E). exists n. cbn [draws]. split; [lia | exact E].
    + intros x [Hx|Hx]%in_app_or Hid; [exact (Hkept x Hx Hid)|].
      exfalso. apply (fresh_not_issued st (List.length fresh) (id item)); [|exact Hkn].
      rewrite <- Hids, <- Hid. apply in_map, Hx.
  - intros [= <-]. split; [exact Hkn|]. split; [exact Hterm|].
    intros x Hx. cbn in Hx. apply filter_In in Hx as [Hx _]. exact (Hkept x Hx).
  - destruct s as [i|]; [destruct (existsb _ _); [|discriminate]|];
      intros [= <-]; exact Hs.
  - destruct (nth_error (tasks st) k) as [[it|]|] eqn:Hk; try discriminate.
    destruct (compressImage _ _ _ _ _) as [p|]; intros [= <-]; [exact Hs|].
    eapply (kept_settle
              (fun x => {| id := id x;
                           error := Some "Failed to process image." |}));
      [reflexivity | exact Hk | reflexivity | exact Hok | exact Hs].
  - destruct (nth_error (tasks st) k) as [[|i b m]|] eqn:Hk; try discriminate.
    intros [= <-].
    destruct (analyzeItem_merge i r) as (g & Hg & _ & -> & _).
    eapply kept_settle; [exact Hg | exact Hk | reflexivity | exact Hok | exact Hs].
Qed.

Lemma settled_run (item : FileItem) (es : list Event) :
  forall st st', ok st -> settled item st -> steps st es = Some st' ->
                 settled item st'.
Proof.
  induction es as [|e es IH]; intros st st' Hok Hs; cbn [run].
  - intros [= <-]. exact Hs.
  - destruct (next _ _ _ _ _ _ _ st e) as [st1|] eqn:E; [|discriminate].
    apply IH; [eapply consistent_step | eapply settled_step]; eauto.
Qed.

(** C8, as the code has it: when no two draws give the same identifier,
    an entry of a reachable state that carries a result or an error is
    never changed by later events: in every later state each entry with
    its identity is that very entry, so it is either still there as it
    was or gone. *)
Theorem terminal_items_are_final (st st' : State) (es : list Event)
    (item item' : FileItem) :
  reachable random_id createObjectURL JSON_parse readable decode
    getContext2d serialize st ->
  run random_id createObjectURL JSON_parse readable decode
    getContext2d serialize st es = Some st' ->
  In item (items st) -> terminal item ->
  In item' (items st') -> id item' = id item ->
  item' = item.
Proof.
  intros (es0 & Hreach) Hrun Hin Hterm Hin' Hid.
  assert (Hok : ok st) by exact (consistent_run es0 _ _ consistent_initial Hreach).
  assert (Hs : settled item st).
  { split; [|split; [exact Hterm|]].
    - apply (items_issued _ _ Hok), in_map, Hin.
    - intros x Hx Hxid.
      exact (NoDup_map_same id _ x item (items_distinct _ _ Hok) Hx Hin Hxid). }
  destruct (settled_run item es st st' Hok Hs Hrun) as (_ & _ & Hkept).
  exact (Hkept item' Hin' Hid).
Qed.

End Invariants.

Lemma tally_injective (m n : nat) : Samples.tally m = Samples.tally n -> m = n.
Proof.
  revert n. induction m as [|m IH]; intros [|n]; cbn; try discriminate; auto.
  intros [= E]. f_equal. exact (IH n E).
Qed.

Lemma parse_healthy_not_null (text : string) :
  Samples.parse_healthy text <> Parsed Json.Null.
Proof.
  unfold Samples.parse_healthy.
  destruct (String.eqb text Samples.healthy_reply); discriminate.
Qed.

Lemma reachable_items_exactly_one_witness :
  In Samples.done_item (items Samples.after_document)
  /\ exactly_one Samples.done_item.
Proof.
  split; [left; reflexivity|].
  apply (reachable_items_exactly_one Samples.tally Samples.blob_url
           Samples.parse_healthy Samples.always_readable Samples.decode_photo
           Samples.context_available Samples.encode_stub tally_injective
           parse_healthy_not_null Samples.after_document).
  - exists (Samples.one_document Samples.healthy_reply). vm_compute. reflexivity.
  - left. reflexivity.
Defined.

(** C7 as worded fails in two ways.  When the model answers with the text
    [null], the entry ends with none of the three; when two draws give
    the same identifier, a success and a failure are merged into the same
    entries, which end with both a result and an error. *)
Lemma exactly_one_counterexample :
  (exists st item,
      Samples.app Samples.tally Samples.parse_null initial
        (Samples.one_document "null") = Some st
      /\ In item (items st)
      /\ loading item = false /\ result item = Json.Null /\ error item = None
      /\ ~ exactly_one item)
  /\ (exists st item,
      Samples.app Samples.stuck Samples.parse_healthy initial
        (Samples.two_files_first_succeeds ++ Samples.second_fails)%list = Some st
      /\ In item (items st)
      /\ loading item = false /\ result item <> Json.Null /\ error item <> None
      /\ ~ exactly_one item).
Proof.
  split.
  - eexists. eexists. split; [vm_compute; reflexivity|].
    split; [left; reflexivity|]. cbn. repeat split.
    unfold exactly_one, isLoading, hasError, hasResult. cbn.
    intros [(H & _)|[(_ & H & _)|(_ & _ & H)]]; [discriminate H | | ]; apply H; reflexivity.
  - eexists. eexists. split; [vm_compute; reflexivity|].
    split; [left; reflexivity|]. cbn. repeat split; try discriminate.
    unfold exactly_one, isLoading, hasError, hasResult. cbn.
    intros [(H & _)|[(_ & _ & H)|(_ & H & _)]]; [discriminate H | | ];
      apply H; discriminate.
Qed.

Lemma terminal_items_are_final_witness :
  In Samples.done_item (items Samples.after_document)
  /\ terminal Samples.done_item
  /\ nth 0 (items Samples.after_second_file) Samples.done_item
     = Samples.done_item.
Proof.
  split; [left; reflexivity|]. split; [left; discriminate|].
  apply (terminal_items_are_final Samples.tally Samples.blob_url
           Samples.parse_healthy Samples.always_readable Samples.decode_photo
           Samples.context_available Samples.encode_stub tally_injective
           Samples.after_document Samples.after_second_file
           [AddFiles [Samples.leaf_png]]).
  - exists (Samples.one_document Samples.healthy_reply). vm_compute. reflexivity.
  - vm_compute. reflexivity.
  - left. reflexivity.
  - left. discriminate.
  - left. reflexivity.
  - reflexivity.
Defined.

(** C8 as worded fails when two draws give the same identifier: the first
    entry has its result, then the failure of the second entry's analysis
    is merged into it as well. *)
Lemma terminal_item_changed_counterexample :
  exists st st' item item',
    Samples.app Samples.stuck Samples.parse_healthy initial
      Samples.two_files_first_succeeds = Some st
    /\ Samples.app Samples.stuck Samples.parse_healthy st
      Samples.second_fails = Some st'
    /\ In item (items st) /\ terminal item
    /\ In item' (items st') /\ id item' = id item
    /\ file item' = file item
    /\ error item = None
    /\ error item' = Some "Service temporarily unavailable. Retrying might help."
    /\ item' <> item.
Proof.
  eexists. eexists. eexists. eexists.
  split; [vm_compute; reflexivity|].
  split; [vm_compute; reflexivity|].
  split; [left; reflexivity|].
  split; [left; discriminate|].
  split; [left; reflexivity|].
  repeat split. discriminate.
Qed.

(** * Further properties of the component *)

(** ** Merges by identity: frame, order and interleaving *)

Lemma mergeResult_as_map (i : string) (v : Json.t) (prev : list FileItem) :
  mergeResult i v prev
  = map (fun item => if String.eqb (id item) i
                     then {| id := id item; file := file item;
                             previewUrl := previewUrl item;
                             mimeType := mimeType item; loading := false;
                             result := v; error := error item |}
                     else item) prev.
Proof. reflexivity. Qed.

Section MergeAlgebra.

Variables g h : FileItem -> FileItem.
Variables i j : string.
Hypothesis g_id : forall item, id (g item) = id item.
Hypothesis h_id : forall item, id (h item) = id item.

Local Abbreviation merge_g l :=
  (map (fun item => if String.eqb (id item) i then g item else item) l).
Local Abbreviation merge_h l :=
  (map (fun item => if String.eqb (id item) j then h item else item) l).

Lemma merges_commute (prev : list FileItem) :
  i <> j -> merge_g (merge_h prev) = merge_h (merge_g prev).
Proof.
  intros Hij. rewrite !map_map. apply map_ext. intros item.
  destruct (String.eqb_spec (id item) j) as [Ej|Nj];
    destruct (String.eqb_spec (id item) i) as [Ei|Ni];
    rewrite ?g_id, ?h_id;
    repeat match goal with
           | |- context [String.eqb ?a ?b] => destruct (String.eqb_spec a b)
           end;
    congruence.
Qed.

Lemma merge_nth (prev : list FileItem) (k : nat) :
  nth_error (merge_g prev) k
  = option_map (fun item => if String.eqb (id item) i then g item else item)
      (nth_error prev k).
Proof. apply nth_error_map. Qed.

Lemma merge_filter (p : string -> bool) (prev : list FileItem) :
  filter (fun item => p (id item)) (merge_g prev)
  = merge_g (filter (fun item => p (id item)) prev).
Proof.
  induction prev as [|x prev IH]; cbn; [reflexivity|].
  assert (E : id (if String.eqb (id x) i then g x else x) = id x)
    by (destruct (String.eqb (id x) i); [apply g_id | reflexivity]).
  rewrite E. destruct (p (id x)); cbn; rewrite IH; reflexivity.
Qed.

End MergeAlgebra.

(** X1: the outcomes of two pipelines with different identities can be
    merged in either order: two analyses commute, and an analysis commutes
    with a compression failure. *)
Theorem merges_of_distinct_identities_commute JSON_parse
    (i j : string) (r1 r2 : Response) (prev : list FileItem) :
  i <> j ->
  analyzeItem JSON_parse i r1 (analyzeItem JSON_parse j r2 prev)
    = analyzeItem JSON_parse j r2 (analyzeItem JSON_parse i r1 prev)
  /\ analyzeItem JSON_parse i r1 (mergeError j "Failed to process image." prev)
     = mergeError j "Failed to process image." (analyzeItem JSON_parse i r1 prev).
Proof.
  intros Hij.
  destruct (analyzeItem_merge JSON_parse i r1) as (g & Hg & _ & Eg & _).
  destruct (analyzeItem_merge JSON_parse j r2) as (h & Hh & _ & Eh & _).
  split.
  - rewrite !Eg, !Eh. apply merges_commute; assumption.
  - rewrite !Eg. unfold mergeError.
    apply (merges_commute g
             (fun x => {| id := id x; file := file x; previewUrl := previewUrl x;
                          mimeType := mimeType x; loading := false;
                          result := result x;
                          error := Some "Failed to process image." |}));
      auto.
Qed.

Lemma merges_of_distinct_identities_commute_witness :
  analyzeItem Samples.parse_healthy "a" (CallReturns (Some Samples.healthy_reply))
    (analyzeItem Samples.parse_healthy "b" (CallThrows (Caught (Text "503")))
       (items Samples.two_items))
  = analyzeItem Samples.parse_healthy "b" (CallThrows (Caught (Text "503")))
      (analyzeItem Samples.parse_healthy "a" (CallReturns (Some Samples.healthy_reply))
         (items Samples.two_items)).
Proof.
  apply (merges_of_distinct_identities_commute Samples.parse_healthy "a" "b").
  discriminate.
Defined.

(** ** Stored error messages *)

Lemma length_append (s t : string) :
  String.length (s ++ t) = (String.length s + String.length t)%nat.
Proof. induction s as [|c s IH]; cbn; [reflexivity | rewrite IH; reflexivity]. Qed.


Lemma errorMessage_shown (err : Thrown) (message : string) :
  errorMessage err = Normal message ->
  truthy message = true
  /\ ((forall has excerpt, err <> Caught (Other has excerpt)) ->
      (String.length message <= 60)%nat).
Proof.
  destruct err as [|[|m|has excerpt]]; cbn [errorMessage].
  - discriminate.
  - intros [= <-]. split; [reflexivity | intros _; cbn; lia].
  - destruct (truthy m); [|intros [= <-]; split; [reflexivity | intros _; cbn; lia]].
    destruct (includes "403" m);
      [intros [= <-]; split; [reflexivity | intros _; cbn; lia]|].
    destruct (includes "503" m);
      [intros [= <-]; split; [reflexivity | intros _; cbn; lia]|].
    intros [= <-]. split; [reflexivity|]. intros _.
    cbn [String.length]. rewrite length_append.
    pose proof (slice0_length 50 m). cbn [String.length]. lia.
  - destruct (has "403") as [[|]|]; [| |discriminate].
    + intros [= <-]. split; [reflexivity|]. intros H. destruct (H has excerpt eq_refl).
    + destruct (has "503") as [[|]|]; [| |discriminate].
      * intros [= <-]. split; [reflexivity|]. intros H. destruct (H has excerpt eq_refl).
      * destruct excerpt as [text|]; [|discriminate].
        intros [= <-]. split; [reflexivity|]. intros H.
        destruct (H has (Normal text) eq_refl).
Qed.



(** A message that is an array with one long string: neither marker is
    an element of it, and the excerpt is the whole string, so what is
    stored has 82 characters.  A message that is a number: the block
    throws. *)
Example errorMessage_of_other_messages :
  errorMessage (Caught Samples.array_message)
  = Normal ("Error: " ++ Samples.long_text ++ "...")
  /\ String.length ("Error: " ++ Samples.long_text ++ "...") = 82%nat
  /\ errorMessage (Caught Samples.number_message) = Throws.
Proof. repeat split. Qed.

(** ** Frame of an analysis outcome *)

Lemma attempt_carries_text JSON_parse (r : Response) (err : Thrown) :
  attempt JSON_parse r = inr err -> carries_text r ->
  forall has excerpt, err <> Caught (Other has excerpt).
Proof.
  destruct r as [e|[text|]]; cbn [attempt carries_text].
  - intros [= <-] Hc has excerpt ->. exact Hc.
  - destruct (truthy text); [|intros [= <-]; discriminate].
    destruct (JSON_parse text); intros [= <-]; discriminate.
  - intros [= <-]; discriminate.
Qed.

Lemma analyzeItem_merge_full JSON_parse (i : string) (r : Response) :
  exists g,
    (forall prev, analyzeItem JSON_parse i r prev
       = map (fun item => if String.eqb (id item) i then g item else item) prev)
    /\ (forall x, id (g x) = id x /\ file (g x) = file x
                  /\ previewUrl (g x) = previewUrl x
                  /\ mimeType (g x) = mimeType x)
    /\ (merges JSON_parse r = true -> forall x, loading (g x) = false)
    /\ (merges JSON_parse r = false -> forall x, g x = x)
    /\ (forall x e, error (g x) = Some e ->
          error x = Some e
          \/ (loading (g x) = false /\ truthy e = true
              /\ (carries_text r -> (String.length e <= 60)%nat)))
    /\ (forall x, result (g x) = result x
                  \/ exists text, JSON_parse text = Parsed (result (g x))).
Proof.
  unfold analyzeItem, merges.
  destruct (attempt JSON_parse r) as [v|err] eqn:E.
  - exists (fun x => {| id := id x; file := file x; previewUrl := previewUrl x;
                        mimeType := mimeType x; loading := false;
                        result := v; error := error x |}).
    split; [intros; reflexivity|]. split; [intros x; cbn; auto|].
    split; [reflexivity|]. split; [discriminate|].
    split; [intros x e He; left; exact He|].
    intros x. right. cbn [result].
    destruct r as [e|[text|]]; cbn in E; try discriminate.
    destruct (truthy text); [|discriminate].
    destruct (JSON_parse text) eqn:P; [discriminate|].
    injection E as ->. exists text. exact P.
  - destruct (errorMessage err) as [message|] eqn:M.
    + exists (fun x => {| id := id x; file := file x; previewUrl := previewUrl x;
                          mimeType := mimeType x; loading := false;
                          result := result x; error := Some message |}).
      split; [intros; reflexivity|]. split; [intros x; cbn; auto|].
      split; [reflexivity|]. split; [discriminate|].
      split; [|intros x; left; reflexivity].
      intros x e [= <-]. right. cbn [loading].
      destruct (errorMessage_shown err message M) as [Ht Hl].
      split; [reflexivity|]. split; [exact Ht|].
      intros Hc. apply Hl. exact (attempt_carries_text JSON_parse r err E Hc).
    + exists (fun x => x).
      split.
      { intros prev. rewrite <- (map_id prev) at 1. apply map_ext.
        intros item. destruct (String.eqb (id item) i); reflexivity. }
      split; [auto|]. split; [discriminate|]. split; [reflexivity|].
      split; [intros x e He; left; exact He | intros x; left; reflexivity].
Qed.

(** X2: an analysis outcome touches only the entries of its identity.
    The collection keeps its length and the order of its identities, files,
    preview URLs and media types; an entry with another identity stays
    where and as it was.  When analyzeItem reaches one of its [setItems]
    calls an entry with the identity stops loading; when its [catch]
    block throws, the whole collection stays as it was. *)
Theorem analyzeItem_frame JSON_parse (i : string) (r : Response)
    (prev : list FileItem) :
  map id (analyzeItem JSON_parse i r prev) = map id prev
  /\ map file (analyzeItem JSON_parse i r prev) = map file prev
  /\ map previewUrl (analyzeItem JSON_parse i r prev) = map previewUrl prev
  /\ map mimeType (analyzeItem JSON_parse i r prev) = map mimeType prev
  /\ (forall k item, nth_error prev k = Some item -> id item <> i ->
        nth_error (analyzeItem JSON_parse i r prev) k = Some item)
  /\ (merges JSON_parse r = true ->
      forall k item, nth_error prev k = Some item -> id item = i ->
        exists item', nth_error (analyzeItem JSON_parse i r prev) k = Some item'
                      /\ loading item' = false)
  /\ (merges JSON_parse r = false -> analyzeItem JSON_parse i r prev = prev).
Proof.
  destruct (analyzeItem_merge_full JSON_parse i r)
    as (g & E & Hg & Hstop & Hsame & _).
  rewrite E.
  assert (Hmap : forall (B : Type) (p : FileItem -> B),
             (forall x, p (g x) = p x) ->
             map p (map (fun item => if String.eqb (id item) i then g item else item) prev)
             = map p prev).
  { intros B p Hp. rewrite map_map. apply map_ext. intros x.
    destruct (String.eqb (id x) i); [apply Hp | reflexivity]. }
  repeat split; try (apply Hmap; intros x; apply Hg).
  - intros k item Hk Hne. rewrite nth_error_map, Hk. cbn.
    destruct (String.eqb_spec (id item) i); [contradiction | reflexivity].
  - intros Hm k item Hk He. rewrite nth_error_map, Hk. cbn.
    rewrite He, String.eqb_refl. eexists. split; [reflexivity | apply Hstop, Hm].
  - intros Hm. rewrite <- (map_id prev) at 2. apply map_ext. intros x.
    destruct (String.eqb (id x) i); [apply Hsame, Hm | reflexivity].
Qed.

Lemma analyzeItem_frame_witness :
  exists item',
    nth_error (analyzeItem Samples.parse_healthy "a"
                 (CallThrows (Caught (Text "403"))) (items Samples.two_items)) 0
    = Some item'
    /\ loading item' = false.
Proof.
  destruct (analyzeItem_frame Samples.parse_healthy "a"
              (CallThrows (Caught (Text "403")))
              (items Samples.two_items)) as (_ & _ & _ & _ & _ & H & _).
  apply (H eq_refl 0%nat (Samples.loading_item "a" Samples.report_pdf));
    reflexivity.
Defined.

(** A rejection with [undefined] reaches no [setItems]: the entry it was
    meant for keeps loading. *)
Example analyzeItem_frame_nullish :
  merges Samples.parse_healthy (CallThrows Nullish) = false
  /\ analyzeItem Samples.parse_healthy "a" (CallThrows Nullish)
       (items Samples.two_items) = items Samples.two_items.
Proof. split; reflexivity. Qed.

(** X3: removal and merging commute: a result or an error that arrives
    after entries were removed leaves the collection that removing them
    after its arrival would have left; and an outcome for the identity
    just removed changes nothing. *)
Theorem removal_commutes_with_analysis JSON_parse
    (i j : string) (r : Response) (st : State) :
  items (removeItem i
           (with_items st (analyzeItem JSON_parse j r (items st)) (tasks st)))
  = analyzeItem JSON_parse j r (items (removeItem i st))
  /\ analyzeItem JSON_parse i r (items (removeItem i st))
     = items (removeItem i st).
Proof.
  destruct (analyzeItem_merge JSON_parse j r) as (g & Hg & _ & Eg & _).
  split.
  - cbn [items removeItem with_items]. rewrite !Eg.
    apply (merge_filter g j Hg (fun x => negb (String.eqb x i))).
  - destruct (analyzeItem_merge JSON_parse i r) as (h & _ & _ & Eh & _).
    rewrite Eh. apply merge_absent. intros item Hin. cbn in Hin.
    apply filter_In in Hin as [_ Hin].
    apply negb_true_iff, String.eqb_neq in Hin. exact Hin.
Qed.

(** ** What holds in every reachable state *)

Lemma in_drop_nth_other {A : Type} (k : nat) (l : list A) (x y : A) :
  nth_error l k = Some y -> In x l -> x <> y -> In x (drop_nth k l).
Proof.
  revert k. induction l as [|a l IH]; intros [|k] Hk Hin Hne; cbn in *;
    try contradiction.
  - injection Hk as ->. destruct Hin as [->|Hin]; [contradiction | exact Hin].
  - destruct Hin as [->|Hin]; [left; reflexivity | right; eauto].
Qed.

Lemma forEach_file_media random_id createObjectURL (files : list File) :
  forall n acc raised,
    Forall (fun item => mimeType item = type (file item)) acc ->
    Forall (fun item => mimeType item = type (file item))
      (fst (fst (forEach_file random_id createObjectURL files n acc raised))).
Proof.
  induction files as [|f files IH]; intros n acc raised Hacc; cbn [forEach_file].
  - exact Hacc.
  - destruct (negb (startsWith "image/" (type f))
              && negb (String.eqb (type f) "application/pdf")).
    + apply IH, Hacc.
    + apply IH. apply Forall_app. split; [exact Hacc|].
      constructor; [reflexivity | constructor].
Qed.

Lemma processFiles_fresh random_id createObjectURL (files : list File) (st : State) :
  exists fresh,
    processFiles random_id createObjectURL files st =
      {| items := (items st ++ fresh)%list;
         selectedId := match fresh with
                       | first :: _ => Some (id first)
                       | [] => selectedId st
                       end;
         alerts := (alerts st
                    ++ map notice (filter (fun f => negb (accepted f)) files))%list;
         tasks := (tasks st ++ map Compressing fresh)%list;
         draws := (draws st + List.length fresh)%nat |}
    /\ map file fresh = filter accepted files
    /\ Forall pristine fresh
    /\ Forall (fun item => mimeType item = type (file item)) fresh.
Proof.
  destruct (forEach_file_spec random_id createObjectURL files (draws st) [] [])
    as (fresh & E & Hf & Hp & _).
  pose proof (forEach_file_media random_id createObjectURL files (draws st) [] []
                (Forall_nil _)) as Hm.
  rewrite E in Hm. cbn [fst app] in Hm.
  exists fresh. unfold processFiles. rewrite E. cbn [app].
  repeat split; assumption.
Qed.

Lemma compressImage_media readable decode getContext2d serialize
    (f : File) (p : Payload) :
  accepted f = true ->
  compressImage readable decode getContext2d serialize f = Resolved p ->
  payload_mimeType p = "image/jpeg" \/ payload_mimeType p = "application/pdf".
Proof.
  unfold compressImage, accepted. intros Hacc.
  destruct (startsWith "image/" (type f)); cbn [negb andb] in *.
  - destruct (readAsDataURL readable f); [|discriminate].
    destruct (decode s); [|discriminate].
    destruct (getContext2d _ _); [|discriminate].
    intros [= <-]. left. reflexivity.
  - destruct (readAsDataURL readable f); [|discriminate].
    intros [= <-]. right. cbn.
    apply negb_true_iff, negb_false_iff in Hacc. apply String.eqb_eq. exact Hacc.
Qed.

Section Reachability.

Variable random_id : nat -> string.
Variable createObjectURL : nat -> File -> string.
Variable JSON_parse : string -> Parse.
Variable readable : File -> bool.
Variable decode : string -> option Image.
Variable getContext2d : Z -> Z -> bool.
Variable serialize : Canvas -> string -> spec_float -> option (list byte).

Local Abbreviation step :=
  (next random_id createObjectURL JSON_parse readable decode
     getContext2d serialize).
Local Abbreviation steps :=
  (run random_id createObjectURL JSON_parse readable decode
     getContext2d serialize).

Lemma run_invariant (P : State -> Prop) :
  (forall st e st', P st -> step st e = Some st' -> P st') ->
  forall es st st', P st -> steps st es = Some st' -> P st'.
Proof.
  intros Hstep. induction es as [|e es IH]; intros st st' HP; cbn [run].
  - intros [= <-]. exact HP.
  - destruct (step st e) as [st1|] eqn:E; [|discriminate].
    apply IH. eapply Hstep; eauto.
Qed.

Lemma run_invariant_where (Q : Event -> Prop) (P : State -> Prop) :
  (forall st e st', Q e -> P st -> step st e = Some st' -> P st') ->
  forall es st st', Forall Q es -> P st -> steps st es = Some st' -> P st'.
Proof.
  intros Hstep. induction es as [|e es IH]; intros st st' HQ HP; cbn [run].
  - intros [= <-]. exact HP.
  - destruct (step st e) as [st1|] eqn:E; [|discriminate].
    inversion HQ as [|? ? Hq Hqs]; subst.
    apply IH; [exact Hqs|]. eapply Hstep; eauto.
Qed.

Lemma wellformed_initial : wellformed initial.
Proof. split; cbn; try tauto; discriminate. Qed.

Lemma wellformed_processFiles (files : list File) (st : State) :
  wellformed st -> wellformed (processFiles random_id createObjectURL files st).
Proof.
  intros [HS HL HA HT HN HE].
  destruct (processFiles_fresh random_id createObjectURL files st)
    as (fresh & -> & Hf & Hp & Hm).
  split; cbn [items selectedId alerts tasks].
  - intros s. destruct fresh as [|first rest].
    + intros Hs. destruct (HS s Hs) as (item & Hin & Hid).
      exists item. split; [apply in_or_app; left; exact Hin | exact Hid].
    + intros [= <-]. exists first. split; [|reflexivity].
      apply in_or_app. right. left. reflexivity.
  - intros item [Hin|Hin]%in_app_or Hl; [exact (HL item Hin Hl)|].
    eapply Forall_forall in Hp; eauto.
  - intros item [Hin|Hin]%in_app_or; [exact (HA item Hin)|]. split.
    + assert (Hv : In (file item) (filter accepted files))
        by (rewrite <- Hf; apply in_map, Hin).
      apply filter_In in Hv. tauto.
    + eapply Forall_forall in Hm; eauto.
  - intros t [Hin|Hin]%in_app_or; [exact (HT t Hin)|].
    apply in_map_iff in Hin as (item & <- & Hin). cbn.
    assert (Hv : In (file item) (filter accepted files))
      by (rewrite <- Hf; apply in_map, Hin).
    apply filter_In in Hv. tauto.
  - intros a [Hin|Hin]%in_app_or; [exact (HN a Hin)|].
    apply in_map_iff in Hin as (f & <- & Hin). apply filter_In in Hin as [_ Hin].
    exists f. split; [apply negb_true_iff, Hin | reflexivity].
  - intros item e [Hin|Hin]%in_app_or He; [exact (HE item e Hin He)|].
    eapply Forall_forall in Hp; eauto. destruct Hp as (_ & _ & Hnone). congruence.
Qed.

Lemma wellformed_removeItem (i : string) (st : State) :
  wellformed st -> wellformed (removeItem i st).
Proof.
  intros [HS HL HA HT HN HE].
  assert (Hsub : forall item,
             In item (filter (fun x => negb (String.eqb (id x) i)) (items st)) ->
             In item (items st))
    by (intros item H; apply filter_In in H; tauto).
  split; cbn [items selectedId alerts tasks removeItem]; auto.
  intros s. destruct (selectedId st) as [s0|] eqn:Hsel; [|discriminate].
  destruct (String.eqb_spec s0 i) as [->|Hne].
  - destruct (filter _ (items st)) as [|first rest] eqn:Ef; [discriminate|].
    intros [= <-]. exists first. split; [left|]; reflexivity.
  - intros [= <-]. destruct (HS s0 eq_refl) as (item & Hin & Hid).
    exists item. split; [|exact Hid]. apply filter_In. split; [exact Hin|].
    apply negb_true_iff, String.eqb_neq. congruence.
Qed.

Lemma wellformed_settle (g : FileItem -> FileItem) (i : string) (k : nat)
    (st : State) :
  (forall x, id (g x) = id x /\ file (g x) = file x
             /\ mimeType (g x) = mimeType x
             /\ (loading (g x) = false \/ g x = x)
             /\ (forall e, error (g x) = Some e ->
                   error x = Some e
                   \/ (loading (g x) = false /\ truthy e = true))) ->
  wellformed st ->
  wellformed (with_items st
                (map (fun item => if String.eqb (id item) i then g item else item)
                   (items st))
                (drop_nth k (tasks st))).
Proof.
  intros Hg [HS HL HA HT HN HE].
  assert (Hgid : forall x, id (g x) = id x) by (intros x; apply Hg).
  split; cbn [items selectedId alerts tasks with_items]; auto.
  - intros s Hs. destruct (HS s Hs) as (item & Hin & Hid).
    exists (if String.eqb (id item) i then g item else item). split.
    + apply in_map_iff. exists item. auto.
    + destruct (String.eqb (id item) i); [rewrite Hgid|]; exact Hid.
  - intros x Hx Hl.
    apply (merged_In g i) in Hx as [[Hx Hne]|(item & Hin & Hid & ->)];
      [exact (HL x Hx Hl)|].
    destruct (Hg item) as (_ & _ & _ & [Hload|Hsame] & _); [congruence|].
    rewrite Hsame in *. exact (HL item Hin Hl).
  - intros x Hx.
    apply (merged_In g i) in Hx as [[Hx _]|(item & Hin & _ & ->)];
      [exact (HA x Hx)|].
    destruct (Hg item) as (_ & -> & -> & _). exact (HA item Hin).
  - intros t' Ht'. apply HT. eapply in_drop_nth, Ht'.
  - intros x e Hx He.
    apply (merged_In g i) in Hx as [[Hx _]|(item & Hin & _ & ->)];
      [exact (HE x e Hx He)|].
    destruct (Hg item) as (_ & _ & _ & Hload & Herr).
    destruct (Herr e He) as [Hold|Hnew]; [|exact Hnew].
    destruct (HE item e Hin Hold) as [H1 H2]. split; [|exact H2].
    destruct Hload as [Hload|Hsame]; [exact Hload | rewrite Hsame; exact H1].
Qed.

Lemma set_nth_In (k : nat) (y t : Task) (l : list Task) :
  In t (set_nth k y l) -> t = y \/ In t l.
Proof.
  revert k. induction l as [|a l IH]; intros [|k] Ht; cbn in Ht;
    try contradiction.
  - destruct Ht as [<-|Ht]; [left; reflexivity | right; right; exact Ht].
  - destruct Ht as [<-|Ht]; [right; left; reflexivity|].
    destruct (IH k Ht); [left | right; right]; assumption.
Qed.

Lemma wellformed_step (st st' : State) (e : Event) :
  wellformed st -> step st e = Some st' -> wellformed st'.
Proof.
  intros Hok. destruct e as [files|i|s|k|k r]; cbn [next].
  - intros [= <-]. apply wellformed_processFiles, Hok.
  - intros [= <-]. apply wellformed_removeItem, Hok.
  - destruct Hok as [HS HL HA HT HN HE]. destruct s as [i|].
    + destruct (existsb _ _) eqn:Hex; [|discriminate]. intros [= <-].
      split; cbn [items selectedId alerts tasks]; auto.
      intros s [= <-]. apply existsb_exists in Hex as (item & Hin & Hid).
      exists item. split; [exact Hin | apply String.eqb_eq, Hid].
    + intros [= <-]. split; cbn [items selectedId alerts tasks]; auto.
      discriminate.
  - destruct (nth_error (tasks st) k) as [[item|]|] eqn:Hk; try discriminate.
    destruct (compressImage _ _ _ _ _) as [p|] eqn:Hc; intros [= <-].
    + destruct Hok as [HS HL HA HT HN HE].
      split; cbn [items selectedId alerts tasks with_items]; auto.
      intros t Ht. apply set_nth_In in Ht as [->|Hin]; [|exact (HT t Hin)].
      cbn. eapply compressImage_media; [|exact Hc].
      exact (HT _ (nth_error_In _ _ Hk)).
    + apply (wellformed_settle
               (fun x => {| id := id x; file := file x; previewUrl := previewUrl x;
                            mimeType := mimeType x; loading := false;
                            result := result x;
                            error := Some "Failed to process image." |})
               (id item) k st); auto.
      intros x. cbn. repeat split; auto.
      intros e [= <-]. right. split; reflexivity.
  - destruct (nth_error (tasks st) k) as [[|i b m]|] eqn:Hk; try discriminate.
    intros [= <-].
    destruct (analyzeItem_merge_full JSON_parse i r)
      as (g & -> & Hg & Hstop & Hsame & Herr & _).
    apply wellformed_settle; [|exact Hok].
    intros x. destruct (Hg x) as (H1 & H2 & _ & H4).
    split; [exact H1|]. split; [exact H2|]. split; [exact H4|]. split.
    + destruct (merges JSON_parse r) eqn:Hm; [left; auto | right; auto].
    + intros e He. destruct (Herr x e He) as [Hold|(Hl & Ht & _)]; auto.
Qed.

Lemma wellformed_reachable (st : State) :
  reachable random_id createObjectURL JSON_parse readable decode
    getContext2d serialize st ->
  wellformed st.
Proof.
  intros (es & Hrun).
  exact (run_invariant wellformed
           (fun a e b => wellformed_step a b e) es initial st
           wellformed_initial Hrun).
Qed.

(** Entries that are loading keep a pipeline as long as every analysis
    reaches a [setItems] call. *)
Lemma attended_settle (g : FileItem -> FileItem) (i : string) (k : nat)
    (t : Task) (st : State) :
  (forall x, loading (g x) = false) ->
  nth_error (tasks st) k = Some t -> task_ident t = i ->
  attended st ->
  attended (with_items st
              (map (fun item => if String.eqb (id item) i then g item else item)
                 (items st))
              (drop_nth k (tasks st))).
Proof.
  intros Hg Hk Hti Hat x Hx Hl. cbn [items tasks with_items] in *.
  apply in_map_iff in Hx as (item & E & Hin).
  destruct (String.eqb_spec (id item) i) as [Hi|Hne]; subst x;
    [rewrite Hg in Hl; discriminate|].
  rewrite map_drop_nth.
  apply (in_drop_nth_other k _ (id item) i); [|exact (Hat item Hin Hl) | exact Hne].
  rewrite nth_error_map, Hk. cbn. rewrite Hti. reflexivity.
Qed.

Lemma attended_step (st st' : State) (e : Event) :
  handled JSON_parse e -> attended st -> step st e = Some st' -> attended st'.
Proof.
  intros Hh Hat. destruct e as [files|i|s|k|k r]; cbn [next].
  - intros [= <-].
    destruct (processFiles_fresh random_id createObjectURL files st)
      as (fresh & -> & _).
    intros item [Hin|Hin]%in_app_or Hl; cbn [tasks]; rewrite map_app;
      apply in_or_app.
    + left. exact (Hat item Hin Hl).
    + right. rewrite map_map. cbn [task_ident]. apply (in_map id), Hin.
  - intros [= <-] item Hin Hl. cbn [items tasks removeItem] in *.
    apply filter_In in Hin as [Hin _]. exact (Hat item Hin Hl).
  - destruct s as [i|]; [destruct (existsb _ _); [|discriminate]|];
      intros [= <-]; exact Hat.
  - destruct (nth_error (tasks st) k) as [[item|]|] eqn:Hk; try discriminate.
    destruct (compressImage _ _ _ _ _) as [p|]; intros [= <-].
    + intros x Hx Hl. cbn [items tasks with_items] in *.
      rewrite (map_set_nth task_ident k
                 (Analyzing (id item) (data p) (payload_mimeType p))
                 (Compressing item) _ Hk eq_refl).
      exact (Hat x Hx Hl).
    + apply (attended_settle
               (fun x => {| id := id x; file := file x; previewUrl := previewUrl x;
                            mimeType := mimeType x; loading := false;
                            result := result x;
                            error := Some "Failed to process image." |})
               (id item) k (Compressing item) st); auto.
  - destruct (nth_error (tasks st) k) as [[|i b m]|] eqn:Hk; try discriminate.
    intros [= <-].
    destruct (analyzeItem_merge_full JSON_parse i r)
      as (g & -> & _ & Hstop & _).
    eapply attended_settle; [apply Hstop, Hh | exact Hk | reflexivity | exact Hat].
Qed.

(** Stored messages stay within 60 characters as long as no failure
    carries a message that is not a string. *)
Lemma concise_settle (g : FileItem -> FileItem) (i : string) (k : nat)
    (st : State) :
  (forall x e, error (g x) = Some e ->
     error x = Some e \/ (String.length e <= 60)%nat) ->
  concise st ->
  concise (with_items st
             (map (fun item => if String.eqb (id item) i then g item else item)
                (items st))
             (drop_nth k (tasks st))).
Proof.
  intros Hg Hc x e Hx He. cbn [items with_items] in Hx.
  apply in_map_iff in Hx as (item & E & Hin).
  destruct (String.eqb (id item) i); subst x; [|exact (Hc item e Hin He)].
  destruct (Hg item e He) as [Hold|Hnew]; [exact (Hc item e Hin Hold) | exact Hnew].
Qed.

Lemma concise_step (st st' : State) (e : Event) :
  textual e -> concise st -> step st e = Some st' -> concise st'.
Proof.
  intros Ht Hc. destruct e as [files|i|s|k|k r]; cbn [next].
  - intros [= <-].
    destruct (processFiles_fresh random_id createObjectURL files st)
      as (fresh & -> & _ & Hp & _).
    intros item e [Hin|Hin]%in_app_or He; [exact (Hc item e Hin He)|].
    eapply Forall_forall in Hp; eauto. destruct Hp as (_ & _ & Hnone). congruence.
  - intros [= <-] item e Hin He. cbn [items removeItem] in Hin.
    apply filter_In in Hin as [Hin _]. exact (Hc item e Hin He).
  - destruct s as [i|]; [destruct (existsb _ _); [|discriminate]|];
      intros [= <-]; exact Hc.
  - destruct (nth_error (tasks st) k) as [[item|]|] eqn:Hk; try discriminate.
    destruct (compressImage _ _ _ _ _) as [p|]; intros [= <-]; [exact Hc|].
    apply (concise_settle
             (fun x => {| id := id x; file := file x; previewUrl := previewUrl x;
                          mimeType := mimeType x; loading := false;
                          result := result x;
                          error := Some "Failed to process image." |})
             (id item) k st); [|exact Hc].
    intros x e [= <-]. right. cbn. lia.
  - destruct (nth_error (tasks st) k) as [[|i b m]|] eqn:Hk; try discriminate.
    intros [= <-].
    destruct (analyzeItem_merge_full JSON_parse i r)
      as (g & -> & _ & _ & _ & Herr & _).
    apply concise_settle; [|exact Hc].
    intros x e He. destruct (Herr x e He) as [Hold|(_ & _ & Hlen)]; auto.
Qed.

(** Stored results are [null] or values of the parser. *)
Lemma results_parsed_step (st st' : State) (e : Event) :
  results_parsed JSON_parse st -> step st e = Some st' ->
  results_parsed JSON_parse st'.
Proof.
  intros Hr.
  assert (Hsettle : forall (g : FileItem -> FileItem) i k,
            (forall x, result (g x) = result x
                       \/ exists text, JSON_parse text = Parsed (result (g x))) ->
            results_parsed JSON_parse
              (with_items st
                 (map (fun item => if String.eqb (id item) i then g item else item)
                    (items st))
                 (drop_nth k (tasks st)))).
  { intros g i k Hg x Hx. cbn [items with_items] in Hx.
    apply in_map_iff in Hx as (item & E & Hin).
    destruct (String.eqb (id item) i); subst x; [|exact (Hr item Hin)].
    destruct (Hg item) as [-> | Ht]; [exact (Hr item Hin) | right; exact Ht]. }
  destruct e as [files|i|s|k|k r]; cbn [next].
  - intros [= <-].
    destruct (processFiles_fresh random_id createObjectURL files st)
      as (fresh & -> & _ & Hpr & _).
    intros item [Hin|Hin]%in_app_or; [exact (Hr item Hin)|].
    eapply Forall_forall in Hpr; eauto. destruct Hpr as (_ & Hnull & _).
    left. exact Hnull.
  - intros [= <-] item Hin. cbn [items removeItem] in Hin.
    apply filter_In in Hin as [Hin _]. exact (Hr item Hin).
  - destruct s as [i|]; [destruct (existsb _ _); [|discriminate]|];
      intros [= <-]; exact Hr.
  - destruct (nth_error (tasks st) k) as [[item|]|] eqn:Hk; try discriminate.
    destruct (compressImage _ _ _ _ _) as [p|]; intros [= <-]; [exact Hr|].
    apply (Hsettle
             (fun x => {| id := id x; file := file x; previewUrl := previewUrl x;
                          mimeType := mimeType x; loading := false;
                          result := result x;
                          error := Some "Failed to process image." |})).
    intros x. left. reflexivity.
  - destruct (nth_error (tasks st) k) as [[|i b m]|] eqn:Hk; try discriminate.
    intros [= <-].
    destruct (analyzeItem_merge_full JSON_parse i r)
      as (g & -> & _ & _ & _ & _ & Hres).
    apply Hsettle. exact Hres.
Qed.

End Reachability.

Lemma find_by_id (s : string) (l : list FileItem) :
  (exists item, In item l /\ id item = s) ->
  exists item, find (fun x => String.eqb (id x) s) l = Some item
               /\ In item l /\ id item = s.
Proof.
  intros (item & Hin & Hid).
  destruct (find (fun x => String.eqb (id x) s) l) as [found|] eqn:E.
  - apply find_some in E as [Hf He]. exists found.
    repeat split; [exact Hf | apply String.eqb_eq, He].
  - exfalso. pose proof (find_none _ _ E item Hin) as Hno.
    cbn in Hno. rewrite Hid, String.eqb_refl in Hno. discriminate.
Qed.

(** X5: the selection never dangles.  In every reachable state a non-null
    [selectedId] is the identity of an entry of the collection, so
    [selectedItem] is found and the main panel shows its card; the
    placeholder is shown exactly when nothing is selected. *)
Theorem selection_never_dangles random_id createObjectURL JSON_parse readable
    decode getContext2d serialize (st : State) :
  reachable random_id createObjectURL JSON_parse readable decode
    getContext2d serialize st ->
  (forall s, selectedId st = Some s ->
     exists item, selectedItem st = Some item /\ id item = s
                  /\ In item (items st)
                  /\ mainPanel st = Card item (body item))
  /\ (mainPanel st = ReadyToAnalyze <-> selectedId st = None).
Proof.
  intros Hreach.
  pose proof (wellformed_reachable _ _ _ _ _ _ _ st Hreach) as [HS _ _ _ _ _].
  assert (Hsel : forall s, selectedId st = Some s ->
             exists item, selectedItem st = Some item /\ id item = s
                          /\ In item (items st)
                          /\ mainPanel st = Card item (body item)).
  { intros s Hs. destruct (find_by_id s (items st) (HS s Hs)) as (item & Hf & Hin & Hid).
    exists item. unfold mainPanel, selectedItem. rewrite Hs, Hf. auto. }
  split; [exact Hsel|]. split.
  - intros Hready. destruct (selectedId st) as [s|] eqn:Hs; [|reflexivity].
    destruct (Hsel s eq_refl) as (item & _ & _ & _ & Hcard). congruence.
  - intros Hnone. unfold mainPanel, selectedItem. rewrite Hnone. reflexivity.
Qed.

Lemma selection_never_dangles_witness :
  mainPanel Samples.after_second_file
  = Card Samples.second_item (body Samples.second_item).
Proof.
  destruct (selection_never_dangles Samples.tally Samples.blob_url
              Samples.parse_healthy Samples.always_readable Samples.decode_photo
              Samples.context_available Samples.encode_stub
              Samples.after_second_file) as [H _].
  - exists (Samples.one_document Samples.healthy_reply ++ [AddFiles [Samples.leaf_png]])%list.
    vm_compute. reflexivity.
  - destruct (H "k" eq_refl) as (item & Hf & _ & _ & Hcard).
    vm_compute in Hf. injection Hf as <-. exact Hcard.
Defined.

(** X6: no spinner without a pipeline, as long as no [catch] block
    throws.  After any run, whatever identifiers were drawn, an entry that
    is loading has neither result nor error.  When every analysis of the
    run reached one of its [setItems] calls, a pipeline with the identity
    of each loading entry is in flight, and once no pipeline is in flight
    no entry is loading. *)
Theorem loading_entries_have_a_pipeline random_id createObjectURL JSON_parse
    readable decode getContext2d serialize (es : list Event) (st : State) :
  run random_id createObjectURL JSON_parse readable decode
    getContext2d serialize initial es = Some st ->
  (forall item, In item (items st) -> loading item = true ->
     result item = Json.Null /\ error item = None)
  /\ (Forall (handled JSON_parse) es ->
      (forall item, In item (items st) -> loading item = true ->
         In (id item) (map task_ident (tasks st)))
      /\ (tasks st = [] ->
          forall item, In item (items st) -> loading item = false)).
Proof.
  intros Hrun.
  pose proof (wellformed_reachable _ _ _ _ _ _ _ st (ex_intro _ es Hrun))
    as [_ HL _ _ _ _].
  split.
  - intros item Hin Hl. destruct (HL item Hin Hl) as (_ & Hr & He). auto.
  - intros Hh.
    assert (Hat : attended st).
    { refine (run_invariant_where random_id createObjectURL JSON_parse readable
                decode getContext2d serialize (handled JSON_parse) attended
                _ es initial st Hh _ Hrun).
      - intros a e b. apply attended_step.
      - intros item []. }
    split; [exact Hat|].
    intros Hnone item Hin. destruct (loading item) eqn:Hl; [|reflexivity].
    pose proof (Hat item Hin Hl) as Hfl. rewrite Hnone in Hfl. destruct Hfl.
Qed.

Lemma loading_entries_have_a_pipeline_witness :
  In "k" (map task_ident (tasks Samples.after_second_file))
  /\ loading Samples.done_item = false.
Proof.
  destruct (loading_entries_have_a_pipeline Samples.tally Samples.blob_url
              Samples.parse_healthy Samples.always_readable Samples.decode_photo
              Samples.context_available Samples.encode_stub
              (Samples.one_document Samples.healthy_reply
               ++ [AddFiles [Samples.leaf_png]])%list
              Samples.after_second_file) as [_ H].
  - vm_compute. reflexivity.
  - destruct H as [H _].
    + repeat (constructor; [first [exact I | reflexivity]|]). constructor.
    + split; [|reflexivity].
      apply (H Samples.second_item); [right; left; reflexivity | reflexivity].
Defined.

(** A rejection with [null] strands the entry: the pipeline is over, and
    the entry keeps its spinner. *)
Example stranded_entry :
  Samples.app Samples.tally Samples.parse_healthy initial
    (Samples.one_failure Nullish) = Some Samples.stranded
  /\ map loading (items Samples.stranded) = [true]
  /\ tasks Samples.stranded = []
  /\ body Samples.stranded_item = Spinner.
Proof. repeat split. Qed.

(** X7: only validated files are stored and only rejected files are
    announced.  In every reachable state each entry holds a file that
    passed the validation, its mimeType is that file's type, and it is
    application/pdf exactly when it is not an image type (the sidebar draws
    the PDF tile for the former and the preview image for the latter);
    every alert raised so far is the notice of a rejected file. *)
Theorem stored_entries_are_validated random_id createObjectURL JSON_parse
    readable decode getContext2d serialize (st : State) :
  reachable random_id createObjectURL JSON_parse readable decode
    getContext2d serialize st ->
  (forall item, In item (items st) ->
     accepted (file item) = true
     /\ mimeType item = type (file item)
     /\ (mimeType item = "application/pdf"
         <-> startsWith "image/" (mimeType item) = false))
  /\ (forall a, In a (alerts st) ->
        exists f, accepted f = false /\ a = notice f).
Proof.
  intros Hreach.
  pose proof (wellformed_reachable _ _ _ _ _ _ _ st Hreach) as [_ _ HA _ HN _].
  split; [|exact HN].
  intros item Hin. destruct (HA item Hin) as [Hacc Hm].
  split; [exact Hacc|]. split; [exact Hm|]. rewrite Hm. split.
  - intros ->. reflexivity.
  - intros Himg. unfold accepted in Hacc. rewrite Himg in Hacc. cbn in Hacc.
    apply negb_true_iff, negb_false_iff in Hacc. apply String.eqb_eq. exact Hacc.
Qed.

Lemma stored_entries_are_validated_witness :
  accepted (file Samples.second_item) = true
  /\ mimeType Samples.second_item = type (file Samples.second_item).
Proof.
  destruct (stored_entries_are_validated Samples.tally Samples.blob_url
              Samples.parse_healthy Samples.always_readable Samples.decode_photo
              Samples.context_available Samples.encode_stub
              Samples.after_second_file) as [H _].
  - exists (Samples.one_document Samples.healthy_reply ++ [AddFiles [Samples.leaf_png]])%list.
    vm_compute. reflexivity.
  - destruct (H Samples.second_item) as (H1 & H2 & _);
      [right; left; reflexivity | auto].
Defined.

(** X8: the remote model is only ever handed a payload declared
    image/jpeg or application/pdf: in every reachable state each pipeline
    awaiting the model carries one of these two media types. *)
Theorem payloads_are_jpeg_or_pdf random_id createObjectURL JSON_parse
    readable decode getContext2d serialize (st : State)
    (k : nat) (i : string) (base64Data : option string) (m : string) :
  reachable random_id createObjectURL JSON_parse readable decode
    getContext2d serialize st ->
  nth_error (tasks st) k = Some (Analyzing i base64Data m) ->
  m = "image/jpeg" \/ m = "application/pdf".
Proof.
  intros Hreach Hk.
  pose proof (wellformed_reachable _ _ _ _ _ _ _ st Hreach) as [_ _ _ HT _ _].
  exact (HT _ (nth_error_In _ _ Hk)).
Qed.

Lemma payloads_are_jpeg_or_pdf_witness :
  nth_error (tasks Samples.png_awaiting_model) 0
    = Some (Analyzing "" (Some "/9j/4AAQ") "image/jpeg")
  /\ ("image/jpeg" = "image/jpeg" \/ "image/jpeg" = "application/pdf").
Proof.
  split; [reflexivity|].
  apply (payloads_are_jpeg_or_pdf Samples.tally Samples.blob_url
           Samples.parse_healthy Samples.always_readable Samples.decode_photo
           Samples.context_available Samples.encode_stub
           Samples.png_awaiting_model 0 "" (Some "/9j/4AAQ") "image/jpeg").
  - exists [AddFiles [Samples.leaf_png]; CompressionSettles 0].
    vm_compute. reflexivity.
  - reflexivity.
Defined.

(** X9: a stored error is always shown.  After any run an entry whose
    error is set is not loading, the message is not empty, the sidebar
    shows the error tag and the card shows the failure panel with that
    message, also when the entry has a result as well.  The message has
    at most 60 characters when every failure of the run carried a string
    as its message, or none. *)
Theorem stored_errors_are_shown random_id createObjectURL JSON_parse
    readable decode getContext2d serialize (es : list Event) (st : State)
    (item : FileItem) (e : string) :
  run random_id createObjectURL JSON_parse readable decode
    getContext2d serialize initial es = Some st ->
  In item (items st) -> error item = Some e ->
  loading item = false
  /\ truthy e = true
  /\ sidebarStatus item = ShowsError
  /\ body item = AnalysisFailed e
  /\ (Forall textual es -> (String.length e <= 60)%nat).
Proof.
  intros Hrun Hin He.
  pose proof (wellformed_reachable _ _ _ _ _ _ _ st (ex_intro _ es Hrun))
    as [_ _ _ _ _ HE].
  destruct (HE item e Hin He) as (Hl & Ht).
  split; [exact Hl|]. split; [exact Ht|]. split; [|split].
  - unfold sidebarStatus. rewrite Hl, He, Ht. reflexivity.
  - unfold body. rewrite Hl, He, Ht. reflexivity.
  - intros Htext.
    assert (Hc : concise st).
    { refine (run_invariant_where random_id createObjectURL JSON_parse readable
                decode getContext2d serialize textual concise
                _ es initial st Htext _ Hrun).
      - intros a ev b. apply concise_step.
      - intros x m []. }
    exact (Hc item e Hin He).
Qed.

Lemma stored_errors_are_shown_witness :
  body Samples.twice_merged_item
  = AnalysisFailed "Service temporarily unavailable. Retrying might help.".
Proof.
  apply (stored_errors_are_shown Samples.stuck Samples.blob_url
           Samples.parse_healthy Samples.always_readable Samples.decode_photo
           Samples.context_available Samples.encode_stub
           (Samples.two_files_first_succeeds ++ Samples.second_fails)%list
           Samples.both_merged Samples.twice_merged_item).
  - vm_compute. reflexivity.
  - left. reflexivity.
  - reflexivity.
Defined.

(** A failure whose message is an array with one long string leaves a
    stored message of 82 characters. *)
Example stored_message_of_array :
  exists st item,
    Samples.app Samples.tally Samples.parse_healthy initial
      (Samples.one_failure (Caught Samples.array_message)) = Some st
    /\ items st = [item]
    /\ error item = Some ("Error: " ++ Samples.long_text ++ "...")
    /\ String.length ("Error: " ++ Samples.long_text ++ "...") = 82%nat.
Proof.
  eexists. eexists. split; [vm_compute; reflexivity|]. repeat split.
Qed.

(** X10: the card never falls through.  When no two draws give the same
    identifier and every value the parser returns passes for true, the
    conditional in the card of an entry of a reachable state never reaches
    its final [null]: it takes the spinner, the failure panel or the
    report block.  An entry that is neither loading nor failed takes the
    report block with a value that the parser returned for some text, and
    the badge of the sidebar is given that value's [overallStatus]; for a
    value of the declared type this is its status text. *)
Theorem card_never_falls_through random_id createObjectURL JSON_parse readable
    decode getContext2d serialize (st : State) (item : FileItem) :
  (forall m n, random_id m = random_id n -> m = n) ->
  (forall text v, JSON_parse text = Parsed v -> Json.truthy v = true) ->
  reachable random_id createObjectURL JSON_parse readable decode
    getContext2d serialize st ->
  In item (items st) ->
  body item <> Blank
  /\ (loading item = false -> error item = None ->
      (exists text, JSON_parse text = Parsed (result item))
      /\ Json.truthy (result item) = true
      /\ body item = Report (result item)
      /\ sidebarStatus item
         = ShowsStatus (Json.get "overallStatus" (result item))
             (Json.is_string "Healthy"
                (Json.get "overallStatus" (result item)))
      /\ (forall r, result item = Json.of_AnalysisResult r ->
            sidebarStatus item
            = ShowsStatus (Some (Json.Str (overallStatus r)))
                (String.eqb (overallStatus r) "Healthy"))).
Proof.
  intros Hinj Htruthy Hreach Hin.
  pose proof (wellformed_reachable _ _ _ _ _ _ _ st Hreach) as [_ _ _ _ _ HE].
  destruct Hreach as (es & Hrun).
  assert (Hnn : forall text, JSON_parse text <> Parsed Json.Null).
  { intros text Hp. apply Htruthy in Hp. discriminate. }
  assert (Hone : exactly_one item).
  { refine (exactly_one_run random_id createObjectURL JSON_parse readable decode
              getContext2d serialize Hinj Hnn es initial st
              (consistent_initial random_id JSON_parse decode) _ Hrun item Hin).
    intros x []. }
  assert (Hres : results_parsed JSON_parse st).
  { refine (run_invariant random_id createObjectURL JSON_parse readable
              decode getContext2d serialize (results_parsed JSON_parse)
              _ es initial st _ Hrun).
    - intros a e b. apply results_parsed_step.
    - intros x []. }
  unfold exactly_one, isLoading, hasError, hasResult in Hone.
  unfold body, sidebarStatus.
  destruct (loading item) eqn:Hl.
  - split; [discriminate|]. discriminate.
  - destruct (error item) as [e|] eqn:He.
    + destruct (HE item e Hin He) as (_ & ->).
      split; [discriminate|]. discriminate.
    + assert (Hparsed : exists text, JSON_parse text = Parsed (result item)).
      { destruct (Hres item Hin) as [Hnull|Hp]; [|exact Hp]. exfalso.
        destruct Hone as [(H & _)|[(_ & H & _)|(_ & _ & H)]];
          [discriminate H | apply H; reflexivity | exact (H Hnull)]. }
      destruct Hparsed as (text & Hp).
      rewrite (Htruthy text _ Hp).
      split; [discriminate|]. intros _ _.
      split; [exists text; exact Hp|]. repeat split.
      intros r ->. cbn. reflexivity.
Qed.

Lemma card_never_falls_through_witness :
  body Samples.done_item <> Blank.
Proof.
  apply (card_never_falls_through Samples.tally Samples.blob_url
           Samples.parse_healthy Samples.always_readable Samples.decode_photo
           Samples.context_available Samples.encode_stub
           Samples.after_document Samples.done_item tally_injective).
  - intros text v. unfold Samples.parse_healthy.
    destruct (String.eqb text Samples.healthy_reply); [|discriminate].
    intros [= <-]. reflexivity.
  - exists (Samples.one_document Samples.healthy_reply). vm_compute. reflexivity.
  - left. reflexivity.
Defined.

(** The reply [false] is not [null], so the entry counts as having a
    result; it does not pass for true, and the card falls through to its
    final [null]. *)
Example card_blank_for_false :
  exists st item,
    Samples.app Samples.tally Samples.parse_null initial
      (Samples.one_document "false") = Some st
    /\ items st = [item]
    /\ loading item = false /\ error item = None
    /\ result item = Json.Boolean false
    /\ body item = Blank.
Proof.
  eexists. eexists. split; [vm_compute; reflexivity|]. repeat split.
Qed.

(** ** One compression and at most one analysis per accepted file *)

Section Counting.

Context {A : Type}.
Variable p : A -> bool.

Local Abbreviation count l := (List.length (filter p l)).
Local Abbreviation unit_if b := (if b then 1 else 0)%nat.

Lemma count_drop_nth (k : nat) (l : list A) (t : A) :
  nth_error l k = Some t ->
  (count (drop_nth k l) + unit_if (p t) = count l)%nat.
Proof.
  revert k. induction l as [|a l IH]; intros [|k] Hk; cbn in *; try discriminate.
  - injection Hk as ->. destruct (p t); cbn; lia.
  - specialize (IH k Hk). destruct (p a); cbn; lia.
Qed.

Lemma count_set_nth (k : nat) (y : A) (l : list A) (t : A) :
  nth_error l k = Some t ->
  (count (set_nth k y l) + unit_if (p t) = count l + unit_if (p y))%nat.
Proof.
  revert k. induction l as [|a l IH]; intros [|k] Hk; cbn in *; try discriminate.
  - injection Hk as ->. destruct (p t), (p y); cbn; lia.
  - specialize (IH k Hk). destruct (p a); cbn; lia.
Qed.

End Counting.

Lemma count_fresh_tasks (fresh : list FileItem) :
  List.length (filter isCompressing (map Compressing fresh)) = List.length fresh
  /\ List.length (filter isAnalyzing (map Compressing fresh)) = 0%nat.
Proof.
  induction fresh as [|x l [IH1 IH2]]; cbn; [auto|]. rewrite IH1. auto.
Qed.

Section Accounting.

Variable random_id : nat -> string.
Variable createObjectURL : nat -> File -> string.
Variable JSON_parse : string -> Parse.
Variable readable : File -> bool.
Variable decode : string -> option Image.
Variable getContext2d : Z -> Z -> bool.
Variable serialize : Canvas -> string -> spec_float -> option (list byte).

Local Abbreviation step :=
  (next random_id createObjectURL JSON_parse readable decode
     getContext2d serialize).
Local Abbreviation steps :=
  (run random_id createObjectURL JSON_parse readable decode
     getContext2d serialize).

Lemma accounting_step (st st' : State) (e : Event) :
  step st e = Some st' ->
  (draws st' + compressing st = draws st + compressing st' + compressions [e])%nat
  /\ (analyzing st' + analyses [e] <= analyzing st + compressions [e])%nat.
Proof.
  unfold compressing, analyzing.
  destruct e as [files|i|s|k|k r]; cbn [next compressions analyses].
  - intros [= <-].
    destruct (processFiles_fresh random_id createObjectURL files st)
      as (fresh & -> & _). cbn [draws tasks].
    rewrite !filter_app, !length_app.
    destruct (count_fresh_tasks fresh) as [-> ->]. lia.
  - intros [= <-]. cbn [draws tasks removeItem]. lia.
  - destruct s as [i|]; [destruct (existsb _ _); [|discriminate]|];
      intros [= <-]; cbn [draws tasks]; lia.
  - destruct (nth_error (tasks st) k) as [[item|]|] eqn:Hk; try discriminate.
    destruct (compressImage _ _ _ _ _) as [p|]; intros [= <-];
      cbn [draws tasks with_items].
    + pose proof (count_set_nth isCompressing k
                    (Analyzing (id item) (data p) (payload_mimeType p)) _ _ Hk).
      pose proof (count_set_nth isAnalyzing k
                    (Analyzing (id item) (data p) (payload_mimeType p)) _ _ Hk).
      cbn in *. lia.
    + pose proof (count_drop_nth isCompressing k _ _ Hk).
      pose proof (count_drop_nth isAnalyzing k _ _ Hk).
      cbn in *. lia.
  - destruct (nth_error (tasks st) k) as [[|i b m]|] eqn:Hk; try discriminate.
    intros [= <-]. cbn [draws tasks with_items].
    pose proof (count_drop_nth isCompressing k _ _ Hk).
    pose proof (count_drop_nth isAnalyzing k _ _ Hk).
    cbn in *. lia.
Qed.

Lemma compressions_cons (e : Event) (es : list Event) :
  compressions (e :: es) = (compressions [e] + compressions es)%nat
  /\ analyses (e :: es) = (analyses [e] + analyses es)%nat.
Proof. destruct e; cbn; auto. Qed.

Lemma accounting_run (es : list Event) :
  forall st st',
    steps st es = Some st' ->
    (draws st' + compressing st = draws st + compressing st' + compressions es)%nat
    /\ (analyzing st' + analyses es <= analyzing st + compressions es)%nat.
Proof.
  induction es as [|e es IH]; intros st st'; cbn [run].
  - intros [= <-]. cbn. lia.
  - destruct (step st e) as [st1|] eqn:E; [|discriminate]. intros Hrun.
    destruct (accounting_step st st1 e E) as [H1 H2].
    destruct (IH st1 st' Hrun) as [H3 H4].
    destruct (compressions_cons e es) as [-> ->]. lia.
Qed.

(** X11: every accepted file is compressed exactly once and analysed at
    most once.  After any run from the empty store, the number of files
    accepted so far is the number of compressions that have settled plus
    the number still compressing, and the analyses that have settled plus
    those in flight never exceed the compressions that have settled: no
    pipeline is restarted and no analysis is retried. *)
Theorem pipelines_are_accounted_for (es : list Event) (st : State) :
  steps initial es = Some st ->
  draws st = (compressions es + compressing st)%nat
  /\ (analyses es + analyzing st <= compressions es)%nat
  /\ (analyses es <= draws st)%nat.
Proof.
  intros Hrun. destruct (accounting_run es initial st Hrun) as [H1 H2].
  cbn in H1, H2. lia.
Qed.

End Accounting.

Lemma pipelines_are_accounted_for_witness :
  draws Samples.both_merged
  = (compressions (Samples.two_files_first_succeeds ++ Samples.second_fails)
     + compressing Samples.both_merged)%nat
  /\ (analyses (Samples.two_files_first_succeeds ++ Samples.second_fails)
      <= draws Samples.both_merged)%nat.
Proof.
  destruct (pipelines_are_accounted_for Samples.stuck Samples.blob_url
              Samples.parse_healthy Samples.always_readable Samples.decode_photo
              Samples.context_available Samples.encode_stub
              (Samples.two_files_first_succeeds ++ Samples.second_fails)
              Samples.both_merged) as (H1 & _ & H3).
  - vm_compute. reflexivity.
  - split; [exact H1 | exact H3].
Defined.

(** ** Batches of files *)

Section Batches.

Variable random_id : nat -> string.
Variable createObjectURL : nat -> File -> string.

Local Abbreviation forEach := (forEach_file random_id createObjectURL).
Local Abbreviation process := (processFiles random_id createObjectURL).

Lemma forEach_file_acc (files : list File) :
  forall n acc raised,
    forEach files n acc raised
    = let '(x, r, m) := forEach files n [] [] in
      ((acc ++ x)%list, (raised ++ r)%list, m).
Proof.
  induction files as [|f files IH]; intros n acc raised; cbn [forEach_file].
  - rewrite !app_nil_r. reflexivity.
  - destruct (negb (startsWith "image/" (type f))
              && negb (String.eqb (type f) "application/pdf")).
    + rewrite (IH n acc (raised ++ [notice f])%list),
        (IH n [] ([] ++ [notice f])%list).
      destruct (forEach files n [] []) as [[x r] m].
      cbn [app]. rewrite <- app_assoc. reflexivity.
    + match goal with
      | |- context [forEach files (S n) (acc ++ [?it])%list raised] =>
          rewrite (IH (S n) (acc ++ [it])%list raised),
            (IH (S n) ([] ++ [it])%list [])
      end.
      destruct (forEach files (S n) [] []) as [[x r] m].
      cbn [app]. rewrite <- app_assoc. reflexivity.
Qed.

Lemma forEach_file_app (fs1 fs2 : list File) :
  forall n acc raised,
    forEach (fs1 ++ fs2) n acc raised
    = let '(a, r, m) := forEach fs1 n acc raised in forEach fs2 m a r.
Proof.
  induction fs1 as [|f fs1 IH]; intros n acc raised; cbn [forEach_file app].
  - reflexivity.
  - destruct (negb (startsWith "image/" (type f))
              && negb (String.eqb (type f) "application/pdf")); apply IH.
Qed.

Lemma forEach_file_none (files : list File) (n : nat) :
  (forall f, In f files -> accepted f = false) ->
  forEach files n [] [] = ([], map notice files, n).
Proof.
  intros Hrej.
  destruct (forEach_file_spec random_id createObjectURL files n [] [])
    as (fresh & E & Hf & _).
  assert (Hnone : filter accepted files = []).
  { clear - Hrej. induction files as [|f files IH]; cbn; [reflexivity|].
    rewrite (Hrej f (or_introl eq_refl)). apply IH. intros g Hg. apply Hrej. right. exact Hg. }
  assert (Hall : filter (fun f => negb (accepted f)) files = files).
  { clear - Hrej. induction files as [|f files IH]; cbn; [reflexivity|].
    rewrite (Hrej f (or_introl eq_refl)). cbn. f_equal. apply IH.
    intros g Hg. apply Hrej. right. exact Hg. }
  rewrite Hnone in Hf. destruct fresh; [|discriminate].
  rewrite E, Hall. cbn. rewrite Nat.add_0_r. reflexivity.
Qed.

(** X12: two batches processed one after the other leave the entries,
    the alerts, the pipelines and the draws that the two batches processed
    as one would have left.  The selection agrees as well when one of the
    two batches has no accepted file; otherwise the later batch takes
    it. *)
Theorem processFiles_in_two_batches (fs1 fs2 : list File) (st : State) :
  items (process fs2 (process fs1 st)) = items (process (fs1 ++ fs2) st)
  /\ alerts (process fs2 (process fs1 st)) = alerts (process (fs1 ++ fs2) st)
  /\ tasks (process fs2 (process fs1 st)) = tasks (process (fs1 ++ fs2) st)
  /\ draws (process fs2 (process fs1 st)) = draws (process (fs1 ++ fs2) st)
  /\ ((forall f, In f fs1 -> accepted f = false)
      \/ (forall f, In f fs2 -> accepted f = false) ->
      selectedId (process fs2 (process fs1 st))
      = selectedId (process (fs1 ++ fs2) st))
  /\ (forall first rest,
        items (process fs2 (process fs1 st))
          = (items (process fs1 st) ++ first :: rest)%list ->
        selectedId (process fs2 (process fs1 st)) = Some (id first)).
Proof.
  assert (Hshape :
    exists x1 r1 m1 x2 r2 m2,
      forEach fs1 (draws st) [] [] = (x1, r1, m1)
      /\ forEach fs2 m1 [] [] = (x2, r2, m2)
      /\ forEach (fs1 ++ fs2) (draws st) [] [] = ((x1 ++ x2)%list, (r1 ++ r2)%list, m2)).
  { destruct (forEach fs1 (draws st) [] []) as [[x1 r1] m1] eqn:E1.
    destruct (forEach fs2 m1 [] []) as [[x2 r2] m2] eqn:E2.
    exists x1, r1, m1, x2, r2, m2.
    split; [reflexivity|]. split; [exact E2|].
    rewrite forEach_file_app, E1, forEach_file_acc, E2. reflexivity. }
  destruct Hshape as (x1 & r1 & m1 & x2 & r2 & m2 & E1 & E2 & E12).
  assert (S1 : process fs1 st
               = {| items := (items st ++ x1)%list;
                    selectedId := match x1 with
                                  | first :: _ => Some (id first)
                                  | [] => selectedId st
                                  end;
                    alerts := (alerts st ++ r1)%list;
                    tasks := (tasks st ++ map Compressing x1)%list;
                    draws := m1 |})
    by (unfold processFiles; rewrite E1; reflexivity).
  assert (Sc : process (fs1 ++ fs2) st
               = {| items := (items st ++ x1 ++ x2)%list;
                    selectedId := match (x1 ++ x2)%list with
                                  | first :: _ => Some (id first)
                                  | [] => selectedId st
                                  end;
                    alerts := (alerts st ++ r1 ++ r2)%list;
                    tasks := (tasks st ++ map Compressing (x1 ++ x2))%list;
                    draws := m2 |})
    by (unfold processFiles; rewrite E12; reflexivity).
  rewrite Sc, S1. unfold processFiles. cbn [items alerts tasks draws selectedId].
  rewrite E2. cbn [items alerts tasks draws selectedId].
  rewrite map_app, <- !app_assoc.
  split; [reflexivity|]. split; [reflexivity|]. split; [reflexivity|].
  split; [reflexivity|]. split.
  - intros [Hrej|Hrej].
    + rewrite (forEach_file_none fs1 _ Hrej) in E1. injection E1 as <- _ _.
      reflexivity.
    + rewrite (forEach_file_none fs2 _ Hrej) in E2. injection E2 as <- _ _.
      rewrite app_nil_r. reflexivity.
  - intros first rest Hnew. rewrite app_assoc in Hnew.
    apply app_inv_head in Hnew. subst x2. reflexivity.
Qed.

(** X13: a batch without any accepted file, the empty batch included,
    changes nothing but the alerts: one notice per file is added, in order,
    and the entries, the selection, the pipelines and the draws stay.  The
    drop handler and the file-input handler do the same, and do nothing
    for a missing file list. *)
Theorem rejected_batch_only_alerts (files : list File) (st : State) :
  (forall f, In f files -> accepted f = false) ->
  process files st
  = {| items := items st; selectedId := selectedId st;
       alerts := (alerts st ++ map notice files)%list;
       tasks := tasks st; draws := draws st |}
  /\ handleDrop random_id createObjectURL (Some files) st = process files st
  /\ handleFileChange random_id createObjectURL (Some files) st = process files st
  /\ handleDrop random_id createObjectURL None st = st
  /\ handleFileChange random_id createObjectURL None st = st.
Proof.
  intros Hrej.
  assert (E : process files st
              = {| items := items st; selectedId := selectedId st;
                   alerts := (alerts st ++ map notice files)%list;
                   tasks := tasks st; draws := draws st |}).
  { unfold processFiles. rewrite (forEach_file_none files _ Hrej).
    cbn [map]. rewrite !app_nil_r. reflexivity. }
  split; [exact E|].
  destruct files as [|f rest]; cbn [handleDrop handleFileChange]; auto.
  rewrite E. cbn [map]. rewrite app_nil_r. destruct st; auto.
Qed.

End Batches.

Lemma rejected_batch_only_alerts_witness :
  processFiles Samples.tally Samples.blob_url [Samples.notes_txt] Samples.two_items
  = {| items := items Samples.two_items; selectedId := Some "a";
       alerts := ["File notes.txt is not supported. Please use JPG, PNG, or PDF."];
       tasks := []; draws := 2 |}.
Proof.
  destruct (rejected_batch_only_alerts Samples.tally Samples.blob_url
              [Samples.notes_txt] Samples.two_items) as [H _].
  - intros f [<-|[]]. reflexivity.
  - rewrite H. reflexivity.
Defined.

Lemma processFiles_in_two_batches_witness :
  selectedId (processFiles Samples.tally Samples.blob_url [Samples.leaf_png]
                (processFiles Samples.tally Samples.blob_url [Samples.report_pdf]
                   initial))
  = Some "k".
Proof.
  destruct (processFiles_in_two_batches Samples.tally Samples.blob_url
              [Samples.report_pdf] [Samples.leaf_png] initial)
    as (_ & _ & _ & _ & _ & H).
  apply (H Samples.second_item []). reflexivity.
Defined.

(** ** The canvas never grows *)

Section CanvasBounds.

Local Open Scope Z_scope.

Lemma to_unsigned_long_range (x : spec_float) :
  0 <= Number.to_unsigned_long x < 2 ^ 32.
Proof.
  destruct x as [s|s| |s m e]; cbn [Number.to_unsigned_long];
    try (split; [discriminate | reflexivity]).
  apply Z.mod_pos_bound. reflexivity.
Qed.

(** X14: the normalised canvas is never larger than the image and never
    larger than 1024 on either side: for every image with sides below
    2^32, each canvas side is between 0 and the smaller of 1024 and the
    image's own side. *)
Theorem canvas_never_exceeds_image (img : Image) :
  0 <= img_width img < 2 ^ 32 -> 0 <= img_height img < 2 ^ 32 ->
  0 <= canvas_width (paint img) <= Z.min 1024 (img_width img)
  /\ 0 <= canvas_height (paint img) <= Z.min 1024 (img_height img).
Proof.
  intros Hw Hh.
  destruct (paint_dimensions img Hw Hh) as [Hbig Hsmall].
  assert (Hcw : 0 <= canvas_width (paint img))
    by (unfold paint; destruct (resize img); apply to_unsigned_long_range).
  assert (Hch : 0 <= canvas_height (paint img))
    by (unfold paint; destruct (resize img); apply to_unsigned_long_range).
  set (w := img_width img) in *. set (h := img_height img) in *.
  set (cw := canvas_width (paint img)) in *.
  set (ch := canvas_height (paint img)) in *.
  destruct (Z_lt_le_dec 1024 w) as [Hw1|Hw1];
    [|destruct (Z_lt_le_dec 1024 h) as [Hh1|Hh1]].
  - destruct (Hbig (or_introl Hw1)) as (Hmax & Hwide & Htall).
    destruct (Z_lt_le_dec h w) as [Hlt|Hge].
    + destruct (Hwide Hlt) as [Ecw Hs].
      assert (ch <= h).
      { destruct (Z_le_gt_dec ch h) as [|Hgt]; [assumption|exfalso].
        assert ((h + 1) * w <= ch * w) by (apply Z.mul_le_mono_nonneg_r; lia).
        assert ((h + 1) * 1024 <= (h + 1) * w)
          by (apply Z.mul_le_mono_nonneg_l; lia).
        lia. }
      lia.
    + destruct (Htall Hge) as [Ech Hs].
      assert (cw <= w).
      { destruct (Z_le_gt_dec cw w) as [|Hgt]; [assumption|exfalso].
        assert ((w + 1) * h <= cw * h) by (apply Z.mul_le_mono_nonneg_r; lia).
        assert ((w + 1) * 1024 <= (w + 1) * h)
          by (apply Z.mul_le_mono_nonneg_l; lia).
        lia. }
      lia.
  - destruct (Hbig (or_intror Hh1)) as (Hmax & Hwide & Htall).
    destruct (Htall ltac:(lia)) as [Ech Hs].
    assert (cw <= w).
    { destruct (Z_le_gt_dec cw w) as [|Hgt]; [assumption|exfalso].
      assert ((w + 1) * h <= cw * h) by (apply Z.mul_le_mono_nonneg_r; lia).
      assert ((w + 1) * 1024 <= (w + 1) * h)
        by (apply Z.mul_le_mono_nonneg_l; lia).
      lia. }
    lia.
  - destruct (Hsmall Hw1 Hh1) as [Ecw Ech]. lia.
Qed.

(** X15: a strip collapses.  When the image is wider than 1024 and more
    than 1024 times as wide as it is high, the canvas gets height 0; when
    it is at most 512 times as wide as it is high, the canvas height is at
    least 1.  The same holds with the sides exchanged. *)
Theorem thin_images_collapse (img : Image) :
  0 <= img_width img < 2 ^ 32 -> 0 <= img_height img < 2 ^ 32 ->
  (1024 < img_width img -> 1024 * img_height img < img_width img ->
   canvas_width (paint img) = 1024 /\ canvas_height (paint img) = 0)
  /\ (1024 < img_width img -> img_height img < img_width img ->
      2 * img_width img <= 1024 * img_height img ->
      1 <= canvas_height (paint img))
  /\ (1024 < img_height img -> 1024 * img_width img < img_height img ->
      canvas_height (paint img) = 1024 /\ canvas_width (paint img) = 0)
  /\ (1024 < img_height img -> img_width img <= img_height img ->
      2 * img_height img <= 1024 * img_width img ->
      1 <= canvas_width (paint img)).
Proof.
  intros Hw Hh.
  destruct (paint_dimensions img Hw Hh) as [Hbig _].
  assert (Hcw : 0 <= canvas_width (paint img))
    by (unfold paint; destruct (resize img); apply to_unsigned_long_range).
  assert (Hch : 0 <= canvas_height (paint img))
    by (unfold paint; destruct (resize img); apply to_unsigned_long_range).
  set (w := img_width img) in *. set (h := img_height img) in *.
  set (cw := canvas_width (paint img)) in *.
  set (ch := canvas_height (paint img)) in *.
  repeat split.
  - destruct (Hbig (or_introl H)) as (_ & Hwide & _).
    destruct (Hwide ltac:(lia)) as [E _]. exact E.
  - destruct (Hbig (or_introl H)) as (_ & Hwide & _).
    destruct (Hwide ltac:(lia)) as [_ Hs].
    destruct (Z.eq_dec ch 0) as [|Hne]; [assumption|exfalso].
    assert (1 * w <= ch * w) by (apply Z.mul_le_mono_nonneg_r; lia). lia.
  - intros Hbigw Hlt Hratio. destruct (Hbig (or_introl Hbigw)) as (_ & Hwide & _).
    destruct (Hwide Hlt) as [_ Hs].
    destruct (Z_le_gt_dec 1 ch) as [|Hz]; [assumption|exfalso].
    assert (ch = 0) by lia. subst ch. lia.
  - destruct (Hbig (or_intror H)) as (_ & _ & Htall).
    destruct (Htall ltac:(lia)) as [E _]. exact E.
  - destruct (Hbig (or_intror H)) as (_ & _ & Htall).
    destruct (Htall ltac:(lia)) as [_ Hs].
    destruct (Z.eq_dec cw 0) as [|Hne]; [assumption|exfalso].
    assert (1 * h <= cw * h) by (apply Z.mul_le_mono_nonneg_r; lia). lia.
  - intros Hbigh Hle Hratio. destruct (Hbig (or_intror Hbigh)) as (_ & _ & Htall).
    destruct (Htall Hle) as [_ Hs].
    destruct (Z_le_gt_dec 1 cw) as [|Hz]; [assumption|exfalso].
    assert (cw = 0) by lia. subst cw. lia.
Qed.

End CanvasBounds.

Lemma canvas_never_exceeds_image_witness :
  (0 <= canvas_width (paint Samples.photo) <= Z.min 1024 4000)%Z
  /\ (0 <= canvas_height (paint Samples.photo) <= Z.min 1024 3000)%Z.
Proof.
  apply (canvas_never_exceeds_image Samples.photo);
    vm_compute; split; (discriminate || reflexivity).
Defined.

Lemma thin_images_collapse_witness :
  canvas_width (paint Samples.ribbon) = 1024%Z
  /\ canvas_height (paint Samples.ribbon) = 0%Z.
Proof.
  destruct (thin_images_collapse Samples.ribbon) as (H & _).
  - vm_compute. split; [discriminate | reflexivity].
  - vm_compute. split; [discriminate | reflexivity].
  - apply H; reflexivity.
Defined.

(** ** Base64 payloads decode back to the file *)

Section Base64RoundTrip.

Local Open Scope N_scope.

Lemma value_digit (n : N) :
  n < 64 -> Base64Decode.value (Base64.digit n) = Some n.
Proof.
  intros Hn. rewrite <- (Nnat.N2Nat.id n) in *.
  assert (Hk : (N.to_nat n < 64)%nat) by lia.
  generalize dependent (N.to_nat n). clear n. intros k _ Hk.
  do 64 (destruct k as [|k]; [reflexivity|]). lia.
Qed.

Lemma digit_not_pad (n : N) :
  n < 64 -> Ascii.eqb (Base64.digit n) "=" = false.
Proof.
  intros Hn. rewrite <- (Nnat.N2Nat.id n) in *.
  assert (Hk : (N.to_nat n < 64)%nat) by lia.
  generalize dependent (N.to_nat n). clear n. intros k _ Hk.
  do 64 (destruct k as [|k]; [reflexivity|]). lia.
Qed.

Lemma octet_to_N (b : byte) : Base64Decode.octet (Byte.to_N b) = b.
Proof. unfold Base64Decode.octet. rewrite Byte.of_to_N. reflexivity. Qed.

Lemma sextets (x y z : N) :
  x < 256 -> y < 256 -> z < 256 ->
  x / 4 < 64
  /\ (x mod 4) * 16 + y / 16 < 64
  /\ (y mod 16) * 4 + z / 64 < 64
  /\ z mod 64 < 64
  /\ (x mod 4) * 16 < 64
  /\ (y mod 16) * 4 < 64
  /\ x / 4 * 4 + ((x mod 4) * 16 + y / 16) / 16 = x
  /\ (((x mod 4) * 16 + y / 16) mod 16) * 16 + ((y mod 16) * 4 + z / 64) / 4 = y
  /\ (((y mod 16) * 4 + z / 64) mod 4) * 64 + z mod 64 = z
  /\ x / 4 * 4 + ((x mod 4) * 16) / 16 = x
  /\ (((x mod 4) * 16 + y / 16) mod 16) * 16 + ((y mod 16) * 4) / 4 = y.
Proof.
  intros Hx Hy Hz. repeat split; zify; Z.to_euclidean_division_equations; lia.
Qed.

Lemma decode_encode_upto (n : nat) :
  forall bs, (List.length bs <= n)%nat ->
             Base64Decode.decode (Base64.encode bs) = Some bs.
Proof.
  induction n as [n IH] using lt_wf_ind. intros bs Hlen.
  destruct bs as [|a [|b [|c rest]]]; [reflexivity | | |].
  - pose proof (Byte.to_N_bounded a) as Ha.
    destruct (sextets (Byte.to_N a) 0 0) as (H1 & _ & _ & _ & H5 & _ & _ & _ & _ & H10 & _);
      try lia.
    cbn [Base64.encode Base64Decode.decode].
    rewrite !value_digit by assumption. cbn [Ascii.eqb truthy negb andb].
    change (Ascii.eqb "=" "=") with true. cbn [andb].
    rewrite H10, octet_to_N. reflexivity.
  - pose proof (Byte.to_N_bounded a) as Ha. pose proof (Byte.to_N_bounded b) as Hb.
    destruct (sextets (Byte.to_N a) (Byte.to_N b) 0)
      as (H1 & H2 & _ & _ & _ & H6 & H7 & _ & _ & _ & H11); try lia.
    cbn [Base64.encode Base64Decode.decode].
    rewrite !value_digit by assumption.
    rewrite (digit_not_pad _ H6). change (Ascii.eqb "=" "=") with true.
    cbn [truthy negb].
    rewrite H7, H11, !octet_to_N. reflexivity.
  - pose proof (Byte.to_N_bounded a) as Ha. pose proof (Byte.to_N_bounded b) as Hb.
    pose proof (Byte.to_N_bounded c) as Hc.
    destruct (sextets (Byte.to_N a) (Byte.to_N b) (Byte.to_N c))
      as (H1 & H2 & H3 & H4 & _ & _ & H7 & H8 & H9 & _ & _); try lia.
    cbn [Base64.encode Base64Decode.decode].
    rewrite !value_digit by assumption.
    rewrite (digit_not_pad _ H3), (digit_not_pad _ H4).
    rewrite (IH (List.length rest)) by (cbn in Hlen; lia).
    rewrite H7, H8, H9, !octet_to_N. reflexivity.
Qed.

Lemma encode_length_upto (n : nat) :
  forall bs, (List.length bs <= n)%nat ->
             String.length (Base64.encode bs)
             = (4 * ((List.length bs + 2) / 3))%nat.
Proof.
  induction n as [n IH] using lt_wf_ind. intros bs Hlen.
  destruct bs as [|a [|b [|c rest]]]; try reflexivity.
  cbn [Base64.encode String.length List.length].
  rewrite (IH (List.length rest)) by (cbn in Hlen; lia).
  replace (S (S (S (List.length rest))) + 2)%nat
    with (List.length rest + 2 + 1 * 3)%nat by lia.
  rewrite Nat.div_add by discriminate. lia.
Qed.

End Base64RoundTrip.

(** X16: a document's payload loses nothing and is not bounded.  For an
    accepted file that is not an image and that the reader can read, the
    payload data has 4 characters for every 3 bytes of the file, rounded
    up, and decoding it as Base64 gives back exactly the file's bytes. *)
Theorem document_payload_round_trip readable decode getContext2d serialize
    (f : File) :
  accepted f = true ->
  startsWith "image/" (type f) = false ->
  readable f = true ->
  exists d,
    compressImage readable decode getContext2d serialize f
      = Resolved {| data := Some d; payload_mimeType := "application/pdf" |}
    /\ Base64Decode.decode d = Some (bytes f)
    /\ String.length d = (4 * ((List.length (bytes f) + 2) / 3))%nat.
Proof.
  intros Hacc Himg Hread.
  assert (Hpdf : type f = "application/pdf").
  { unfold accepted in Hacc. rewrite Himg in Hacc. cbn in Hacc.
    apply negb_true_iff, negb_false_iff in Hacc.
    apply String.eqb_eq. exact Hacc. }
  exists (Base64.encode (bytes f)). split; [|split].
  - unfold compressImage, readAsDataURL. rewrite Himg, Hread. cbn [negb].
    unfold dataURL. rewrite Hpdf.
    change ("data:" ++ "application/pdf" ++ ";base64," ++ Base64.encode (bytes f))
      with ("data:application/pdf;base64" ++ String "," (Base64.encode (bytes f))).
    rewrite split_once; [reflexivity | reflexivity | apply encode_no_comma].
  - exact (decode_encode_upto _ _ (le_n _)).
  - exact (encode_length_upto _ _ (le_n _)).
Qed.

Lemma document_payload_round_trip_witness :
  exists d,
    compressImage Samples.always_readable Samples.decode_photo
      Samples.context_available Samples.encode_stub Samples.report_pdf
      = Resolved {| data := Some d; payload_mimeType := "application/pdf" |}
    /\ Base64Decode.decode d = Some [x25; x50; x44; x46]%byte
    /\ String.length d = 8%nat.
Proof.
  apply (document_payload_round_trip Samples.always_readable Samples.decode_photo
           Samples.context_available Samples.encode_stub Samples.report_pdf);
    reflexivity.
Defined.

(** ** Severity colours *)

Lemma lower_idempotent (c : ascii) : lower (lower c) = lower c.
Proof. destruct c as [[] [] [] [] [] [] [] []]; reflexivity. Qed.

Lemma toLowerCase_idempotent (s : string) :
  toLowerCase (toLowerCase s) = toLowerCase s.
Proof.
  induction s as [|c s IH]; cbn; [reflexivity|].
  rewrite lower_idempotent, IH. reflexivity.
Qed.

(** X17: getSeverityColor ignores letter case and falls back to green.
    The colour of a severity is the colour of its lower-case form; it is
    the red, orange or yellow class exactly when the lower-case form is
    "high", "medium" or "low", and the green class in every other case. *)
Theorem getSeverityColor_classifies (severity : string) :
  getSeverityColor (toLowerCase severity) = getSeverityColor severity
  /\ (getSeverityColor severity = "bg-red-100 text-red-800 border-red-200"
      <-> toLowerCase severity = "high")
  /\ (getSeverityColor severity = "bg-orange-100 text-orange-800 border-orange-200"
      <-> toLowerCase severity = "medium")
  /\ (getSeverityColor severity = "bg-yellow-100 text-yellow-800 border-yellow-200"
      <-> toLowerCase severity = "low")
  /\ (getSeverityColor severity = "bg-green-100 text-green-800 border-green-200"
      <-> toLowerCase severity <> "high"
          /\ toLowerCase severity <> "medium"
          /\ toLowerCase severity <> "low").
Proof.
  split; [unfold getSeverityColor; rewrite toLowerCase_idempotent; reflexivity|].
  unfold getSeverityColor.
  destruct (String.eqb_spec (toLowerCase severity) "high") as [Eh|Nh];
    [rewrite Eh; repeat split; intros; try discriminate; try tauto;
     match goal with H : _ /\ _ |- _ => destruct H; congruence end|].
  destruct (String.eqb_spec (toLowerCase severity) "medium") as [Em|Nm];
    [rewrite Em; repeat split; intros; try discriminate; try tauto;
     match goal with H : _ /\ _ |- _ => destruct H as (_ & ? & _); congruence end|].
  destruct (String.eqb_spec (toLowerCase severity) "low") as [El|Nl];
    [rewrite El; repeat split; intros; try discriminate; try tauto;
     match goal with H : _ /\ _ |- _ => destruct H as (_ & _ & ?); congruence end|].
  repeat split; intros; try discriminate; try contradiction; auto.
Qed.

Lemma getSeverityColor_classifies_witness :
  getSeverityColor "HIGH" = "bg-red-100 text-red-800 border-red-200"
  /\ getSeverityColor "Medium" = "bg-orange-100 text-orange-800 border-orange-200"
  /\ getSeverityColor "None" = "bg-green-100 text-green-800 border-green-200".
Proof.
  split; [|split].
  - apply (getSeverityColor_classifies "HIGH"). reflexivity.
  - apply (getSeverityColor_classifies "Medium"). reflexivity.
  - apply (getSeverityColor_classifies "None"). repeat split; discriminate.
Defined.

(** ** Removal *)

(** X18: removal cancels nothing and can be repeated.  removeItem leaves
    the pipelines in flight, the alerts and the draws as they are, so the
    pipeline of a removed entry still runs; removing the same identity a
    second time changes nothing more; and removing an identity that no
    entry carries and that is not selected returns the state as it was. *)
Theorem removeItem_edge_cases (i : string) (st : State) :
  tasks (removeItem i st) = tasks st
  /\ alerts (removeItem i st) = alerts st
  /\ draws (removeItem i st) = draws st
  /\ removeItem i (removeItem i st) = removeItem i st
  /\ ((forall item, In item (items st) -> id item <> i) ->
      selectedId st <> Some i ->
      removeItem i st = st).
Proof.
  split; [reflexivity|]. split; [reflexivity|]. split; [reflexivity|].
  assert (Hidem : forall l : list FileItem,
             filter (fun x => negb (String.eqb (id x) i))
               (filter (fun x => negb (String.eqb (id x) i)) l)
             = filter (fun x => negb (String.eqb (id x) i)) l).
  { induction l as [|x l IH]; cbn; [reflexivity|].
    destruct (negb (String.eqb (id x) i)) eqn:E; cbn; rewrite ?E, IH; reflexivity. }
  split.
  - unfold removeItem at 1. cbn [items selectedId alerts tasks draws removeItem].
    rewrite Hidem. unfold removeItem. f_equal.
    destruct (selectedId st) as [s|]; [|reflexivity].
    destruct (String.eqb_spec s i) as [->|Hne].
    + destruct (filter _ (items st)) as [|first rest] eqn:Ef; [reflexivity|].
      assert (Hin : In first (filter (fun x => negb (String.eqb (id x) i)) (items st)))
        by (rewrite Ef; left; reflexivity).
      apply filter_In in Hin as [_ Hin].
      apply negb_true_iff in Hin. rewrite Hin. reflexivity.
    + destruct (String.eqb_spec s i); [contradiction | reflexivity].
  - intros Habs Hsel. unfold removeItem.
    assert (Hsame : filter (fun x => negb (String.eqb (id x) i)) (items st) = items st).
    { clear Hsel. induction (items st) as [|x l IH]; cbn; [reflexivity|].
      destruct (String.eqb_spec (id x) i) as [E|_].
      - exfalso. exact (Habs x (or_introl eq_refl) E).
      - cbn. f_equal. apply IH. intros y Hy. apply Habs. right. exact Hy. }
    rewrite Hsame. destruct st as [its sel al ts d]. cbn in *. f_equal.
    destruct sel as [s|]; [|reflexivity].
    destruct (String.eqb_spec s i); [congruence | reflexivity].
Qed.

Lemma removeItem_edge_cases_witness :
  removeItem "zz" Samples.two_items = Samples.two_items.
Proof.
  destruct (removeItem_edge_cases "zz" Samples.two_items) as (_ & _ & _ & _ & H).
  apply H.
  - intros item [<-|[<-|[]]]; discriminate.
  - discriminate.
Defined.

(** ** compressImage: when it fails, and what a document never meets *)

(** X19: compressImage rejects exactly when the reader fails, or the file
    is an image that cannot be decoded or for which no drawing context is
    available.  A file that is not an image never reaches the decoder, the
    canvas or the encoder: its outcome is the same whatever they do. *)
Theorem compressImage_failures readable decode getContext2d serialize (f : File) :
  (compressImage readable decode getContext2d serialize f = Rejected
   <-> readable f = false
       \/ (startsWith "image/" (type f) = true
           /\ (decode (dataURL f) = None
               \/ exists img, decode (dataURL f) = Some img
                    /\ getContext2d (canvas_width (paint img))
                         (canvas_height (paint img)) = false)))
  /\ (startsWith "image/" (type f) = false ->
      forall decode' getContext2d' serialize',
        compressImage readable decode' getContext2d' serialize' f
        = compressImage readable decode getContext2d serialize f).
Proof.
  unfold compressImage, readAsDataURL. split.
  - destruct (startsWith "image/" (type f)); cbn [negb];
      destruct (readable f); split; intros H; try discriminate; auto.
    + destruct (decode (dataURL f)) as [img|] eqn:Hd; [|auto].
      destruct (getContext2d _ _) eqn:Hc; [discriminate|].
      right. split; [reflexivity|]. right. exists img. auto.
    + destruct H as [H|(_ & [H|(img & Hd & Hc)])]; [discriminate | |].
      * rewrite H. reflexivity.
      * rewrite Hd, Hc. reflexivity.
    + destruct H as [H|(H & _)]; discriminate.
  - intros -> decode' getContext2d' serialize'. reflexivity.
Qed.

Lemma compressImage_failures_witness :
  compressImage Samples.always_readable (fun _ => None)
    (fun _ _ => false) Samples.encode_stub Samples.report_pdf
  = compressImage Samples.always_readable Samples.decode_photo
      Samples.context_available Samples.encode_stub Samples.report_pdf.
Proof.
  destruct (compressImage_failures Samples.always_readable Samples.decode_photo
              Samples.context_available Samples.encode_stub Samples.report_pdf)
    as [_ H].
  apply H. reflexivity.
Defined.

(** ** Display order *)

Lemma filter_all {A : Type} (l : list A) : filter (fun _ => true) l = l.
Proof. induction l as [|x l IH]; cbn; [reflexivity | rewrite IH; reflexivity]. Qed.

Lemma map_id_filter (p : string -> bool) (l : list FileItem) :
  map id (filter (fun item => p (id item)) l) = filter p (map id l).
Proof.
  induction l as [|x l IH]; cbn; [reflexivity|].
  destruct (p (id x)); cbn; rewrite IH; reflexivity.
Qed.

(** X20: no event reorders the entries.  After any event the list of
    identities, in display order, is the previous list with the
    occurrences of the removed identity deleted (for a removal), followed
    by the identities appended (for added files); merges, selections and
    settled compressions leave it as it was. *)
Theorem events_keep_display_order random_id createObjectURL JSON_parse readable
    decode getContext2d serialize (st st' : State) (e : Event) :
  next random_id createObjectURL JSON_parse readable decode getContext2d
    serialize st e = Some st' ->
  exists appended,
    map id (items st')
    = (filter (fun j => match e with
                        | Remove i => negb (String.eqb j i)
                        | _ => true
                        end) (map id (items st)) ++ appended)%list
    /\ match e with
       | AddFiles files =>
           List.length appended = List.length (filter accepted files)
       | _ => appended = []
       end.
Proof.
  destruct e as [files|i|s|k|k r]; cbn [next].
  - intros [= <-].
    destruct (processFiles_fresh random_id createObjectURL files st)
      as (fresh & -> & Hf & _).
    exists (map id fresh). cbn [items]. rewrite map_app, filter_all.
    split; [reflexivity|]. rewrite <- Hf, !length_map. reflexivity.
  - intros [= <-]. exists []. cbn [items removeItem]. rewrite app_nil_r.
    split; [|reflexivity].
    apply (map_id_filter (fun j => negb (String.eqb j i))).
  - destruct s as [i|]; [destruct (existsb _ _); [|discriminate]|];
      intros [= <-]; exists []; cbn [items]; rewrite app_nil_r, filter_all; auto.
  - destruct (nth_error (tasks st) k) as [[item|]|] eqn:Hk; try discriminate.
    destruct (compressImage _ _ _ _ _) as [p|]; intros [= <-]; exists [];
      cbn [items with_items]; rewrite app_nil_r, filter_all; [auto|].
    split; [|reflexivity]. unfold mergeError. rewrite map_map. apply map_ext.
    intros x. destruct (String.eqb (id x) (id item)); reflexivity.
  - destruct (nth_error (tasks st) k) as [[|i b m]|] eqn:Hk; try discriminate.
    intros [= <-]. exists []. cbn [items with_items].
    rewrite app_nil_r, filter_all. split; [|reflexivity].
    destruct (analyzeItem_merge_full JSON_parse i r) as (g & -> & Hg).
    rewrite map_map. apply map_ext. intros x.
    destruct (String.eqb (id x) i); [apply Hg | reflexivity].
Qed.

Lemma events_keep_display_order_witness :
  exists appended,
    map id (items Samples.after_second_file)
    = (filter (fun _ => true) (map id (items Samples.after_document))
       ++ appended)%list
    /\ List.length appended = 1%nat.
Proof.
  apply (events_keep_display_order Samples.tally Samples.blob_url
           Samples.parse_healthy Samples.always_readable Samples.decode_photo
           Samples.context_available Samples.encode_stub
           Samples.after_document Samples.after_second_file
           (AddFiles [Samples.leaf_png])).
  vm_compute. reflexivity.
Defined.

(** ** Sidebar and card *)

(** X21: the sidebar and the card never disagree about an entry.  The
    sidebar says "Analyzing..." exactly when the card takes the spinner and
    "Error" exactly when the card takes the failure panel; when it shows a
    status badge the card takes the report block with the stored value,
    whose [overallStatus] the badge is given, or nothing at all when the
    stored value does not pass for true, in which case the badge is empty
    and red.  For a stored value of the declared type the badge is given
    its status text and is green exactly for "Healthy". *)
Theorem sidebar_agrees_with_card (item : FileItem) :
  (sidebarStatus item = ShowsAnalyzing <-> body item = Spinner)
  /\ (sidebarStatus item = ShowsError <-> exists e, body item = AnalysisFailed e)
  /\ (forall text healthy,
        sidebarStatus item = ShowsStatus text healthy ->
        (Json.truthy (result item) = true
         /\ body item = Report (result item)
         /\ text = Json.get "overallStatus" (result item)
         /\ healthy = Json.is_string "Healthy" text
         /\ (forall r, result item = Json.of_AnalysisResult r ->
               text = Some (Json.Str (overallStatus r))
               /\ healthy = String.eqb (overallStatus r) "Healthy"))
        \/ (Json.truthy (result item) = false /\ body item = Blank
            /\ text = None /\ healthy = false)).
Proof.
  assert (Hfalsy : forall v, Json.truthy v = false ->
            Json.get "overallStatus" v = None).
  { intros [| | | | |ms]; cbn; congruence. }
  assert (Hbadge : forall text healthy,
            ShowsStatus (Json.get "overallStatus" (result item))
              (Json.is_string "Healthy" (Json.get "overallStatus" (result item)))
            = ShowsStatus text healthy ->
            (Json.truthy (result item) = true
             /\ (if Json.truthy (result item) then Report (result item) else Blank)
                = Report (result item)
             /\ text = Json.get "overallStatus" (result item)
             /\ healthy = Json.is_string "Healthy" text
             /\ (forall r, result item = Json.of_AnalysisResult r ->
                   text = Some (Json.Str (overallStatus r))
                   /\ healthy = String.eqb (overallStatus r) "Healthy"))
            \/ (Json.truthy (result item) = false
                /\ (if Json.truthy (result item) then Report (result item) else Blank)
                   = Blank
                /\ text = None /\ healthy = false)).
  { intros text healthy [= <- <-].
    destruct (Json.truthy (result item)) eqn:Ht.
    - left. do 4 (split; [reflexivity|]).
      intros r Hr. rewrite Hr. split; reflexivity.
    - right. rewrite (Hfalsy _ Ht). auto. }
  unfold sidebarStatus, body.
  destruct (loading item).
  - split; [tauto|]. split.
    + split; [discriminate | intros [e He]; discriminate].
    + discriminate.
  - destruct (error item) as [e|]; [destruct (truthy e)|].
    + split; [split; discriminate|]. split.
      * split; [intros _; exists e; reflexivity | reflexivity].
      * discriminate.
    + split;
        [split; [discriminate
                | destruct (Json.truthy (result item)); discriminate]|].
      split; [|exact Hbadge].
      split; [discriminate|].
      intros [m Hm]; destruct (Json.truthy (result item)); discriminate.
    + split;
        [split; [discriminate
                | destruct (Json.truthy (result item)); discriminate]|].
      split; [|exact Hbadge].
      split; [discriminate|].
      intros [m Hm]; destruct (Json.truthy (result item)); discriminate.
Qed.

Lemma sidebar_agrees_with_card_witness :
  body Samples.second_item = Spinner.
Proof.
  apply (sidebar_agrees_with_card Samples.second_item). reflexivity.
Defined.

(** The badge of an entry whose stored value is the empty object: the
    report block is taken, and the badge is empty and red. *)
Example badge_of_empty_object :
  exists st item,
    Samples.app Samples.tally Samples.parse_null initial
      (Samples.one_document "{}") = Some st
    /\ items st = [item]
    /\ body item = Report (Json.Obj [])
    /\ sidebarStatus item = ShowsStatus None false.
Proof.
  eexists. eexists. split; [vm_compute; reflexivity|]. repeat split.
Qed.
